(** * Lumina: generation orchestration and history persistence

    A shallow embedding of the three sources of the application:
    - [services/geminiService.ts], the provider gateway (module [Gemini]);
    - the Express/SQLite history server (module [Server]);
    - the React component [App] with [fetchHistory], [deleteHistoryItem]
      and [handleGenerate] (module [App]).

    Asynchronous functions are modelled as computations over an explicit
    [World]: the SQLite table, the browser's blob registry, the console and
    the ordered log of every call that leaves the component.  Everything the
    outside answers (provider replies, the AI Studio key dialog, the state of
    the connection to the history server, the server clock) is an input
    collected in the record [Env]. *)

From Stdlib Require Import String Ascii List ZArith Lia Bool Permutation Sorted.
Import ListNotations.
Local Open Scope string_scope.
Local Open Scope Z_scope.
Local Open Scope list_scope.

(** ** JavaScript values *)

Module Js.

(** Truthiness of a string: every string but the empty one. *)
Definition truthy (s : string) : bool := negb (s =? "")%string.

(** Truthiness of a [string | undefined | null]. *)
Definition truthy_opt (o : option string) : bool :=
  match o with
  | Some s => truthy s
  | None => false
  end.

(** [a || d] on strings. *)
Definition or_else (a d : string) : string := if truthy a then a else d.

(** [a || d] where [a] may be undefined. *)
Definition opt_or_else (a : option string) (d : string) : string :=
  match a with
  | Some s => or_else s d
  | None => d
  end.

(** [s.startsWith(p)] *)
Definition startsWith (s p : string) : bool := String.prefix p s.

(** [s.includes(sub)] *)
Fixpoint includes (s sub : string) : bool :=
  String.prefix sub s ||
  match s with
  | EmptyString => false
  | String _ rest => includes rest sub
  end.

(** The settled state of an awaited promise; [Pending] is a promise that
    never settles. *)
Inductive Promise (A : Type) : Type :=
  | Resolved (a : A)
  | Rejected (message : string)
  | Pending.
Arguments Resolved {A} a.
Arguments Rejected {A} message.
Arguments Pending {A}.

(** The JavaScript number a 64-bit integer becomes: the integer itself up to
    2^53 in size, beyond that the nearest double, a tie going to the even
    significand. *)
Definition as_double (n : Z) : Z :=
  if Z.abs n <=? 9007199254740992 then n
  else
    let ulp := 2 ^ (Z.log2 (Z.abs n) - 52) in
    let q := n / ulp in
    let r := n mod ulp in
    if 2 * r <? ulp then q * ulp
    else if ulp <? 2 * r then (q + 1) * ulp
    else if Z.even q then q * ulp
    else (q + 1) * ulp.
Arguments as_double : simpl never.

End Js.
Import Js.

(** ** Data shared by the three sources *)

(** [{ data, mimeType }]: an uploaded image, a recorded clip, an inline part. *)
Record Media : Type := { data : string; mimeType : string }.

(** A citation [{ title, uri }]; [uri] is whatever [chunk.web?.uri] was. *)
Record Source : Type := { title : string; uri : option string }.

(** The text [JSON.stringify] makes of a citation array.  [JSON.parse] gives
  the array back; the text itself is never the empty string. *)
Inductive Json : Type := JSON_stringify (sources : list Source).

Definition JSON_parse (j : Json) : list Source :=
  match j with JSON_stringify l => l end.

(** The body of [POST /api/history] as the component builds it, which the
    server echoes with an [id]: [type], [data] and [prompt] are strings,
    [text] is a string or [undefined], [sources] an array of citations or
    [undefined]. *)
Module Body.
Record t : Type :=
  { type : string;
    data : string;
    prompt : string;
    text : option string;
    sources : option (list Source) }.
End Body.

Module Saved.
Record t : Type :=
  { id : Z;
    type : string;
    data : string;
    prompt : string;
    text : option string;
    sources : option (list Source) }.
End Saved.

(** [interface GenerationResult] *)
Module Result.
Record t : Type :=
  { id : option Z;
    type : string;
    url : string;
    prompt : string;
    text : option string;
    sources : option (list Source) }.
End Result.

(** ** The body on the wire *)

(** Strings are held as the bytes of their UTF-8 form, which is what
    [fetch] sends.  Inside a JSON string [JSON.stringify] writes the quote,
    the backslash and the control characters with a short name as two
    bytes, the other control characters as [\u00XX], and every other byte
    as it is. *)
Definition json_char_length (c : ascii) : Z :=
  let n := nat_of_ascii c in
  if ((n =? 34) || (n =? 92))%nat then 2
  else if ((n =? 8) || (n =? 9) || (n =? 10) || (n =? 12) || (n =? 13))%nat
  then 2
  else if (n <? 32)%nat then 6
  else 1.

Fixpoint json_chars_length (s : string) : Z :=
  match s with
  | EmptyString => 0
  | String c rest => json_char_length c + json_chars_length rest
  end.

(** The length of [JSON.stringify(s)] for a string [s]. *)
Definition json_string_length (s : string) : Z := 2 + json_chars_length s.

(** The length of an object or an array: two brackets, the items, and a
    comma between two items. *)
Definition json_joined_length (items : list Z) : Z :=
  2 + fold_right Z.add 0 items + Z.max 0 (Z.of_nat (length items) - 1).

(** A member of an object: the key, a colon, the value. *)
Definition json_member_length (key : string) (value : Z) : Z :=
  json_string_length key + 1 + value.

(** A citation; a member that is [undefined] is left out. *)
Definition json_source_length (s : Source) : Z :=
  json_joined_length
    (json_member_length "title" (json_string_length (title s))
     :: match uri s with
        | Some u => [json_member_length "uri" (json_string_length u)]
        | None => []
        end).

(** The length of [JSON.stringify({ type, data, prompt, text, sources })],
    the body of the POST. *)
Definition content_length (b : Body.t) : Z :=
  json_joined_length
    ([json_member_length "type" (json_string_length (Body.type b));
      json_member_length "data" (json_string_length (Body.data b));
      json_member_length "prompt" (json_string_length (Body.prompt b))]
     ++ match Body.text b with
        | Some t => [json_member_length "text" (json_string_length t)]
        | None => []
        end
     ++ match Body.sources b with
        | Some cited =>
            [json_member_length "sources"
               (json_joined_length (map json_source_length cited))]
        | None => []
        end).
Arguments content_length : simpl never.

(** ** The history server *)

Module Server.

(** A row of table [history]. *)
Record Row : Type :=
  { id : Z;
    type : string;
    data : string;
    prompt : string;
    text : option string;
    sources : option Json;
    timestamp : Z }.

(** The database file: the table in rowid order, the AUTOINCREMENT
    counter (the largest rowid ever handed out), and whether statements
    currently throw (a locked or damaged file). *)
Record Db : Type :=
  { history : list Row;
    seq : Z;
    faulty : bool }.

Inductive Response (A : Type) : Type :=
  | Status200 (body : A)
  | Status400
  | Status413
  | Status500.
Arguments Status200 {A} body.
Arguments Status400 {A}.
Arguments Status413 {A}.
Arguments Status500 {A}.


(** [ORDER BY timestamp DESC] as SQLite's sorter runs it on a table scan:
    a row moves in front of the rows that are not newer than itself, so
    rows of one timestamp stay in rowid order. *)
Fixpoint sorter_insert (r : Row) (sorted : list Row) : list Row :=
  match sorted with
  | [] => [r]
  | x :: rest =>
      if timestamp x <=? timestamp r then r :: x :: rest
      else x :: sorter_insert r rest
  end.

Definition sqlite_order_by_timestamp_desc (scan : list Row) : list Row :=
  fold_right sorter_insert [] scan.

Section Routes.

  (** The engine's [ORDER BY timestamp DESC]. *)
Variable order_by_timestamp_desc : list Row -> list Row.

  (** [app.get("/api/history")] *)
Definition get_history (db : Db) : Response (list Row) :=
    if faulty db then Status500
    else Status200 (order_by_timestamp_desc (history db)).

End Routes.

(** The largest rowid: once AUTOINCREMENT has handed it out, every
    further INSERT fails. *)
Definition max_rowid : Z := 9223372036854775807.

(** [app.post("/api/history")], for a body whose [type], [data] and
    [prompt] are strings, as the component sends them; [now] is
    [CURRENT_TIMESTAMP], in seconds.  The row gets the rowid after the
    counter; [info.lastInsertRowid] is that rowid as a JavaScript number. *)
Definition post_history (now : Z) (db : Db) (b : Body.t)
  : Db * Response Saved.t :=
  if negb (truthy (Body.type b)) || negb (truthy (Body.data b))
     || negb (truthy (Body.prompt b))
  then (db, Status400)
  else if faulty db || (max_rowid <=? seq db) then (db, Status500)
  else
    let sourcesStr := option_map JSON_stringify (Body.sources b) in
    let rowid := seq db + 1 in
    let lastInsertRowid := as_double rowid in
    let row :=
      {| id := rowid;
         type := Body.type b;
         data := Body.data b;
         prompt := Body.prompt b;
         text := Body.text b;
         sources := sourcesStr;
         timestamp := now |} in
    ({| history := history db ++ [row];
        seq := rowid;
        faulty := faulty db |},
     Status200
       {| Saved.id := lastInsertRowid;
          Saved.type := Body.type b;
          Saved.data := Body.data b;
          Saved.prompt := Body.prompt b;
          Saved.text := Body.text b;
          Saved.sources := Body.sources b |}).

(** The limit of [express.json({ limit: '50mb' })], in bytes. *)
Definition json_limit : Z := 52428800.

(** The body is no longer than the limit. *)
Definition within_limit (b : Body.t) : bool := content_length b <=? json_limit.
Arguments within_limit : simpl never.

(** A POST to [/api/history] as the application answers it:
    [express.json] comes first and answers 413 to a body over the limit,
    which never reaches the route. *)
Definition post (now : Z) (db : Db) (b : Body.t) : Db * Response Saved.t :=
  if within_limit b then post_history now db b else (db, Status413).

(** [app.delete("/api/history/:id")]; the body is [{ success: true }]. *)
Definition delete_history (db : Db) (i : Z) : Db * Response bool :=
  if faulty db then (db, Status500)
  else
    ({| history := filter (fun r => negb (id r =? i)) (history db);
        seq := seq db;
        faulty := faulty db |},
     Status200 true).

(** The identifiers present in the table. *)
Definition ids (db : Db) : list Z := map id (history db).

End Server.

(** ** The world around the component *)

(** A long-running video operation as the provider reports it; [videoUri] is
    [operation.response?.generatedVideos?.[0]?.video?.uri]. *)
Record Operation : Type :=
  { name : string; done : bool; videoUri : option string }.

Inductive RequestPart : Type :=
| InlineData (m : Media)
| Text (t : string).

(** The argument of [ai.models.generateContent]. *)
Record ContentRequest : Type :=
  { model : string;
    contents : list RequestPart;
    tools : list string;
    imageAspectRatio : option string;
    voiceName : option string }.

Inductive AspectRatio : Type := Ratio_16_9 | Ratio_9_16.

(** The argument of [ai.models.generateVideos]. *)
Record VideoRequest : Type :=
  { videoModel : string;
    videoPrompt : string;
    numberOfVideos : Z;
    resolution : string;
    videoAspectRatio : AspectRatio;
    image : option Media }.

Record ResponsePart : Type := { inlineData : option Media }.

Record Web : Type := { webTitle : option string; webUri : option string }.

Record Chunk : Type := { web : option Web }.

(** What the gateway reads of a [generateContent] response: [parts] is
    [candidates?.[0]?.content?.parts] (empty when any link is missing),
    [groundingChunks] is [candidates?.[0]?.groundingMetadata?.groundingChunks]. *)
Record ContentResponse : Type :=
  { parts : list ResponsePart;
    responseText : option string;
    groundingChunks : option (list Chunk) }.

(** Binary data held by the browser; [readAsDataURL] renders it as
    [data:<contentType>;base64,<base64>]. *)
Record Blob : Type := { contentType : string; base64 : string }.

(** Every call that leaves the component, in the order it is made. *)
Inductive Event : Type :=
| GenerateContent (apiKey : string) (request : ContentRequest)
| GenerateVideos (apiKey : string) (request : VideoRequest)
| GetVideosOperation (apiKey : string) (operation : Operation)
| SetTimeout (ms : Z)
| Download (url : string) (headers : list (string * string))
| FetchBlob (url : string)
| HistoryGet
| HistoryPost (body : Body.t)
| HistoryDelete (id : Z)
| OpenSelectKey
| HasSelectedApiKey.

(** Calls to the AI provider. *)
Definition provider_call (ev : Event) : bool :=
  match ev with
  | GenerateContent _ _ | GenerateVideos _ _ | GetVideosOperation _ _
  | Download _ _ => true
  | _ => false
  end.

(** Calls to the durable store. *)
Definition store_call (ev : Event) : bool :=
  match ev with
  | HistoryGet | HistoryPost _ | HistoryDelete _ => true
  | _ => false
  end.

(** Calls that go over the network. *)
Definition network_call (ev : Event) : bool :=
  provider_call ev || store_call ev.

(** What the outside answers during one handler run. *)
Record Env : Type :=
  { API_KEY : option string;
    GEMINI_API_KEY : option string;
    lumina_api_key : option string;
    aistudio : option bool;
    generateContent_reply : Promise ContentResponse;
    generateVideos_reply : Promise Operation;
    getVideosOperation_replies : list (Promise Operation);
    download_reply : Promise (bool * Blob);
    objectURL_id : string;
    history_reachable : bool;
    CURRENT_TIMESTAMP : Z }.

Record World : Type :=
  { db : Server.Db;
    blobs : list (string * Blob);
    console : list string;
    calls : list Event }.

(** An asynchronous function: it changes the world and settles, or never
    does. *)
Definition Async (A : Type) : Type := World -> World * Promise A.

Definition ret {A} (a : A) : Async A := fun w => (w, Resolved a).

Definition throw {A} (message : string) : Async A :=
  fun w => (w, Rejected message).

Definition bind {A B} (c : Async A) (k : A -> Async B) : Async B :=
  fun w =>
    match c w with
    | (w', Resolved a) => k a w'
    | (w', Rejected m) => (w', Rejected m)
    | (w', Pending) => (w', Pending)
    end.

(** [try { c } catch (error) { handler(error.message) }] *)
Definition try_catch {A} (c : Async A) (handler : string -> Async A)
  : Async A :=
  fun w =>
    match c w with
    | (w', Rejected m) => handler m w'
    | settled => settled
    end.

Declare Scope async_scope.
Delimit Scope async_scope with async.
Notation "x <- c ;; k" := (bind c (fun x => k))
  (at level 61, c at next level, right associativity) : async_scope.
Notation "c ;;; k" := (bind c (fun _ => k))
  (at level 61, right associativity) : async_scope.
Local Open Scope async_scope.

Definition call (ev : Event) : Async unit :=
  fun w =>
    ({| db := db w; blobs := blobs w; console := console w;
        calls := calls w ++ [ev] |}, Resolved tt).

Definition console_error (label : string) : Async unit :=
  fun w =>
    ({| db := db w; blobs := blobs w; console := console w ++ [label];
        calls := calls w |}, Resolved tt).

(** Awaiting what the outside answered. *)
Definition await {A} (reply : Promise A) : Async A := fun w => (w, reply).

(** [URL.createObjectURL(blob)] *)
Definition createObjectURL (e : Env) (b : Blob) : Async string :=
  fun w =>
    let u := ("blob:" ++ objectURL_id e)%string in
    ({| db := db w; blobs := (u, b) :: blobs w; console := console w;
        calls := calls w |}, Resolved u).

Fixpoint lookup_blob (u : string) (registry : list (string * Blob))
  : option Blob :=
  match registry with
  | [] => None
  | (k, b) :: rest => if (k =? u)%string then Some b else lookup_blob u rest
  end.

(** [fetch(url).then(r => r.blob())] on an object URL. *)
Definition fetch_blob (u : string) : Async Blob :=
  call (FetchBlob u) ;;;
  fun w =>
    match lookup_blob u (blobs w) with
    | Some b => (w, Resolved b)
    | None => (w, Rejected "Failed to fetch")
    end.

(** [FileReader.readAsDataURL(blob)] *)
Definition readAsDataURL (b : Blob) : string :=
  ("data:" ++ contentType b ++ ";base64," ++ base64 b)%string.

(** ** services/geminiService.ts *)

Module Gemini.

(** [checkVeoKey] *)
Definition checkVeoKey (e : Env) : Async bool :=
  match aistudio e with
  | None => ret true
  | Some selected => call HasSelectedApiKey ;;; ret selected
  end.

(** [openVeoKeyDialog] *)
Definition openVeoKeyDialog (e : Env) : Async unit :=
  match aistudio e with
  | None => ret tt
  | Some _ => call OpenSelectKey
  end.

(** [getApiKey] *)
Definition getApiKey (e : Env) : string :=
  if truthy_opt (lumina_api_key e) then opt_or_else (lumina_api_key e) ""
  else opt_or_else (API_KEY e) (opt_or_else (GEMINI_API_KEY e) "").

(** [ai.models.generateContent(request)] on [new GoogleGenAI({ apiKey })] *)
Definition ai_generateContent (e : Env) (request : ContentRequest)
  : Async ContentResponse :=
  call (GenerateContent (getApiKey e) request) ;;;
  await (generateContent_reply e).

(** [catch (error) { console.error(label, error); throw error; }] *)
Definition log_and_rethrow {A} (label : string) (c : Async A) : Async A :=
  try_catch c (fun message => console_error label ;;; throw message).

(** [`data:${mimeType};base64,${data}`] *)
Definition dataUrl (mime payload : string) : string :=
  ("data:" ++ mime ++ ";base64," ++ payload)%string.

(** The [for] loop over the parts: the first part with inline data, as a
    data URL, or [null]. *)
Fixpoint first_inline_data (ps : list ResponsePart) : option string :=
  match ps with
  | [] => None
  | p :: rest =>
      match inlineData p with
      | Some m => Some (dataUrl (mimeType m) (data m))
      | None => first_inline_data rest
      end
  end.

(** [generateImage] *)
Definition generateImage (e : Env) (prompt : string) : Async (option string) :=
  log_and_rethrow "Error generating image:"
    (response <- ai_generateContent e
       {| model := "gemini-2.5-flash-image";
          contents := [Text prompt];
          tools := [];
          imageAspectRatio := Some "1:1";
          voiceName := None |} ;;
     ret (first_inline_data (parts response))).

(** The [map] of [researchWithSearch]. *)
Definition chunk_source (chunk : Chunk) : Source :=
  {| title := opt_or_else (match web chunk with
                           | Some w => webTitle w
                           | None => None
                           end) "Source";
     uri := match web chunk with
            | Some w => webUri w
            | None => None
            end |}.

Definition grounding_sources (response : ContentResponse) : list Source :=
  match groundingChunks response with
  | Some chunks => filter (fun s => truthy_opt (uri s)) (map chunk_source chunks)
  | None => []
  end.

(** [researchWithSearch] *)
Definition researchWithSearch (e : Env) (prompt : string)
  : Async (string * list Source) :=
  log_and_rethrow "Error in research:"
    (response <- ai_generateContent e
       {| model := "gemini-3.1-pro-preview";
          contents := [Text prompt];
          tools := ["googleSearch"];
          imageAspectRatio := None;
          voiceName := None |} ;;
     ret (opt_or_else (responseText response) "No research results.",
          grounding_sources response)).

(** [summarizeUrl] *)
Definition summarizeUrl (e : Env) (url : string) (prompt : option string)
  : Async (option string) :=
  log_and_rethrow "Error summarizing URL:"
    (response <- ai_generateContent e
       {| model := "gemini-3.1-pro-preview";
          contents :=
            [Text (opt_or_else prompt "Summarize the content of this URL:"
                   ++ " " ++ url)%string];
          tools := ["urlContext"];
          imageAspectRatio := None;
          voiceName := None |} ;;
     ret (Some (opt_or_else (responseText response) "Failed to summarize URL."))).

(** [analyzeImage] *)
Definition analyzeImage (e : Env) (base64Image mime prompt : string)
  : Async (option string) :=
  log_and_rethrow "Error analyzing image:"
    (response <- ai_generateContent e
       {| model := "gemini-3.1-pro-preview";
          contents :=
            [InlineData {| data := base64Image; mimeType := mime |};
             Text (or_else prompt "Analyze this image in detail.")];
          tools := [];
          imageAspectRatio := None;
          voiceName := None |} ;;
     ret (Some (opt_or_else (responseText response) "No analysis generated."))).

(** [generateSpeech] *)
Definition generateSpeech (e : Env) (text : string) : Async (option string) :=
  log_and_rethrow "Error generating speech:"
    (response <- ai_generateContent e
       {| model := "gemini-2.5-flash-preview-tts";
          contents := [Text text];
          tools := [];
          imageAspectRatio := None;
          voiceName := Some "Kore" |} ;;
     let base64Audio :=
       match parts response with
       | p :: _ => option_map data (inlineData p)
       | [] => None
       end in
     if truthy_opt base64Audio
     then ret (Some (dataUrl "audio/wav" (opt_or_else base64Audio "")))
     else ret None).

(** [transcribeAudio] *)
Definition transcribeAudio (e : Env) (base64Audio mime : string)
  : Async (option string) :=
  log_and_rethrow "Error transcribing audio:"
    (response <- ai_generateContent e
       {| model := "gemini-3-flash-preview";
          contents :=
            [InlineData {| data := base64Audio; mimeType := mime |};
             Text "Transcribe this audio accurately."];
          tools := [];
          imageAspectRatio := None;
          voiceName := None |} ;;
     ret (Some (opt_or_else (responseText response)
                  "No transcription generated."))).

(** [editImage] *)
Definition editImage (e : Env) (base64Image mime prompt : string)
  : Async (option string) :=
  log_and_rethrow "Error editing image:"
    (response <- ai_generateContent e
       {| model := "gemini-2.5-flash-image";
          contents :=
            [InlineData {| data := base64Image; mimeType := mime |};
             Text prompt];
          tools := [];
          imageAspectRatio := None;
          voiceName := None |} ;;
     ret (first_inline_data (parts response))).

(** The [while (!operation.done)] loop.  The provider's answers to the
    successive status queries are consumed in order; when the provider stops
    answering, the loop never ends. *)
Fixpoint poll (apiKey : string) (operation : Operation)
  (replies : list (Promise Operation)) : Async Operation :=
  if done operation then ret operation
  else
    call (SetTimeout 10000) ;;;
    call (GetVideosOperation apiKey operation) ;;;
    match replies with
    | [] => await Pending
    | reply :: later =>
        refreshed <- await reply ;;
        poll apiKey refreshed later
    end.

(** The [try] block of [generateVideo]. *)
Definition generateVideo_try (e : Env) (apiKey prompt : string)
  (ratio : AspectRatio) (seed : option Media) : Async (option string) :=
  let config :=
    {| videoModel := "veo-3.1-fast-generate-preview";
       videoPrompt := prompt;
       numberOfVideos := 1;
       resolution := "720p";
       videoAspectRatio := ratio;
       image := seed |} in
  call (GenerateVideos apiKey config) ;;;
  issued <- await (generateVideos_reply e) ;;
  operation <- poll apiKey issued (getVideosOperation_replies e) ;;
  let downloadLink := videoUri operation in
  if negb (truthy_opt downloadLink) then ret None
  else
    call (Download (opt_or_else downloadLink "")
            [("x-goog-api-key", or_else apiKey "")]) ;;;
    response <- await (download_reply e) ;;
    if negb (fst response) then throw "Failed to download video"
    else
      url <- createObjectURL e (snd response) ;;
      ret (Some url).

(** [generateVideo] *)
Definition generateVideo (e : Env) (prompt : string) (ratio : AspectRatio)
  (seed : option Media) : Async (option string) :=
  let apiKey := getApiKey e in
  try_catch (generateVideo_try e apiKey prompt ratio seed)
    (fun message =>
       console_error "Error generating video:" ;;;
       if includes message "Requested entity was not found"
       then throw "API_KEY_EXPIRED"
       else throw message).

End Gemini.

(** ** The component [App] *)

Module App.

Inductive Mode : Type :=
| image_edit
| video_gen
| analyze
| speech
| transcribe
| generate_image
| research
| summarize.

(** The string a mode is in the source. *)
Definition mode_name (m : Mode) : string :=
  match m with
  | image_edit => "image-edit"
  | video_gen => "video-gen"
  | analyze => "analyze"
  | speech => "speech"
  | transcribe => "transcribe"
  | generate_image => "generate-image"
  | research => "research"
  | summarize => "summarize"
  end.

(** The [useState] cells the handlers read or write. *)
Record State : Type :=
  { mode : Mode;
    prompt : string;
    uploadedImage : option Media;
    isGenerating : bool;
    results : list Result.t;
    error : option string;
    hasKey : bool;
    aspectRatio : AspectRatio;
    recordedAudio : option Media }.

Definition setPrompt (v : string) (st : State) : State :=
  {| mode := mode st; prompt := v; uploadedImage := uploadedImage st;
     isGenerating := isGenerating st; results := results st;
     error := error st; hasKey := hasKey st; aspectRatio := aspectRatio st;
     recordedAudio := recordedAudio st |}.

Definition setIsGenerating (v : bool) (st : State) : State :=
  {| mode := mode st; prompt := prompt st; uploadedImage := uploadedImage st;
     isGenerating := v; results := results st;
     error := error st; hasKey := hasKey st; aspectRatio := aspectRatio st;
     recordedAudio := recordedAudio st |}.

Definition setResults (v : list Result.t) (st : State) : State :=
  {| mode := mode st; prompt := prompt st; uploadedImage := uploadedImage st;
     isGenerating := isGenerating st; results := v;
     error := error st; hasKey := hasKey st; aspectRatio := aspectRatio st;
     recordedAudio := recordedAudio st |}.

Definition setError (v : option string) (st : State) : State :=
  {| mode := mode st; prompt := prompt st; uploadedImage := uploadedImage st;
     isGenerating := isGenerating st; results := results st;
     error := v; hasKey := hasKey st; aspectRatio := aspectRatio st;
     recordedAudio := recordedAudio st |}.

Definition setHasKey (v : bool) (st : State) : State :=
  {| mode := mode st; prompt := prompt st; uploadedImage := uploadedImage st;
     isGenerating := isGenerating st; results := results st;
     error := error st; hasKey := v; aspectRatio := aspectRatio st;
     recordedAudio := recordedAudio st |}.

Definition setRecordedAudio (v : option Media) (st : State) : State :=
  {| mode := mode st; prompt := prompt st; uploadedImage := uploadedImage st;
     isGenerating := isGenerating st; results := results st;
     error := error st; hasKey := hasKey st; aspectRatio := aspectRatio st;
     recordedAudio := v |}.

(** [fetch] towards the history server: the request is logged, and rejects
    when the server cannot be reached. *)
Definition fetch_history {A} (e : Env) (ev : Event)
  (route : Server.Db -> Server.Db * Server.Response A)
  : Async (Server.Response A) :=
  call ev ;;;
  fun w =>
    if history_reachable e
    then
      let '(db', response) := route (db w) in
      ({| db := db'; blobs := blobs w; console := console w;
          calls := calls w |}, Resolved response)
    else (w, Rejected "Failed to fetch").

(** The mapping of a row to a list entry in [fetchHistory]; [item.id] is
    the rowid as a JavaScript number. *)
Definition of_row (item : Server.Row) : Result.t :=
  {| Result.id := Some (as_double (Server.id item));
     Result.type := Server.type item;
     Result.url := Server.data item;
     Result.prompt := Server.prompt item;
     Result.text := Server.text item;
     Result.sources := option_map JSON_parse (Server.sources item) |}.

Section FetchHistory.

Variable order_by_timestamp_desc : list Server.Row -> list Server.Row.

(** [fetchHistory] *)
Definition fetchHistory (e : Env) (st : State) : World -> World * State :=
  fun w =>
    match
      try_catch
        (response <- fetch_history e HistoryGet
           (fun d => (d, Server.get_history order_by_timestamp_desc d)) ;;
         match response with
         | Server.Status200 rows => ret (setResults (map of_row rows) st)
         | _ => ret st
         end)
        (fun _ => console_error "Failed to fetch history:" ;;; ret st) w
    with
    | (w', Resolved st') => (w', st')
    | (w', _) => (w', st)
    end.

End FetchHistory.


(** The three messages of the input checks. *)
Definition prompt_message (m : Mode) : string :=
  ("Please enter a prompt or URL for " ++ mode_name m ++ " generation.")%string.

Definition upload_message : string := "Please upload an image.".

Definition recording_message : string := "Please record some audio first.".

Definition expired_message : string :=
  "API Key expired or invalid. Please select a valid paid project key.".

Definition failed_message : string := "Generation failed. Please try again.".

Definition needs_prompt (m : Mode) : bool :=
  match m with
  | video_gen | speech | generate_image | research | summarize => true
  | _ => false
  end.

Definition needs_upload (m : Mode) : bool :=
  match m with
  | image_edit | analyze => true
  | _ => false
  end.

Definition needs_recording (m : Mode) : bool :=
  match m with
  | transcribe => true
  | _ => false
  end.

Definition present {A} (o : option A) : bool :=
  match o with Some _ => true | None => false end.

(** What the [if]/[else if] chain of [handleGenerate] leaves in
    [resultUrl], [resultText], [resultSources] and [resultType]. *)
Record Generated : Type :=
  { resultUrl : option string;
    resultText : option string;
    resultSources : option (list Source);
    resultType : string }.

Definition dispatch (e : Env) (st : State) : Async Generated :=
  match mode st, uploadedImage st, recordedAudio st with
  | image_edit, Some img, _ =>
      u <- Gemini.editImage e (data img) (mimeType img)
             (or_else (prompt st) "Enhance this image") ;;
      ret {| resultUrl := u; resultText := None; resultSources := None;
             resultType := "image" |}
  | video_gen, img, _ =>
      u <- Gemini.generateVideo e (prompt st) (aspectRatio st) img ;;
      ret {| resultUrl := u; resultText := None; resultSources := None;
             resultType := "video" |}
  | analyze, Some img, _ =>
      t <- Gemini.analyzeImage e (data img) (mimeType img) (prompt st) ;;
      ret {| resultUrl := Some (Gemini.dataUrl (mimeType img) (data img));
             resultText := t; resultSources := None;
             resultType := "analysis" |}
  | speech, _, _ =>
      u <- Gemini.generateSpeech e (prompt st) ;;
      ret {| resultUrl := u; resultText := None; resultSources := None;
             resultType := "audio" |}
  | transcribe, _, Some clip =>
      t <- Gemini.transcribeAudio e (data clip) (mimeType clip) ;;
      ret {| resultUrl := Some (Gemini.dataUrl (mimeType clip) (data clip));
             resultText := t; resultSources := None;
             resultType := "transcription" |}
  | generate_image, _, _ =>
      u <- Gemini.generateImage e (prompt st) ;;
      ret {| resultUrl := u; resultText := None; resultSources := None;
             resultType := "image" |}
  | research, _, _ =>
      r <- Gemini.researchWithSearch e (prompt st) ;;
      ret {| resultUrl := Some ""; resultText := Some (fst r);
             resultSources := Some (snd r); resultType := "research" |}
  | summarize, _, _ =>
      t <- Gemini.summarizeUrl e (prompt st) None ;;
      ret {| resultUrl := Some ""; resultText := t; resultSources := None;
             resultType := "summary" |}
  | _, _, _ =>
      ret {| resultUrl := None; resultText := None; resultSources := None;
             resultType := "image" |}
  end.

(** Lines 315-323: the data that goes to the store.  Only a [blob:] URL of
    video mode is read back and encoded. *)
Definition materialize (m : Mode) (resultUrl : option string) : Async string :=
  let persistentData := opt_or_else resultUrl "" in
  match m with
  | video_gen =>
      if truthy_opt resultUrl && startsWith persistentData "blob:"
      then
        blob <- fetch_blob persistentData ;;
        ret (readAsDataURL blob)
      else ret persistentData
  | _ => ret persistentData
  end.

(** [prompt || (mode === 'image-edit' ? ... : ...)] *)
Definition prompt_label (st : State) : string :=
  or_else (prompt st)
    match mode st with
    | image_edit => "Image Edit"
    | analyze => "Image Analysis"
    | _ => "Generation"
    end.

(** Lines 339-349: the new entry goes in front of the list. *)
Definition newResult (savedItem : Saved.t) : Result.t :=
  {| Result.id := Some (Saved.id savedItem);
     Result.type := Saved.type savedItem;
     Result.url := Saved.data savedItem;
     Result.prompt := Saved.prompt savedItem;
     Result.text := Saved.text savedItem;
     Result.sources := Saved.sources savedItem |}.

(** Lines 325-350: the POST and what follows an ok response. *)
Definition saveResult (e : Env) (body : Body.t) (st : State) : Async State :=
  response <- fetch_history e (HistoryPost body)
    (fun d => Server.post (CURRENT_TIMESTAMP e) d body) ;;
  match response with
  | Server.Status200 savedItem =>
      ret (setRecordedAudio None
             (setPrompt ""
                (setResults (newResult savedItem :: results st) st)))
  | _ => ret st
  end.

(** The body of the [try] block of [handleGenerate]. *)
Definition generation (e : Env) (st : State) : Async State :=
  if negb (truthy_opt (GEMINI_API_KEY e))
  then throw "Gemini API Key is missing. Please configure it in the Secrets panel."
  else
    g <- dispatch e st ;;
    if negb (present (resultUrl g)) && negb (truthy_opt (resultText g))
    then throw "The AI model returned no content. Please try a different prompt or check your connection."
    else if present (resultUrl g) || truthy_opt (resultText g)
    then
      persistentData <- materialize (mode st) (resultUrl g) ;;
      saveResult e
        {| Body.type := resultType g;
           Body.data := persistentData;
           Body.prompt := prompt_label st;
           Body.text := resultText g;
           Body.sources := resultSources g |} st
    else ret st.

(** [try { ... } catch (err) { ... } finally { setIsGenerating(false) }].  A
    run that never settles stays as it was when the [try] block began. *)
Definition generate_and_settle (e : Env) (st : State) (w : World)
  : World * State :=
  let st := setError None (setIsGenerating true st) in
  match generation e st w with
  | (w', Resolved st') => (w', setIsGenerating false st')
  | (w', Rejected message) =>
      (w', setIsGenerating false
             (if (message =? "API_KEY_EXPIRED")%string
              then setError (Some expired_message) (setHasKey false st)
              else setError (Some failed_message) st))
  | (w', Pending) => (w', st)
  end.

(** [handleGenerate] *)
Definition handleGenerate (e : Env) (st : State) (w : World) : World * State :=
  if negb (truthy (prompt st)) && needs_prompt (mode st)
  then (w, setError (Some (prompt_message (mode st))) st)
  else if negb (present (uploadedImage st)) && needs_upload (mode st)
  then (w, setError (Some upload_message) st)
  else if negb (present (recordedAudio st)) && needs_recording (mode st)
  then (w, setError (Some recording_message) st)
  else
    match mode st, hasKey st with
    | video_gen, false =>
        match (Gemini.openVeoKeyDialog e ;;; Gemini.checkVeoKey e) w with
        | (w', Resolved selected) =>
            let st' := setHasKey selected st in
            if negb selected then (w', st')
            else generate_and_settle e st' w'
        | (w', _) => (w', st)
        end
    | _, _ => generate_and_settle e st w
    end.

End App.

(** ** Vocabulary of the specification *)

Import App.

(** The precondition table of the mode dispatcher, read negatively. *)
Definition missing_required_input (st : State) : bool :=
  match mode st with
  | image_edit | analyze => negb (present (uploadedImage st))
  | video_gen | generate_image | research | summarize | speech =>
      negb (truthy (prompt st))
  | transcribe => negb (present (recordedAudio st))
  end.

(** The message shown for a mode whose required input is missing. *)
Definition validation_message (m : Mode) : string :=
  match m with
  | image_edit | analyze => "Please upload an image."
  | transcribe => "Please record some audio first."
  | video_gen => "Please enter a prompt or URL for video-gen generation."
  | generate_image =>
      "Please enter a prompt or URL for generate-image generation."
  | research => "Please enter a prompt or URL for research generation."
  | summarize => "Please enter a prompt or URL for summarize generation."
  | speech => "Please enter a prompt or URL for speech generation."
  end.

(** The world after the calls [evs] have been made, nothing else changed. *)
Definition logged (evs : list Event) (w : World) : World :=
  {| db := db w; blobs := blobs w; console := console w;
     calls := calls w ++ evs |}.

(** The handles passed to the status queries of a log, in order. *)
Definition status_queries (log : list Event) : list Operation :=
  flat_map (fun ev => match ev with
                      | GetVideosOperation _ operation => [operation]
                      | _ => []
                      end) log.

(** The downloads of a log: the URL requested and the headers sent. *)
Definition downloads (log : list Event) : list (string * list (string * string)) :=
  flat_map (fun ev => match ev with
                      | Download url headers => [(url, headers)]
                      | _ => []
                      end) log.

(** A provider that reports [done] after exactly [length waiting] status
    queries: the handle it issues and the handles it hands back are, in
    order, [waiting] (none of them done) and then [finished] (done). *)
Definition reports_done_after (e : Env) (waiting : list Operation)
  (finished : Operation) : Prop :=
  Forall (fun h => done h = false) waiting /\
  done finished = true /\
  generateVideos_reply e = Resolved (hd finished (waiting ++ [finished])) /\
  exists later,
    getVideosOperation_replies e
    = map Resolved (tl (waiting ++ [finished])) ++ later.

(** One round of the loop per waiting handle: a pause of ten seconds, then
    a status query that carries the handle currently held. *)
Definition poll_rounds (apiKey : string) (waiting : list Operation)
  : list Event :=
  flat_map (fun h => [SetTimeout 10000; GetVideosOperation apiKey h]) waiting.

(** Stubs for the outside world. *)
Module Stub.

Definition world : World :=
  {| db := {| Server.history := []; Server.seq := 0; Server.faulty := false |};
     blobs := []; console := []; calls := [] |}.

Definition response : ContentResponse :=
  {| parts := []; responseText := None; groundingChunks := None |}.

(** A configured key, a reachable store, a provider that answers nothing
    useful. *)
Definition env : Env :=
  {| API_KEY := None;
     GEMINI_API_KEY := Some "env-key";
     lumina_api_key := None;
     aistudio := None;
     generateContent_reply := Resolved response;
     generateVideos_reply := Pending;
     getVideosOperation_replies := [];
     download_reply := Pending;
     objectURL_id := "http://localhost:3000/0001";
     history_reachable := true;
     CURRENT_TIMESTAMP := 100 |}.

Definition with_video (issued : Promise Operation)
  (replies : list (Promise Operation)) (download : Promise (bool * Blob))
  : Env :=
  {| API_KEY := None;
     GEMINI_API_KEY := Some "env-key";
     lumina_api_key := None;
     aistudio := None;
     generateContent_reply := Pending;
     generateVideos_reply := issued;
     getVideosOperation_replies := replies;
     download_reply := download;
     objectURL_id := "http://localhost:3000/0001";
     history_reachable := true;
     CURRENT_TIMESTAMP := 100 |}.

Definition state (m : Mode) (p : string) : State :=
  {| mode := m; prompt := p; uploadedImage := None; isGenerating := false;
     results := []; error := None; hasKey := true;
     aspectRatio := Ratio_16_9; recordedAudio := None |}.

Definition waiting_operation : Operation :=
  {| name := "operations/veo-1"; done := false; videoUri := None |}.

Definition finished_operation (link : option string) : Operation :=
  {| name := "operations/veo-1"; done := true; videoUri := link |}.

Definition video_blob : Blob :=
  {| contentType := "video/mp4"; base64 := "AAAAIGZ0eXBpc29t" |}.

(** No key in the build environment; [saved] is what local storage holds
    under [lumina_api_key]. *)
Definition without_env_key (saved : option string) : Env :=
  {| API_KEY := None;
     GEMINI_API_KEY := None;
     lumina_api_key := saved;
     aistudio := None;
     generateContent_reply := Resolved response;
     generateVideos_reply := Pending;
     getVideosOperation_replies := [];
     download_reply := Pending;
     objectURL_id := "http://localhost:3000/0001";
     history_reachable := true;
     CURRENT_TIMESTAMP := 100 |}.

(** A provider whose [generateContent] answers [reply]. *)
Definition with_reply (reply : Promise ContentResponse) : Env :=
  {| API_KEY := None;
     GEMINI_API_KEY := Some "env-key";
     lumina_api_key := None;
     aistudio := None;
     generateContent_reply := reply;
     generateVideos_reply := Pending;
     getVideosOperation_replies := [];
     download_reply := Pending;
     objectURL_id := "http://localhost:3000/0001";
     history_reachable := true;
     CURRENT_TIMESTAMP := 100 |}.

(** A list entry saved under [id]. *)
Definition entry (id : Z) (p : string) : Result.t :=
  {| Result.id := Some id; Result.type := "image";
     Result.url := "data:image/png;base64,iVBORw0KGgo=";
     Result.prompt := p; Result.text := None; Result.sources := None |}.

(** The state of a session that shows [shown] in its history. *)
Definition showing (shown : list Result.t) : State :=
  {| mode := image_edit; prompt := ""; uploadedImage := None;
     isGenerating := false; results := shown; error := None; hasKey := true;
     aspectRatio := Ratio_16_9; recordedAudio := None |}.

(** A world whose database file cannot be read. *)
Definition broken_world : World :=
  {| db := {| Server.history := []; Server.seq := 7; Server.faulty := true |};
     blobs := []; console := []; calls := [] |}.

(** The server clock reads [second]. *)
Definition at_second (second : Z) : Env :=
  {| API_KEY := None;
     GEMINI_API_KEY := Some "env-key";
     lumina_api_key := None;
     aistudio := None;
     generateContent_reply := Resolved response;
     generateVideos_reply := Pending;
     getVideosOperation_replies := [];
     download_reply := Pending;
     objectURL_id := "http://localhost:3000/0001";
     history_reachable := true;
     CURRENT_TIMESTAMP := second |}.

(** An image result to be saved. *)
Definition image_body (p : string) : Body.t :=
  {| Body.type := "image";
     Body.data := "data:image/png;base64,iVBORw0KGgo=";
     Body.prompt := p;
     Body.text := None;
     Body.sources := None |}.

(** A research answer with two citations, the second without a URI. *)
Definition research_response : ContentResponse :=
  {| parts := [];
     responseText := Some "Agents and small models lead this year.";
     groundingChunks :=
       Some [{| web := Some {| webTitle := Some "Agents in 2026";
                               webUri := Some "https://example.org/agents" |} |};
             {| web := Some {| webTitle := Some "Small models";
                               webUri := None |} |}] |}.

End Stub.

(** Two worlds with the same table and the same calls to the store. *)
Definition same_store (w w' : World) : Prop :=
  db w' = db w
  /\ filter store_call (calls w') = filter store_call (calls w).

(** A computation that neither calls the store nor changes the table. *)
Definition quiet {A} (c : Async A) : Prop :=
  forall w w' r, c w = (w', r) -> same_store w w'.

(** The key check of video mode lets the run through: a key was
    selected before, or the dialog ends with one selected (outside AI Studio
    the check answers yes). *)
Definition credential_selected (e : Env) (st : State) : bool :=
  match mode st with
  | video_gen =>
      hasKey st || match aistudio e with Some false => false | _ => true end
  | _ => true
  end.

(** The run gets as far as the [try] block. *)
Definition reaches_generation (e : Env) (st : State) : bool :=
  negb (missing_required_input st) && credential_selected e st.

(** World and state at the moment the [try] block is entered. *)
Definition entering_try (e : Env) (st : State) (w : World) : World * State :=
  match mode st, hasKey st, aistudio e with
  | video_gen, false, Some selected =>
      (logged [OpenSelectKey; HasSelectedApiKey] w, setHasKey selected st)
  | video_gen, false, None => (w, setHasKey true st)
  | _, _, _ => (w, st)
  end.

(** The gateway call of a run that gets as far as the [try] block, in the
    world and the state it is made in. *)
Definition dispatched (e : Env) (st : State) (w : World)
  : World * Promise Generated :=
  dispatch e (setError None (setIsGenerating true (snd (entering_try e st w))))
    (fst (entering_try e st w)).


(** [create(result)] of the history synchronizer: the POST of
    [handleGenerate] and what follows it, on a world and a state. *)
Definition create (e : Env) (b : Body.t) (ws : World * State)
  : World * State :=
  match saveResult e b (snd ws) (fst ws) with
  | (w', Resolved st') => (w', st')
  | (w', _) => (w', snd ws)
  end.

(** [list()] of the history synchronizer: what the list holds after
    [fetchHistory]. *)
Definition list_history (order : list Server.Row -> list Server.Row)
  (e : Env) (ws : World * State) : list Result.t :=
  results (snd (fetchHistory order e (snd ws) (fst ws))).

(** What SQL promises of [ORDER BY timestamp DESC]: the same rows, no row
    before a newer one.  Rows of one timestamp may come in any order. *)
Definition orders_by_timestamp_desc
  (order : list Server.Row -> list Server.Row) : Prop :=
  forall rows,
    Permutation (order rows) rows
    /\ StronglySorted
         (fun r1 r2 => Server.timestamp r1 >= Server.timestamp r2)
         (order rows).

(** The list shows exactly what the store would list. *)
Definition mirrors (order : list Server.Row -> list Server.Row)
  (ws : World * State) : Prop :=
  results (snd ws) = map of_row (order (Server.history (db (fst ws)))).

(** The server's check of a body lets it through. *)
Definition accepted (b : Body.t) : bool :=
  truthy (Body.type b) && truthy (Body.data b) && truthy (Body.prompt b).

(** The list entry of a body saved under [id]. *)
Definition saved_as (id : Z) (b : Body.t) : Result.t :=
  {| Result.id := Some id;
     Result.type := Body.type b;
     Result.url := Body.data b;
     Result.prompt := Body.prompt b;
     Result.text := Body.text b;
     Result.sources := Body.sources b |}.

(** What AUTOINCREMENT keeps of any table: the rowids are positive and
    none is beyond the counter. *)
Definition rowids_within_counter (d : Server.Db) : Prop :=
  0 <= Server.seq d
  /\ Forall (fun r => 0 < Server.id r <= Server.seq d) (Server.history d).

(** The row the route writes for a body, under [rowid] and at second
    [now]. *)
Definition row_of (rowid now : Z) (b : Body.t) : Server.Row :=
  {| Server.id := rowid;
     Server.type := Body.type b;
     Server.data := Body.data b;
     Server.prompt := Body.prompt b;
     Server.text := Body.text b;
     Server.sources := option_map JSON_stringify (Body.sources b);
     Server.timestamp := now |}.

(** An asset reference in durable form: a data URL. *)
Definition durable (u : string) : bool := startsWith u "data:".

(** A transient asset reference: an object URL of this session. *)
Definition transient (u : string) : bool := startsWith u "blob:".

(** * The rest of the sources *)

(** ** Strings cut at a separator *)

(** [s.split(sep)] for a separator of one character: the pieces between
    the separators, one more than there are separators. *)
Fixpoint split (sep : ascii) (s : string) : list string :=
  match s with
  | EmptyString => [EmptyString]
  | String c rest =>
      if Ascii.eqb c sep then EmptyString :: split sep rest
      else
        match split sep rest with
        | piece :: pieces => String c piece :: pieces
        | [] => [String c EmptyString]
        end
  end.

(** The character [sep] does not occur in [s]. *)
Fixpoint free_of (sep : ascii) (s : string) : bool :=
  match s with
  | EmptyString => true
  | String c rest => negb (Ascii.eqb c sep) && free_of sep rest
  end.

(** [(reader.result as string).split(',')[1]], as [handleFileUpload] and
    the recorder's [onstop] take the payload of a data URL; [None] is
    [undefined]. *)
Definition payload_of (url : string) : option string :=
  nth_error (split "," url) 1.

(** [result.url.split(';')[0].split(':')[1]] of [handleUpscale]. *)
Definition mime_of (url : string) : option string :=
  nth_error (split ":" (hd EmptyString (split ";" url))) 1.

(** ** [upscaleImage] of the gateway *)

Definition upscale_instruction : string :=
  "Upscale and enhance this image. Increase resolution, sharpen details, and improve overall clarity while maintaining the original composition.".

(** [upscaleImage] *)
Definition upscaleImage (e : Env) (base64Image mime : string)
  : Async (option string) :=
  Gemini.log_and_rethrow "Error upscaling image:"
    (response <- Gemini.ai_generateContent e
       {| model := "gemini-2.5-flash-image";
          contents :=
            [InlineData {| data := base64Image; mimeType := mime |};
             Text upscale_instruction];
          tools := [];
          imageAspectRatio := Some "1:1";
          voiceName := None |} ;;
     ret (Gemini.first_inline_data (parts response))).

(** ** The other handlers of [App] *)

Definition upscale_failed_message : string :=
  "Upscaling failed. Please try again.".

Definition upscaled_text : string :=
  "Image upscaled and enhanced for better clarity.".

(** The body [handleUpscale] posts for [upscaledUrl]. *)
Definition upscaled_body (result : Result.t) (upscaledUrl : string) : Body.t :=
  {| Body.type := "image";
     Body.data := upscaledUrl;
     Body.prompt := ("Upscaled: " ++ Result.prompt result)%string;
     Body.text := Some upscaled_text;
     Body.sources := None |}.

(** The [try] block of [handleUpscale], for the two strings cut out of
    the URL. *)
Definition upscale (e : Env) (result : Result.t) (base64 mime : string)
  (st : State) : Async State :=
  upscaledUrl <- upscaleImage e base64 mime ;;
  if truthy_opt upscaledUrl
  then
    response <- fetch_history e
      (HistoryPost (upscaled_body result (opt_or_else upscaledUrl "")))
      (fun d => Server.post (CURRENT_TIMESTAMP e) d
                  (upscaled_body result (opt_or_else upscaledUrl ""))) ;;
    match response with
    | Server.Status200 savedItem =>
        ret (setResults
               ({| Result.id := Some (Saved.id savedItem);
                   Result.type := Saved.type savedItem;
                   Result.url := Saved.data savedItem;
                   Result.prompt := Saved.prompt savedItem;
                   Result.text := Saved.text savedItem;
                   Result.sources := None |} :: results st) st)
    | _ => ret st
    end
  else ret st.

(** [handleUpscale].  The answer is [None] when the URL of the result has
    no comma, or no colon before its first semicolon: [upscaleImage] is then
    called with [undefined], which a [Media] cannot hold. *)
Definition handleUpscale (e : Env) (result : Result.t) (st : State)
  (w : World) : option (World * State) :=
  if negb (Result.type result =? "image")%string
     && negb (Result.type result =? "analysis")%string
  then Some (w, st)
  else
    match payload_of (Result.url result), mime_of (Result.url result) with
    | Some base64, Some mime =>
        let st0 := setError None (setIsGenerating true st) in
        match upscale e result base64 mime st0 w with
        | (w', Resolved st') => Some (w', setIsGenerating false st')
        | (w', Rejected _) =>
            Some ({| db := db w'; blobs := blobs w';
                     console := console w' ++ ["Upscale failed:"];
                     calls := calls w' |},
                  setIsGenerating false
                    (setError (Some upscale_failed_message) st0))
        | (w', Pending) => Some (w', st0)
        end
    | _, _ => None
    end.

(** The [for] loop of [clearHistory]: one DELETE for every entry whose
    [id] is truthy, each awaited, none of the answers looked at. *)
Fixpoint clear_each (e : Env) (items : list Result.t) : Async unit :=
  match items with
  | [] => ret tt
  | item :: rest =>
      match Result.id item with
      | Some i =>
          if i =? 0 then clear_each e rest
          else
            fetch_history e (HistoryDelete i)
              (fun d => Server.delete_history d i) ;;;
            clear_each e rest
      | None => clear_each e rest
      end
  end.

(** [clearHistory]; [confirmed] is what the user answers to [confirm]. *)
Definition clearHistory (confirmed : bool) (e : Env) (st : State)
  : World -> World * State :=
  fun w =>
    if negb confirmed then (w, st)
    else
      match
        try_catch
          (clear_each e (results st) ;;; ret (setResults [] st))
          (fun _ => console_error "Failed to clear history:" ;;; ret st) w
      with
      | (w', Resolved st') => (w', st')
      | (w', _) => (w', st)
      end.

(** The cells of the settings dialog. *)
Record Settings : Type := { userApiKey : string; showSettings : bool }.

(** [localStorage.setItem('lumina_api_key', v)] and [removeItem]. *)
Definition with_lumina_api_key (v : option string) (e : Env) : Env :=
  {| API_KEY := API_KEY e;
     GEMINI_API_KEY := GEMINI_API_KEY e;
     lumina_api_key := v;
     aistudio := aistudio e;
     generateContent_reply := generateContent_reply e;
     generateVideos_reply := generateVideos_reply e;
     getVideosOperation_replies := getVideosOperation_replies e;
     download_reply := download_reply e;
     objectURL_id := objectURL_id e;
     history_reachable := history_reachable e;
     CURRENT_TIMESTAMP := CURRENT_TIMESTAMP e |}.

(** [useState(localStorage.getItem('lumina_api_key') || '')], dialog
    closed. *)
Definition initial_settings (e : Env) : Settings :=
  {| userApiKey := opt_or_else (lumina_api_key e) ""; showSettings := false |}.

(** [saveApiKey] *)
Definition saveApiKey (key : string) (e : Env) : Settings * Env :=
  ({| userApiKey := key; showSettings := false |},
   with_lumina_api_key (Some key) e).

(** The handler of "Reset to Default". *)
Definition resetApiKey (e : Env) : Settings * Env :=
  ({| userApiKey := ""; showSettings := false |},
   with_lumina_api_key None e).

(** The sidebar shows "Key Missing" (and "API Ready" otherwise). *)
Definition key_missing (e : Env) (s : Settings) : bool :=
  negb (truthy_opt (GEMINI_API_KEY e)) && negb (truthy (userApiKey s)).

Section Init.

Variable order_by_timestamp_desc : list Server.Row -> list Server.Row.

(** The effect run once on mount: [checkVeoKey], [setHasKey], then
    [fetchHistory]. *)
Definition init (e : Env) (st : State) : World -> World * State :=
  fun w =>
    match Gemini.checkVeoKey e w with
    | (w', Resolved selected) =>
        fetchHistory order_by_timestamp_desc e (setHasKey selected st) w'
    | (w', _) => (w', st)
    end.

End Init.

(** ** Tables the routes produce *)

(** What holds of the database file from [CREATE TABLE] on, as long as
    the bodies posted carry strings: identifiers are positive, grow along
    the table and none exceeds the AUTOINCREMENT counter, which stays within
    the rowids there are, and no row has an empty [type], [data] or
    [prompt]. *)
Definition table_ok (d : Server.Db) : Prop :=
  StronglySorted (fun r1 r2 => Server.id r1 < Server.id r2) (Server.history d)
  /\ Forall (fun r => 0 < Server.id r <= Server.seq d
                      /\ truthy (Server.type r) = true
                      /\ truthy (Server.data r) = true
                      /\ truthy (Server.prompt r) = true)
       (Server.history d)
  /\ 0 <= Server.seq d <= Server.max_rowid.

(** ** The gateway operations built on [generateContent] *)

Inductive ContentOperation : Type :=
| call_generateImage (prompt : string)
| call_researchWithSearch (prompt : string)
| call_summarizeUrl (url : string) (prompt : option string)
| call_analyzeImage (base64Image mime prompt : string)
| call_generateSpeech (text : string)
| call_transcribeAudio (base64Audio mime : string)
| call_editImage (base64Image mime prompt : string)
| call_upscaleImage (base64Image mime : string).

(** The operation run for its effects, its result dropped. *)
Definition run_operation (e : Env) (op : ContentOperation) : Async unit :=
  match op with
  | call_generateImage p => Gemini.generateImage e p ;;; ret tt
  | call_researchWithSearch p => Gemini.researchWithSearch e p ;;; ret tt
  | call_summarizeUrl u p => Gemini.summarizeUrl e u p ;;; ret tt
  | call_analyzeImage b m p => Gemini.analyzeImage e b m p ;;; ret tt
  | call_generateSpeech t => Gemini.generateSpeech e t ;;; ret tt
  | call_transcribeAudio b m => Gemini.transcribeAudio e b m ;;; ret tt
  | call_editImage b m p => Gemini.editImage e b m p ;;; ret tt
  | call_upscaleImage b m => upscaleImage e b m ;;; ret tt
  end.

(** The line an operation writes to the console when it fails. *)
Definition operation_label (op : ContentOperation) : string :=
  match op with
  | call_generateImage _ => "Error generating image:"
  | call_researchWithSearch _ => "Error in research:"
  | call_summarizeUrl _ _ => "Error summarizing URL:"
  | call_analyzeImage _ _ _ => "Error analyzing image:"
  | call_generateSpeech _ => "Error generating speech:"
  | call_transcribeAudio _ _ => "Error transcribing audio:"
  | call_editImage _ _ _ => "Error editing image:"
  | call_upscaleImage _ _ => "Error upscaling image:"
  end.

(** The model each operation asks for. *)
Definition operation_model (op : ContentOperation) : string :=
  match op with
  | call_generateImage _ | call_editImage _ _ _ | call_upscaleImage _ _ =>
      "gemini-2.5-flash-image"
  | call_researchWithSearch _ | call_summarizeUrl _ _
  | call_analyzeImage _ _ _ => "gemini-3.1-pro-preview"
  | call_generateSpeech _ => "gemini-2.5-flash-preview-tts"
  | call_transcribeAudio _ _ => "gemini-3-flash-preview"
  end.

(** The provider calls of a log: the key each was made with. *)
Definition provider_keys (log : list Event) : list string :=
  flat_map (fun ev => match ev with
                      | GenerateContent k _ | GenerateVideos k _
                      | GetVideosOperation k _ => [k]
                      | Download _ headers => map snd headers
                      | _ => []
                      end) log.

(** The identifiers [clearHistory] asks the store to delete: those of the
    entries whose [id] is truthy, in the order of the list. *)
Definition requested (items : list Result.t) : list Z :=
  flat_map (fun item => match Result.id item with
                        | Some i => if i =? 0 then [] else [i]
                        | None => []
                        end) items.

(** The row carries one of the identifiers [ids]. *)
Definition among (ids : list Z) (r : Server.Row) : bool :=
  existsb (Z.eqb (Server.id r)) ids.

(** The condition under which the upscale button is shown, and under
    which [handleUpscale] goes on. *)
Definition upscalable (result : Result.t) : bool :=
  ((Result.type result =? "image") || (Result.type result =? "analysis"))%string.

(** A computation that only adds calls to the log, every provider call
    among them made with the key [k]. *)
Definition uses_key {A} (k : string) (c : Async A) : Prop :=
  forall w w' r,
    c w = (w', r) ->
    exists added,
      calls w' = calls w ++ added
      /\ Forall (fun key => key = k) (provider_keys added).

(** ** The earlier copy of the component *)

(** The second copy of [App] in the sources: five modes, no check of the
    environment key, no citations. *)
Module Legacy.

Inductive Mode : Type :=
| image_edit
| video_gen
| analyze
| speech
| transcribe.

Record State : Type :=
  { mode : Mode;
    prompt : string;
    uploadedImage : option Media;
    isGenerating : bool;
    results : list Result.t;
    error : option string;
    hasKey : bool;
    aspectRatio : AspectRatio;
    recordedAudio : option Media }.

Definition setPrompt (v : string) (st : State) : State :=
  {| mode := mode st; prompt := v; uploadedImage := uploadedImage st;
     isGenerating := isGenerating st; results := results st;
     error := error st; hasKey := hasKey st; aspectRatio := aspectRatio st;
     recordedAudio := recordedAudio st |}.

Definition setIsGenerating (v : bool) (st : State) : State :=
  {| mode := mode st; prompt := prompt st; uploadedImage := uploadedImage st;
     isGenerating := v; results := results st;
     error := error st; hasKey := hasKey st; aspectRatio := aspectRatio st;
     recordedAudio := recordedAudio st |}.

Definition setResults (v : list Result.t) (st : State) : State :=
  {| mode := mode st; prompt := prompt st; uploadedImage := uploadedImage st;
     isGenerating := isGenerating st; results := v;
     error := error st; hasKey := hasKey st; aspectRatio := aspectRatio st;
     recordedAudio := recordedAudio st |}.

Definition setError (v : option string) (st : State) : State :=
  {| mode := mode st; prompt := prompt st; uploadedImage := uploadedImage st;
     isGenerating := isGenerating st; results := results st;
     error := v; hasKey := hasKey st; aspectRatio := aspectRatio st;
     recordedAudio := recordedAudio st |}.

Definition setHasKey (v : bool) (st : State) : State :=
  {| mode := mode st; prompt := prompt st; uploadedImage := uploadedImage st;
     isGenerating := isGenerating st; results := results st;
     error := error st; hasKey := v; aspectRatio := aspectRatio st;
     recordedAudio := recordedAudio st |}.

Definition setRecordedAudio (v : option Media) (st : State) : State :=
  {| mode := mode st; prompt := prompt st; uploadedImage := uploadedImage st;
     isGenerating := isGenerating st; results := results st;
     error := error st; hasKey := hasKey st; aspectRatio := aspectRatio st;
     recordedAudio := v |}.

(** [`Please enter a prompt for ${mode === 'speech' ? 'speech' : 'video'}
    generation.`] *)
Definition prompt_message (m : Mode) : string :=
  ("Please enter a prompt for "
   ++ match m with speech => "speech" | _ => "video" end
   ++ " generation.")%string.

(** The [if]/[else if] chain of the earlier [handleGenerate]. *)
Definition dispatch (e : Env) (st : State) : Async Generated :=
  match mode st, uploadedImage st, recordedAudio st with
  | image_edit, Some img, _ =>
      u <- Gemini.editImage e (data img) (mimeType img)
             (or_else (prompt st) "Enhance this image") ;;
      ret {| resultUrl := u; resultText := None; resultSources := None;
             resultType := "image" |}
  | video_gen, img, _ =>
      u <- Gemini.generateVideo e (prompt st) (aspectRatio st) img ;;
      ret {| resultUrl := u; resultText := None; resultSources := None;
             resultType := "video" |}
  | analyze, Some img, _ =>
      t <- Gemini.analyzeImage e (data img) (mimeType img) (prompt st) ;;
      ret {| resultUrl := Some (Gemini.dataUrl (mimeType img) (data img));
             resultText := t; resultSources := None;
             resultType := "analysis" |}
  | speech, _, _ =>
      u <- Gemini.generateSpeech e (prompt st) ;;
      ret {| resultUrl := u; resultText := None; resultSources := None;
             resultType := "audio" |}
  | transcribe, _, Some clip =>
      t <- Gemini.transcribeAudio e (data clip) (mimeType clip) ;;
      ret {| resultUrl := Some (Gemini.dataUrl (mimeType clip) (data clip));
             resultText := t; resultSources := None;
             resultType := "transcription" |}
  | _, _, _ =>
      ret {| resultUrl := None; resultText := None; resultSources := None;
             resultType := "image" |}
  end.

(** The data that goes to the store: in video mode any non-empty URL is
    read back and encoded. *)
Definition materialize (m : Mode) (resultUrl : option string) : Async string :=
  let persistentData := opt_or_else resultUrl "" in
  match m with
  | video_gen =>
      if truthy_opt resultUrl
      then
        blob <- fetch_blob persistentData ;;
        ret (readAsDataURL blob)
      else ret persistentData
  | _ => ret persistentData
  end.

Definition prompt_label (st : State) : string :=
  or_else (prompt st)
    match mode st with
    | image_edit => "Image Edit"
    | analyze => "Image Analysis"
    | _ => "Generation"
    end.

(** The body of the [try] block. *)
Definition generation (e : Env) (st : State) : Async State :=
  g <- dispatch e st ;;
  if truthy_opt (resultUrl g) || truthy_opt (resultText g)
  then
    persistentData <- materialize (mode st) (resultUrl g) ;;
    let body :=
      {| Body.type := resultType g;
         Body.data := persistentData;
         Body.prompt := prompt_label st;
         Body.text := resultText g;
         Body.sources := None |} in
    response <- fetch_history e (HistoryPost body)
      (fun d => Server.post (CURRENT_TIMESTAMP e) d body) ;;
    match response with
    | Server.Status200 savedItem =>
        ret (setRecordedAudio None
               (setPrompt ""
                  (setResults
                     ({| Result.id := Some (Saved.id savedItem);
                         Result.type := Saved.type savedItem;
                         Result.url := Saved.data savedItem;
                         Result.prompt := Saved.prompt savedItem;
                         Result.text := Saved.text savedItem;
                         Result.sources := None |} :: results st) st)))
    | _ => ret st
    end
  else ret st.

Definition generate_and_settle (e : Env) (st : State) (w : World)
  : World * State :=
  let st := setError None (setIsGenerating true st) in
  match generation e st w with
  | (w', Resolved st') => (w', setIsGenerating false st')
  | (w', Rejected message) =>
      (w', setIsGenerating false
             (if (message =? "API_KEY_EXPIRED")%string
              then setError (Some expired_message) (setHasKey false st)
              else setError (Some failed_message) st))
  | (w', Pending) => (w', st)
  end.

(** The earlier [handleGenerate] *)
Definition handleGenerate (e : Env) (st : State) (w : World) : World * State :=
  if negb (truthy (prompt st))
     && match mode st with video_gen | speech => true | _ => false end
  then (w, setError (Some (prompt_message (mode st))) st)
  else if negb (present (uploadedImage st))
          && match mode st with image_edit | analyze => true | _ => false end
  then (w, setError (Some upload_message) st)
  else if negb (present (recordedAudio st))
          && match mode st with transcribe => true | _ => false end
  then (w, setError (Some recording_message) st)
  else
    match mode st, hasKey st with
    | video_gen, false =>
        match (Gemini.openVeoKeyDialog e ;;; Gemini.checkVeoKey e) w with
        | (w', Resolved selected) =>
            let st' := setHasKey selected st in
            if negb selected then (w', st')
            else generate_and_settle e st' w'
        | (w', _) => (w', st)
        end
    | _, _ => generate_and_settle e st w
    end.

End Legacy.

(** * Properties *)

(** ** Mode dispatcher *)

(** C1. In every mode, [handleGenerate] with the mode's required input
    missing (no uploaded image for image-edit and analyze, an empty prompt
    for video-gen, generate-image, research, summarize and speech, no
    recording for transcribe) only sets the error to the message of that
    mode: the world is left as it was, so no call of any kind was made, to
    the provider or to the store, and nothing else of the state changes. *)
Theorem handleGenerate_missing_input :
  forall (e : Env) (st : State) (w : World),
    missing_required_input st = true ->
    handleGenerate e st w
    = (w, setError (Some (validation_message (mode st))) st).
Proof.
  intros e st w H.
  unfold handleGenerate, missing_required_input in *.
  destruct (mode st); cbn in *;
    rewrite ?andb_false_r, ?andb_true_r; cbn;
    rewrite ?H; cbn; try reflexivity;
    destruct (present (uploadedImage st)); cbn; rewrite ?H; reflexivity.
Qed.

Lemma handleGenerate_missing_input_witness :
  missing_required_input (Stub.state research "") = true /\
  handleGenerate Stub.env (Stub.state research "") Stub.world
  = (Stub.world,
     setError (Some "Please enter a prompt or URL for research generation.")
       (Stub.state research "")).
Proof.
  split; [reflexivity|].
  apply (handleGenerate_missing_input Stub.env (Stub.state research "")).
  reflexivity.
Defined.

(** ** Long-running operation poller *)

Lemma logged_nil : forall w, logged [] w = w.
Proof. intros [d b c l]; unfold logged; cbn; now rewrite app_nil_r. Qed.

Lemma logged_app :
  forall l1 l2 w, logged l2 (logged l1 w) = logged (l1 ++ l2) w.
Proof. intros; unfold logged; cbn; now rewrite app_assoc. Qed.

Lemma or_else_empty : forall s, or_else s "" = s.
Proof. intros [|c s]; reflexivity. Qed.

Lemma status_queries_app :
  forall a b, status_queries (a ++ b) = status_queries a ++ status_queries b.
Proof. intros; apply flat_map_app. Qed.

Lemma downloads_app :
  forall a b, downloads (a ++ b) = downloads a ++ downloads b.
Proof. intros; apply flat_map_app. Qed.

Lemma poll_trace :
  forall apiKey waiting finished later w,
    Forall (fun h => done h = false) waiting ->
    done finished = true ->
    Gemini.poll apiKey (hd finished (waiting ++ [finished]))
      (map Resolved (tl (waiting ++ [finished])) ++ later) w
    = (logged (poll_rounds apiKey waiting) w, Resolved finished).
Proof.
  induction waiting as [|h rest IH]; intros finished later w Hw Hf.
  - cbn. destruct later; cbn; rewrite Hf; unfold ret; now rewrite logged_nil.
  - inversion Hw as [|? ? Hh Hrest]; subst.
    specialize (IH finished later).
    cbn [app hd tl].
    assert (Hsplit : rest ++ [finished]
                     = hd finished (rest ++ [finished])
                       :: tl (rest ++ [finished]))
      by (destruct rest; reflexivity).
    rewrite Hsplit.
    cbn [map app Gemini.poll]. rewrite Hh.
    unfold bind at 1. cbn [call].
    unfold bind at 1. cbn [call].
    unfold bind at 1. unfold await at 1.
    fold (logged [SetTimeout 10000] w).
    fold (logged [GetVideosOperation apiKey h] (logged [SetTimeout 10000] w)).
    rewrite IH by assumption.
    now rewrite !logged_app.
Qed.

Lemma poll_of_provider :
  forall e apiKey waiting finished w,
    reports_done_after e waiting finished ->
    (issued <- await (generateVideos_reply e) ;;
     Gemini.poll apiKey issued (getVideosOperation_replies e)) w
    = (logged (poll_rounds apiKey waiting) w, Resolved finished).
Proof.
  intros e apiKey waiting finished w (Hw & Hf & Hissued & later & Hreplies).
  rewrite Hissued, Hreplies. unfold bind, await.
  now apply poll_trace.
Qed.

Lemma status_queries_poll_rounds :
  forall apiKey waiting, status_queries (poll_rounds apiKey waiting) = waiting.
Proof.
  induction waiting as [|h rest IH]; [reflexivity|].
  cbn. now f_equal.
Qed.

Lemma downloads_poll_rounds :
  forall apiKey waiting, downloads (poll_rounds apiKey waiting) = [].
Proof.
  induction waiting as [|h rest IH]; [reflexivity|].
  cbn. assumption.
Qed.

(** Up to the end of the loop: issuance, then one round per waiting
    handle, then whatever follows, run on the finished operation. *)
Lemma generateVideo_polled :
  forall B e apiKey request waiting finished (k : Operation -> Async B) w,
    reports_done_after e waiting finished ->
    (call (GenerateVideos apiKey request) ;;;
     issued <- await (generateVideos_reply e) ;;
     operation <- Gemini.poll apiKey issued (getVideosOperation_replies e) ;;
     k operation) w
    = k finished
        (logged (GenerateVideos apiKey request :: poll_rounds apiKey waiting) w).
Proof.
  intros B e apiKey request waiting finished k w Hp.
  pose proof (poll_of_provider e apiKey waiting finished
                (logged [GenerateVideos apiKey request] w) Hp) as Hpoll.
  unfold bind in *. cbn [call].
  fold (logged [GenerateVideos apiKey request] w).
  destruct (await (generateVideos_reply e)
              (logged [GenerateVideos apiKey request] w))
    as [w1 [issued|m|]]; try discriminate Hpoll.
  rewrite Hpoll. now rewrite logged_app.
Qed.

(** C2, as the code has it.  When the provider reports [done] after
    exactly [length waiting] status queries, [generateVideo] makes exactly
    those queries, each after a pause of ten seconds and each carrying the
    handle the previous answer gave.  When the finished operation carries a
    video URI, the log then ends with one download of that very URI, the key
    in the header [x-goog-api-key]; when it carries none, nothing is
    downloaded and the result is [null]. *)
Theorem generateVideo_polls_then_downloads :
  forall e prompt ratio seed w waiting finished,
    reports_done_after e waiting finished ->
    let run := Gemini.generateVideo e prompt ratio seed w in
    let key := Gemini.getApiKey e in
    let request :=
      {| videoModel := "veo-3.1-fast-generate-preview";
         videoPrompt := prompt; numberOfVideos := 1;
         resolution := "720p"; videoAspectRatio := ratio;
         image := seed |} in
    status_queries (calls (fst run)) = status_queries (calls w) ++ waiting
    /\ (forall link,
          videoUri finished = Some link -> truthy link = true ->
          calls (fst run)
          = calls w ++ [GenerateVideos key request] ++ poll_rounds key waiting
            ++ [Download link [("x-goog-api-key", key)]]
          /\ downloads (calls (fst run))
             = downloads (calls w) ++ [(link, [("x-goog-api-key", key)])])
    /\ (truthy_opt (videoUri finished) = false ->
        downloads (calls (fst run)) = downloads (calls w)
        /\ snd run = Resolved None).
Proof.
  intros e prompt ratio seed w waiting finished Hp run key request.
  assert (Hlog :
    if truthy_opt (videoUri finished)
    then calls (fst run)
         = calls w ++ [GenerateVideos key request] ++ poll_rounds key waiting
           ++ [Download (opt_or_else (videoUri finished) "")
                 [("x-goog-api-key", key)]]
    else calls (fst run)
         = calls w ++ [GenerateVideos key request] ++ poll_rounds key waiting
         /\ snd run = Resolved None).
  { subst run. unfold Gemini.generateVideo, Gemini.generateVideo_try,
      try_catch. fold key. fold request.
    rewrite (generateVideo_polled _ e key request waiting finished _ w Hp).
    destruct (truthy_opt (videoUri finished)); cbn [negb];
      [|split; reflexivity].
    rewrite or_else_empty. unfold bind at 1. cbn [call].
    unfold bind at 1, await at 1.
    destruct (download_reply e) as [[okay blob]|m|]; cbn.
    - destruct okay; cbn; rewrite <- !app_assoc; reflexivity.
    - destruct (includes m "Requested entity was not found"); cbn;
        rewrite <- !app_assoc; reflexivity.
    - rewrite <- !app_assoc; reflexivity. }
  assert (Hq : forall l,
             status_queries (calls w ++ [GenerateVideos key request]
                             ++ poll_rounds key waiting ++ l)
             = status_queries (calls w) ++ waiting ++ status_queries l).
  { intros l. rewrite !status_queries_app, status_queries_poll_rounds.
    reflexivity. }
  assert (Hd : forall l,
             downloads (calls w ++ [GenerateVideos key request]
                        ++ poll_rounds key waiting ++ l)
             = downloads (calls w) ++ downloads l).
  { intros l. rewrite !downloads_app, downloads_poll_rounds. reflexivity. }
  destruct (truthy_opt (videoUri finished)) eqn:Hu.
  - split; [|split].
    + rewrite Hlog, Hq. cbn. now rewrite app_nil_r.
    + intros link Hlink _. rewrite Hlink in Hlog. cbn [opt_or_else] in Hlog.
      rewrite Hlink in Hu. cbn in Hu. unfold or_else in Hlog.
      rewrite Hu in Hlog. split; [exact Hlog|]. rewrite Hlog, Hd.
      reflexivity.
    + discriminate.
  - destruct Hlog as [Hlog Hres]. split; [|split].
    + rewrite <- (app_nil_r (poll_rounds key waiting)) in Hlog.
      rewrite Hlog, Hq. cbn. now rewrite app_nil_r.
    + intros link Hlink Ht. rewrite Hlink in Hu. cbn in Hu. congruence.
    + intros _. split; [|exact Hres].
      rewrite <- (app_nil_r (poll_rounds key waiting)) in Hlog.
      rewrite Hlog, Hd. cbn. now rewrite app_nil_r.
Qed.

Lemma generateVideo_polls_then_downloads_witness :
  let e := Stub.with_video (Resolved Stub.waiting_operation)
             [Resolved Stub.waiting_operation;
              Resolved (Stub.finished_operation (Some "https://veo/v1.mp4"))]
             (Resolved (true, Stub.video_blob)) in
  let run := Gemini.generateVideo e "a kite over dunes" Ratio_16_9 None
               Stub.world in
  reports_done_after e [Stub.waiting_operation; Stub.waiting_operation]
    (Stub.finished_operation (Some "https://veo/v1.mp4"))
  /\ status_queries (calls (fst run))
     = [Stub.waiting_operation; Stub.waiting_operation]
  /\ downloads (calls (fst run))
     = [("https://veo/v1.mp4", [("x-goog-api-key", "env-key")])].
Proof.
  cbv zeta.
  assert (Hp : reports_done_after
                 (Stub.with_video (Resolved Stub.waiting_operation)
                    [Resolved Stub.waiting_operation;
                     Resolved (Stub.finished_operation
                                 (Some "https://veo/v1.mp4"))]
                    (Resolved (true, Stub.video_blob)))
                 [Stub.waiting_operation; Stub.waiting_operation]
                 (Stub.finished_operation (Some "https://veo/v1.mp4"))).
  { unfold reports_done_after. repeat split.
    - repeat constructor.
    - exists []. reflexivity. }
  split; [exact Hp|].
  destruct (generateVideo_polls_then_downloads _ "a kite over dunes"
              Ratio_16_9 None Stub.world _ _ Hp) as (Hq & Hd & _).
  split; [exact Hq|].
  destruct (Hd "https://veo/v1.mp4" eq_refl eq_refl) as [_ Hdl]. exact Hdl.
Defined.

(** C2 as stated fails when the finished operation carries no video URI:
    the provider reports [done] after one status query, the loop makes that
    one query, and no download follows. *)
Lemma generateVideo_done_without_link :
  let e := Stub.with_video (Resolved Stub.waiting_operation)
             [Resolved (Stub.finished_operation None)]
             (Resolved (true, Stub.video_blob)) in
  let run := Gemini.generateVideo e "a kite over dunes" Ratio_16_9 None
               Stub.world in
  reports_done_after e [Stub.waiting_operation] (Stub.finished_operation None)
  /\ status_queries (calls (fst run)) = [Stub.waiting_operation]
  /\ downloads (calls (fst run)) = []
  /\ snd run = Resolved None.
Proof.
  cbv zeta. split; [|split; [|split]]; try reflexivity.
  unfold reports_done_after. repeat split.
  - repeat constructor.
  - exists []. reflexivity.
Qed.

(** ** The gateway never touches the store *)

Lemma same_store_refl : forall w, same_store w w.
Proof. now split. Qed.

Lemma same_store_trans :
  forall w1 w2 w3, same_store w1 w2 -> same_store w2 w3 -> same_store w1 w3.
Proof. intros w1 w2 w3 [H1 H2] [H3 H4]; split; congruence. Qed.

Lemma quiet_ret : forall A (a : A), quiet (ret a).
Proof. intros A a w w' r H; inversion H; apply same_store_refl. Qed.

Lemma quiet_throw : forall A m, quiet (@throw A m).
Proof. intros A m w w' r H; inversion H; apply same_store_refl. Qed.

Lemma quiet_await : forall A (p : Promise A), quiet (await p).
Proof. intros A p w w' r H; inversion H; apply same_store_refl. Qed.

Lemma quiet_bind :
  forall A B (c : Async A) (k : A -> Async B),
    quiet c -> (forall a, quiet (k a)) -> quiet (bind c k).
Proof.
  intros A B c k Hc Hk w w' r H. unfold bind in H.
  destruct (c w) as [w1 [a|m|]] eqn:E.
  - eapply same_store_trans; [eapply Hc, E | eapply Hk, H].
  - inversion H; subst. eapply Hc, E.
  - inversion H; subst. eapply Hc, E.
Qed.

Lemma quiet_try_catch :
  forall A (c : Async A) (h : string -> Async A),
    quiet c -> (forall m, quiet (h m)) -> quiet (try_catch c h).
Proof.
  intros A c h Hc Hh w w' r H. unfold try_catch in H.
  destruct (c w) as [w1 [a|m|]] eqn:E.
  - inversion H; subst. eapply Hc, E.
  - eapply same_store_trans; [eapply Hc, E | eapply Hh, H].
  - inversion H; subst. eapply Hc, E.
Qed.

Lemma quiet_call : forall ev, store_call ev = false -> quiet (call ev).
Proof.
  intros ev Hev w w' r H. inversion H; subst. split; cbn; [reflexivity|].
  rewrite filter_app. cbn. rewrite Hev. apply app_nil_r.
Qed.

Lemma quiet_console_error : forall label, quiet (console_error label).
Proof. intros label w w' r H; inversion H; subst; now split. Qed.

Lemma quiet_createObjectURL : forall e b, quiet (createObjectURL e b).
Proof. intros e b w w' r H; inversion H; subst; now split. Qed.

Lemma quiet_fetch_blob : forall u, quiet (fetch_blob u).
Proof.
  intros u. unfold fetch_blob. apply quiet_bind.
  - now apply quiet_call.
  - intros _ w w' r H. destruct (lookup_blob u (blobs w));
      inversion H; apply same_store_refl.
Qed.

Create HintDb quiet.
#[local] Hint Resolve quiet_ret quiet_throw quiet_await quiet_console_error
  quiet_createObjectURL quiet_fetch_blob : quiet.

Ltac quiet_step :=
  first
    [ solve [auto with quiet]
    | apply quiet_bind
    | apply quiet_try_catch
    | apply quiet_call; reflexivity
    | match goal with
      | |- forall _, _ => intro
      | |- quiet (if ?b then _ else _) => destruct b
      | |- quiet (match ?x with _ => _ end) => destruct x
      end ].

Ltac quiet_auto := repeat quiet_step.

Lemma quiet_poll :
  forall apiKey replies operation,
    quiet (Gemini.poll apiKey operation replies).
Proof.
  induction replies as [|reply later IH]; intros operation; cbn;
    quiet_auto.
Qed.

Lemma quiet_generateVideo_try :
  forall e apiKey prompt ratio seed,
    quiet (Gemini.generateVideo_try e apiKey prompt ratio seed).
Proof.
  intros. unfold Gemini.generateVideo_try.
  quiet_auto. apply quiet_poll.
Qed.

Lemma quiet_generateVideo :
  forall e prompt ratio seed, quiet (Gemini.generateVideo e prompt ratio seed).
Proof.
  intros. unfold Gemini.generateVideo.
  apply quiet_try_catch; [apply quiet_generateVideo_try|].
  quiet_auto.
Qed.

Lemma quiet_dispatch : forall e st, quiet (dispatch e st).
Proof.
  intros e st. unfold dispatch.
  destruct (mode st), (uploadedImage st), (recordedAudio st);
    try apply quiet_ret;
    (apply quiet_bind; [|intro; apply quiet_ret]);
    try apply quiet_generateVideo;
    unfold Gemini.editImage, Gemini.analyzeImage, Gemini.generateSpeech,
      Gemini.transcribeAudio, Gemini.generateImage,
      Gemini.researchWithSearch, Gemini.summarizeUrl,
      Gemini.log_and_rethrow, Gemini.ai_generateContent;
    quiet_auto.
Qed.

Lemma quiet_materialize : forall m u, quiet (materialize m u).
Proof. intros m u. unfold materialize. cbv zeta. quiet_auto. Qed.

(** ** The shape of a run of [handleGenerate] *)

Ltac case_inputs st e :=
  destruct (mode st) eqn:?, (truthy (prompt st)) eqn:?,
    (uploadedImage st) eqn:?, (recordedAudio st) eqn:?,
    (hasKey st) eqn:?, (aistudio e) as [[|]|] eqn:?.

Lemma handleGenerate_reaches :
  forall e st w,
    reaches_generation e st = true ->
    handleGenerate e st w
    = generate_and_settle e (snd (entering_try e st w)) (fst (entering_try e st w)).
Proof.
  intros e st w H.
  unfold reaches_generation, missing_required_input, credential_selected in H.
  unfold handleGenerate, entering_try, Gemini.openVeoKeyDialog,
    Gemini.checkVeoKey.
  case_inputs st e; cbn in H; try discriminate H; cbn;
    try reflexivity;
    unfold logged; cbn; rewrite <- ?app_assoc; reflexivity.
Qed.

Lemma entering_try_frame :
  forall e st w,
    db (fst (entering_try e st w)) = db w
    /\ filter network_call (calls (fst (entering_try e st w)))
       = filter network_call (calls w)
    /\ results (snd (entering_try e st w)) = results st
    /\ mode (snd (entering_try e st w)) = mode st
    /\ prompt (snd (entering_try e st w)) = prompt st.
Proof.
  intros e st w. unfold entering_try.
  destruct (mode st) eqn:Hm, (hasKey st), (aistudio e); cbn;
    rewrite ?filter_app; cbn; rewrite ?app_nil_r; repeat split;
    assumption.
Qed.

Lemma entering_try_inputs :
  forall e st w,
    filter store_call (calls (fst (entering_try e st w)))
    = filter store_call (calls w)
    /\ aspectRatio (snd (entering_try e st w)) = aspectRatio st
    /\ uploadedImage (snd (entering_try e st w)) = uploadedImage st.
Proof.
  intros e st w. unfold entering_try.
  destruct (mode st), (hasKey st), (aistudio e); cbn;
    rewrite ?filter_app; cbn; rewrite ?app_nil_r; repeat split.
Qed.

Lemma handleGenerate_stops :
  forall e st w,
    reaches_generation e st = false ->
    db (fst (handleGenerate e st w)) = db w
    /\ filter network_call (calls (fst (handleGenerate e st w)))
       = filter network_call (calls w)
    /\ results (snd (handleGenerate e st w)) = results st.
Proof.
  intros e st w H.
  unfold reaches_generation, missing_required_input, credential_selected in H.
  unfold handleGenerate, Gemini.openVeoKeyDialog, Gemini.checkVeoKey.
  case_inputs st e; cbn in H; try discriminate H; cbn;
    rewrite ?filter_app; cbn; rewrite ?app_nil_r; repeat split.
Qed.

(** ** The environment key check *)

Lemma generate_without_env_key :
  forall e st w,
    truthy_opt (GEMINI_API_KEY e) = false ->
    generate_and_settle e st w
    = (w, setIsGenerating false
            (setError (Some failed_message)
               (setError None (setIsGenerating true st)))).
Proof.
  intros e st w H. unfold generate_and_settle, generation.
  rewrite H. reflexivity.
Qed.

(** C10. In every mode, when [process.env.GEMINI_API_KEY] is absent (or
    empty) a run of [handleGenerate] makes no call to the provider and none
    to the store, leaves the table and the list of results as they were,
    and, when it gets as far as generating, ends with the generic failure
    message; this is so whatever local storage holds, although [getApiKey]
    answers the key saved there whenever there is one. *)
Theorem handleGenerate_without_env_key :
  forall e st w,
    truthy_opt (GEMINI_API_KEY e) = false ->
    let run := handleGenerate e st w in
    filter network_call (calls (fst run)) = filter network_call (calls w)
    /\ db (fst run) = db w
    /\ results (snd run) = results st
    /\ (reaches_generation e st = true ->
        error (snd run) = Some failed_message
        /\ isGenerating (snd run) = false)
    /\ (forall k, lumina_api_key e = Some k -> truthy k = true ->
        Gemini.getApiKey e = k).
Proof.
  intros e st w H run. subst run.
  destruct (reaches_generation e st) eqn:Hr.
  - rewrite (handleGenerate_reaches e st w Hr).
    rewrite (generate_without_env_key e _ _ H). cbn [fst snd].
    destruct (entering_try_frame e st w) as (Hdb & Hcalls & Hres & _).
    repeat split; try assumption.
    intros k Hk Ht. unfold Gemini.getApiKey. rewrite Hk. cbn. rewrite Ht.
    unfold or_else. now rewrite Ht.
  - destruct (handleGenerate_stops e st w Hr) as (Hdb & Hcalls & Hres).
    repeat split; try assumption; try discriminate.
    intros k Hk Ht. unfold Gemini.getApiKey. rewrite Hk. cbn. rewrite Ht.
    unfold or_else. now rewrite Ht.
Qed.

Lemma handleGenerate_without_env_key_witness :
  let e := Stub.without_env_key (Some "user-key") in
  let run := handleGenerate e (Stub.state generate_image "a red kite")
               Stub.world in
  reaches_generation e (Stub.state generate_image "a red kite") = true
  /\ calls (fst run) = []
  /\ error (snd run) = Some "Generation failed. Please try again."
  /\ Gemini.getApiKey e = "user-key".
Proof.
  cbv zeta.
  pose proof (handleGenerate_without_env_key
                (Stub.without_env_key (Some "user-key"))
                (Stub.state generate_image "a red kite") Stub.world
                eq_refl) as (_ & _ & _ & Herr & Hkey).
  split; [reflexivity|]. split; [reflexivity|]. split.
  - apply Herr. reflexivity.
  - apply (Hkey "user-key"); reflexivity.
Defined.

(** ** Credential expiry *)

Lemma generation_dispatch_rejected :
  forall e st w w1 m,
    truthy_opt (GEMINI_API_KEY e) = true ->
    dispatch e st w = (w1, Rejected m) ->
    generation e st w = (w1, Rejected m).
Proof.
  intros e st w w1 m Hk Hd. unfold generation. rewrite Hk. cbn [negb].
  unfold bind. now rewrite Hd.
Qed.

Lemma dispatch_video :
  forall e st,
    mode st = video_gen ->
    dispatch e st
    = (u <- Gemini.generateVideo e (prompt st) (aspectRatio st)
              (uploadedImage st) ;;
       ret {| resultUrl := u; resultText := None; resultSources := None;
              resultType := "video" |}).
Proof.
  intros e st Hm. unfold dispatch. rewrite Hm.
  destruct (uploadedImage st); reflexivity.
Qed.

Lemma entering_try_elsewhere :
  forall e st w, mode st <> video_gen -> entering_try e st w = (w, st).
Proof.
  intros e st w Hm. unfold entering_try.
  destruct (mode st); try reflexivity. now elim Hm.
Qed.

Lemma entering_try_hasKey :
  forall e st w,
    reaches_generation e st = true ->
    hasKey (snd (entering_try e st w))
    = match mode st with video_gen => true | _ => hasKey st end.
Proof.
  intros e st w H.
  unfold reaches_generation, credential_selected in H.
  apply andb_true_iff in H as [_ H]. unfold entering_try.
  destruct (mode st), (hasKey st) eqn:Hk, (aistudio e) as [[|]|];
    cbn in H |- *; rewrite ?Hk; try reflexivity; discriminate H.
Qed.

(** Outside video mode the call dispatched is one [generateContent]
    operation, which hands on the provider's message. *)
Lemma dispatch_rejected :
  forall e st w m,
    mode st <> video_gen ->
    missing_required_input st = false ->
    generateContent_reply e = Rejected m ->
    snd (dispatch e st w) = Rejected m.
Proof.
  intros e st w m Hm Hin Hr. unfold missing_required_input in Hin.
  unfold dispatch, Gemini.editImage, Gemini.analyzeImage,
    Gemini.generateSpeech, Gemini.transcribeAudio, Gemini.generateImage,
    Gemini.researchWithSearch, Gemini.summarizeUrl, Gemini.log_and_rethrow,
    Gemini.ai_generateContent, try_catch, bind, call, await, console_error,
    ret, throw.
  rewrite Hr.
  destruct (mode st); try (now elim Hm);
    destruct (uploadedImage st), (recordedAudio st);
    try discriminate Hin; reflexivity.
Qed.

(** C5, as the code has it.  For a run of [handleGenerate] that gets as
    far as generating, in any mode: when the gateway call it dispatches
    fails, nothing is persisted and no call goes to the store; when the
    message is [API_KEY_EXPIRED] the key flag is cleared and the expiry
    message shown, and for any other message the generic message is shown and
    the flag stays as it was when generation began.  In video mode the call
    fails with [API_KEY_EXPIRED] whenever the [try] block of [generateVideo]
    fails with a message that contains "Requested entity was not found",
    and with the message of the [try] block otherwise.  In the other modes,
    and for each of the eight operations built on [generateContent], the
    provider's message is handed on unchanged. *)
Theorem api_key_expired_handling :
  forall e st w,
    reaches_generation e st = true ->
    truthy_opt (GEMINI_API_KEY e) = true ->
    let run := handleGenerate e st w in
    (forall m,
        snd (dispatched e st w) = Rejected m ->
        results (snd run) = results st
        /\ db (fst run) = db w
        /\ filter store_call (calls (fst run)) = filter store_call (calls w)
        /\ isGenerating (snd run) = false
        /\ (m = "API_KEY_EXPIRED" ->
            hasKey (snd run) = false
            /\ error (snd run) = Some expired_message)
        /\ (m <> "API_KEY_EXPIRED" ->
            hasKey (snd run)
            = match mode st with video_gen => true | _ => hasKey st end
            /\ error (snd run) = Some failed_message))
    /\ (mode st = video_gen ->
        forall w1 m,
          Gemini.generateVideo_try e (Gemini.getApiKey e) (prompt st)
            (aspectRatio st) (uploadedImage st) (fst (entering_try e st w))
          = (w1, Rejected m) ->
          snd (dispatched e st w)
          = Rejected (if includes m "Requested entity was not found"
                      then "API_KEY_EXPIRED" else m))
    /\ (mode st <> video_gen ->
        forall m,
          generateContent_reply e = Rejected m ->
          snd (dispatched e st w) = Rejected m)
    /\ (forall op w0 m,
          generateContent_reply e = Rejected m ->
          snd (run_operation e op w0) = Rejected m).
Proof.
  intros e st w Hr He run. subst run.
  destruct (entering_try_frame e st w) as (Fdb & _ & Fres & Fmode & Fprompt).
  destruct (entering_try_inputs e st w) as (Fcalls & Fratio & Fimage).
  pose proof (entering_try_hasKey e st w Hr) as Fkey.
  split; [|split; [|split]].
  - intros m Hd.
    rewrite (handleGenerate_reaches e st w Hr).
    unfold dispatched in Hd.
    set (w0 := fst (entering_try e st w)) in *.
    set (st1 := snd (entering_try e st w)) in *.
    set (st0 := setError None (setIsGenerating true st1)) in *.
    destruct (dispatch e st0 w0) as [w1 p] eqn:Hdispatch.
    cbn [snd] in Hd. subst p.
    destruct (quiet_dispatch e st0 w0 w1 _ Hdispatch) as [Hdb Hcalls].
    unfold generate_and_settle. fold st0.
    rewrite (generation_dispatch_rejected e st0 w0 w1 m He Hdispatch).
    cbn [fst snd].
    split; [destruct (m =? "API_KEY_EXPIRED")%string; cbn; exact Fres|].
    split; [congruence|]. split; [congruence|].
    split; [destruct (m =? "API_KEY_EXPIRED")%string; reflexivity|].
    split.
    + intros ->. cbn. split; reflexivity.
    + intros Hm. apply String.eqb_neq in Hm. rewrite Hm. cbn.
      split; [exact Fkey|reflexivity].
  - intros Hm w1 m Htry. unfold dispatched.
    rewrite dispatch_video
      by (cbn [mode setError setIsGenerating]; congruence).
    cbn [prompt aspectRatio uploadedImage setError setIsGenerating].
    rewrite Fprompt, Fratio, Fimage.
    unfold bind, Gemini.generateVideo, try_catch. rewrite Htry.
    unfold bind, console_error.
    destruct (includes m "Requested entity was not found"); reflexivity.
  - intros Hm m Hreply. unfold dispatched.
    rewrite (entering_try_elsewhere e st w Hm). cbn [fst snd].
    apply andb_true_iff in Hr as [Hin _]. apply negb_true_iff in Hin.
    exact (dispatch_rejected e st w m Hm Hin Hreply).
  - intros op w0 m Hreply.
    destruct op; cbn;
      unfold Gemini.generateImage, Gemini.researchWithSearch,
        Gemini.summarizeUrl, Gemini.analyzeImage, Gemini.generateSpeech,
        Gemini.transcribeAudio, Gemini.editImage, upscaleImage,
        Gemini.log_and_rethrow, Gemini.ai_generateContent, try_catch, bind,
        call, await, console_error, ret, throw;
      rewrite Hreply; reflexivity.
Qed.

Lemma api_key_expired_handling_witness :
  let e := Stub.with_video (Rejected "404 Requested entity was not found.")
             [] Pending in
  let run := handleGenerate e (Stub.state video_gen "a kite over dunes")
               Stub.world in
  let e' := Stub.with_reply (Rejected "API_KEY_EXPIRED") in
  let run' := handleGenerate e' (Stub.state generate_image "a red kite")
                Stub.world in
  snd (dispatched e (Stub.state video_gen "a kite over dunes") Stub.world)
  = Rejected "API_KEY_EXPIRED"
  /\ hasKey (snd run) = false
  /\ error (snd run)
     = Some "API Key expired or invalid. Please select a valid paid project key."
  /\ results (snd run) = []
  /\ db (fst run) = db Stub.world
  /\ filter store_call (calls (fst run)) = []
  /\ hasKey (snd run') = false
  /\ error (snd run') = error (snd run).
Proof.
  cbv zeta.
  destruct (api_key_expired_handling
              (Stub.with_video (Rejected "404 Requested entity was not found.")
                 [] Pending)
              (Stub.state video_gen "a kite over dunes") Stub.world
              eq_refl eq_refl) as (Hhandler & Hvideo & _).
  pose proof (Hvideo eq_refl _ "404 Requested entity was not found." eq_refl)
    as Hd.
  split; [exact Hd|].
  destruct (Hhandler "API_KEY_EXPIRED" Hd)
    as (Hres & Hdb & Hcalls & _ & Hexpired & _).
  destruct (Hexpired eq_refl) as [Hkey Herr].
  destruct (api_key_expired_handling
              (Stub.with_reply (Rejected "API_KEY_EXPIRED"))
              (Stub.state generate_image "a red kite") Stub.world
              eq_refl eq_refl) as (Hhandler' & _ & Hother & _).
  assert (Hm : mode (Stub.state generate_image "a red kite") <> video_gen)
    by discriminate.
  destruct (Hhandler' "API_KEY_EXPIRED" (Hother Hm _ eq_refl))
    as (_ & _ & _ & _ & Hexpired' & _).
  destruct (Hexpired' eq_refl) as [Hkey' Herr'].
  split; [exact Hkey|]. split; [exact Herr|]. split; [exact Hres|].
  split; [exact Hdb|]. split; [exact Hcalls|]. split; [exact Hkey'|].
  now rewrite Herr', Herr.
Defined.

(** C5 as stated fails outside video mode: image generation answered by
    the provider with "Requested entity was not found." ends with the
    generic message and the key flag still set. *)
Lemma image_key_rejection_is_generic :
  let e := Stub.with_reply (Rejected "404 Requested entity was not found.") in
  let run := handleGenerate e (Stub.state generate_image "a red kite")
               Stub.world in
  snd (Gemini.generateImage e "a red kite" Stub.world)
  = Rejected "404 Requested entity was not found."
  /\ hasKey (snd run) = true
  /\ error (snd run) = Some "Generation failed. Please try again."
  /\ error (snd run) <> Some expired_message.
Proof.
  cbv zeta. repeat split. discriminate.
Qed.


(** ** History synchronizer: delete and list *)

Lemma filter_all :
  forall A (f : A -> bool) (l : list A),
    (forall x, In x l -> f x = true) -> filter f l = l.
Proof.
  induction l as [|x l IH]; intros H; cbn; [reflexivity|].
  rewrite (H x (or_introl eq_refl)). f_equal. apply IH.
  intros y Hy. apply H. now right.
Qed.





(** C9, as the code has it.  [fetchHistory] never changes the table.  When
    the request is rejected the state is left as it was and one line goes to
    the console; when the store answers with a status that is not ok the
    state is left as it was and nothing is written anywhere; when it answers
    ok the list becomes the rows answered, whatever the list held before. *)
Theorem fetchHistory_outcomes :
  forall order e st w,
    let run := fetchHistory order e st w in
    db (fst run) = db w
    /\ (history_reachable e = false ->
        snd run = st
        /\ console (fst run) = console w ++ ["Failed to fetch history:"])
    /\ (history_reachable e = true -> Server.faulty (db w) = true ->
        snd run = st /\ console (fst run) = console w)
    /\ (history_reachable e = true -> Server.faulty (db w) = false ->
        snd run
        = setResults (map of_row (order (Server.history (db w)))) st).
Proof.
  intros order e st w run. subst run.
  unfold fetchHistory, try_catch, fetch_history, bind, call,
    Server.get_history.
  destruct (history_reachable e), (Server.faulty (db w)) eqn:Hf; cbn;
    rewrite ?Hf; cbn;
    repeat split; intros; try discriminate; reflexivity.
Qed.

Lemma fetchHistory_outcomes_witness :
  let st := Stub.showing [Stub.entry 5 "stale"] in
  let run := fetchHistory Server.sqlite_order_by_timestamp_desc Stub.env st
               Stub.world in
  history_reachable Stub.env = true
  /\ Server.faulty (db Stub.world) = false
  /\ results (snd run) = [].
Proof.
  cbv zeta. split; [reflexivity|]. split; [reflexivity|].
  destruct (fetchHistory_outcomes Server.sqlite_order_by_timestamp_desc
              Stub.env (Stub.showing [Stub.entry 5 "stale"]) Stub.world)
    as (_ & _ & _ & Hok).
  rewrite Hok; reflexivity.
Defined.

(** C9 as stated fails when the store answers 500: the list is kept, and no
    error is surfaced, neither in the error field nor on the console. *)
Lemma fetchHistory_silent_on_500 :
  let st := Stub.showing [Stub.entry 5 "kept"] in
  let run := fetchHistory Server.sqlite_order_by_timestamp_desc Stub.env st
               Stub.broken_world in
  Server.get_history Server.sqlite_order_by_timestamp_desc
    (db Stub.broken_world) = Server.Status500
  /\ results (snd run) = [Stub.entry 5 "kept"]
  /\ error (snd run) = None
  /\ console (fst run) = [].
Proof.
  cbv zeta. repeat split.
Qed.

(** ** History synchronizer: create and the order of the list *)

Lemma as_double_exact :
  forall n, Z.abs n <= 9007199254740992 -> as_double n = n.
Proof.
  intros n H. unfold as_double.
  destruct (Z.abs n <=? 9007199254740992) eqn:E; [reflexivity|].
  apply Z.leb_gt in E. lia.
Qed.

Lemma of_row_saved :
  forall now id b, of_row (row_of id now b) = saved_as (as_double id) b.
Proof.
  intros now id b. unfold of_row, saved_as, row_of. cbn.
  destruct (Body.sources b); reflexivity.
Qed.

Lemma post_history_accepted :
  forall now d b,
    accepted b = true -> Server.faulty d = false ->
    Server.seq d < Server.max_rowid ->
    Server.post_history now d b
    = ({| Server.history :=
            Server.history d ++ [row_of (Server.seq d + 1) now b];
          Server.seq := Server.seq d + 1;
          Server.faulty := false |},
       Server.Status200
         {| Saved.id := as_double (Server.seq d + 1);
            Saved.type := Body.type b;
            Saved.data := Body.data b;
            Saved.prompt := Body.prompt b;
            Saved.text := Body.text b;
            Saved.sources := Body.sources b |}).
Proof.
  intros now d b Ha Hf Hs. unfold accepted in Ha.
  apply andb_true_iff in Ha as [Ha Hp]. apply andb_true_iff in Ha as [Ht Hd].
  unfold Server.post_history. rewrite Ht, Hd, Hp, Hf.
  destruct (Server.max_rowid <=? Server.seq d) eqn:E;
    [apply Z.leb_le in E; lia|].
  reflexivity.
Qed.

Lemma post_accepted :
  forall now d b,
    Server.within_limit b = true ->
    accepted b = true -> Server.faulty d = false ->
    Server.seq d < Server.max_rowid ->
    Server.post now d b
    = ({| Server.history :=
            Server.history d ++ [row_of (Server.seq d + 1) now b];
          Server.seq := Server.seq d + 1;
          Server.faulty := false |},
       Server.Status200
         {| Saved.id := as_double (Server.seq d + 1);
            Saved.type := Body.type b;
            Saved.data := Body.data b;
            Saved.prompt := Body.prompt b;
            Saved.text := Body.text b;
            Saved.sources := Body.sources b |}).
Proof.
  intros now d b Hl Ha Hf Hs. unfold Server.post. rewrite Hl.
  now apply post_history_accepted.
Qed.

Lemma post_over_limit :
  forall now d b,
    Server.within_limit b = false ->
    Server.post now d b = (d, Server.Status413).
Proof. intros now d b Hl. unfold Server.post. now rewrite Hl. Qed.

(** One creation the server accepts: a row at the end of the table, the
    entry in front of the list. *)
Lemma create_accepted :
  forall e b w st,
    history_reachable e = true ->
    Server.faulty (db w) = false ->
    Server.seq (db w) < Server.max_rowid ->
    accepted b = true ->
    Server.within_limit b = true ->
    create e b (w, st)
    = ({| db := {| Server.history :=
                     Server.history (db w)
                     ++ [row_of (Server.seq (db w) + 1) (CURRENT_TIMESTAMP e) b];
                   Server.seq := Server.seq (db w) + 1;
                   Server.faulty := false |};
          blobs := blobs w; console := console w;
          calls := calls w ++ [HistoryPost b] |},
       setRecordedAudio None
         (setPrompt ""
            (setResults
               (saved_as (as_double (Server.seq (db w) + 1)) b :: results st)
               st))).
Proof.
  intros e b w st He Hf Hs Ha Hl.
  unfold create, saveResult, fetch_history, bind, call. cbn [fst snd].
  rewrite He. cbv beta. cbn [db].
  rewrite !(post_accepted _ _ _ Hl Ha Hf Hs).
  reflexivity.
Qed.

Lemma fetchHistory_answered :
  forall order e st w,
    history_reachable e = true ->
    Server.faulty (db w) = false ->
    fetchHistory order e st w
    = (logged [HistoryGet] w,
       setResults (map of_row (order (Server.history (db w)))) st).
Proof.
  intros order e st w He Hf.
  unfold fetchHistory, try_catch, fetch_history, bind, call,
    Server.get_history.
  rewrite He. cbn. rewrite Hf. reflexivity.
Qed.

Lemma sorter_insert_permutation :
  forall r l, Permutation (Server.sorter_insert r l) (r :: l).
Proof.
  induction l as [|x l IH]; cbn; [reflexivity|].
  destruct (Server.timestamp x <=? Server.timestamp r); [reflexivity|].
  eapply Permutation_trans; [apply perm_skip, IH | apply perm_swap].
Qed.

Lemma sorter_insert_sorted :
  forall r l,
    StronglySorted
      (fun r1 r2 => Server.timestamp r1 >= Server.timestamp r2) l ->
    StronglySorted
      (fun r1 r2 => Server.timestamp r1 >= Server.timestamp r2)
      (Server.sorter_insert r l).
Proof.
  induction l as [|x l IH]; intros Hs; cbn.
  - repeat constructor.
  - inversion Hs as [|? ? Hl Hx]; subst.
    destruct (Server.timestamp x <=? Server.timestamp r) eqn:Hc.
    + apply Z.leb_le in Hc. constructor; [assumption|].
      constructor; [lia|].
      eapply Forall_impl; [|exact Hx]. cbn. intros; lia.
    + apply Z.leb_gt in Hc. constructor; [now apply IH|].
      apply Forall_forall. intros y Hy.
      apply (Permutation_in _ (sorter_insert_permutation r l)) in Hy.
      destruct Hy as [<-|Hy]; [lia|].
      rewrite Forall_forall in Hx. now apply Hx.
Qed.

(** SQLite's sorter keeps what SQL promises. *)
Lemma sqlite_orders_by_timestamp_desc :
  orders_by_timestamp_desc Server.sqlite_order_by_timestamp_desc.
Proof.
  intros rows. induction rows as [|r rows [IHp IHs]]; cbn.
  - split; constructor.
  - split.
    + eapply Permutation_trans; [apply sorter_insert_permutation|].
      now apply perm_skip.
    + now apply sorter_insert_sorted.
Qed.

(** Rows of one second are listed in the order of the table. *)
Lemma sqlite_same_second :
  forall t block,
    Forall (fun y => Server.timestamp y = t) block ->
    Server.sqlite_order_by_timestamp_desc block = block.
Proof.
  intros t block H. unfold Server.sqlite_order_by_timestamp_desc.
  induction block as [|m block IH]; [reflexivity|].
  inversion H as [|? ? Hm Hb]; subst. cbn [fold_right]. rewrite (IH Hb).
  destruct block as [|m' block]; [reflexivity|].
  inversion Hb as [|? ? Hm' _]; subst. cbn. rewrite Hm'.
  now rewrite Z.leb_refl.
Qed.

Lemma sorter_insert_past_block :
  forall x t block later,
    Forall (fun y => Server.timestamp y = t) block ->
    Server.timestamp x < t ->
    Server.sorter_insert x (block ++ later)
    = block ++ Server.sorter_insert x later.
Proof.
  intros x t block later H Hx.
  induction H as [|m block Hm _ IH]; [reflexivity|].
  cbn. rewrite Hm.
  destruct (t <=? Server.timestamp x) eqn:E; [apply Z.leb_le in E; lia|].
  now rewrite IH.
Qed.

(** A row that the sorter moves into a listing never lands inside a run of
    rows of one second. *)
Lemma sorter_insert_keeps_block :
  forall x t m block,
    Forall (fun y => Server.timestamp y = t) (m :: block) ->
    forall newer older,
    exists newer' older',
      Server.sorter_insert x (newer ++ (m :: block) ++ older)
      = newer' ++ (m :: block) ++ older'
      /\ forall y, In y newer' -> y = x \/ In y newer.
Proof.
  intros x t m block Hb. induction newer as [|y newer IH]; intros older.
  - cbn [app]. inversion Hb as [|? ? Hm Hblock]; subst.
    destruct (Server.timestamp m <=? Server.timestamp x) eqn:E.
    + exists [x], older. cbn. rewrite E. split; [reflexivity|].
      intros y [<-|[]]. now left.
    + exists [], (Server.sorter_insert x older). split.
      * cbn. rewrite E. f_equal.
        apply (sorter_insert_past_block x (Server.timestamp m));
          [assumption | apply Z.leb_gt in E; lia].
      * intros y [].
  - change ((y :: newer) ++ (m :: block) ++ older)
      with (y :: (newer ++ (m :: block) ++ older)).
    cbn [Server.sorter_insert].
    destruct (Server.timestamp y <=? Server.timestamp x).
    + exists (x :: y :: newer), older. split; [reflexivity|].
      intros z [<-|Hz]; [now left|now right].
    + destruct (IH older) as (newer' & older' & Heq & Hin).
      exists (y :: newer'), older'. split; [now rewrite Heq|].
      intros z [<-|Hz]; [right; now left|].
      destruct (Hin z Hz) as [->|Hz']; [now left|right; now right].
Qed.

(** Rows inserted last within one second are listed next to one another,
    oldest first, wherever the earlier rows go. *)
Lemma sqlite_keeps_block :
  forall old t m block,
    Forall (fun y => Server.timestamp y = t) (m :: block) ->
    exists newer older,
      Server.sqlite_order_by_timestamp_desc (old ++ m :: block)
      = newer ++ (m :: block) ++ older
      /\ forall y, In y newer -> In y old.
Proof.
  intros old t m block Hb. unfold Server.sqlite_order_by_timestamp_desc.
  rewrite fold_right_app.
  fold (Server.sqlite_order_by_timestamp_desc (m :: block)).
  rewrite (sqlite_same_second t _ Hb).
  induction old as [|x old (newer & older & Heq & Hin)].
  - exists [], []. cbn [fold_right app]. split; [now rewrite app_nil_r|].
    intros y [].
  - cbn [fold_right]. rewrite Heq.
    destruct (sorter_insert_keeps_block x t m block Hb newer older)
      as (newer' & older' & Heq' & Hin').
    exists newer', older'. split; [exact Heq'|].
    intros y Hy. destruct (Hin' y Hy) as [->|Hy']; [now left|].
    right. now apply Hin.
Qed.

(** A row newer than every other is listed first. *)
Lemma sqlite_newest_first :
  forall old r,
    Forall (fun x => Server.timestamp x < Server.timestamp r) old ->
    Server.sqlite_order_by_timestamp_desc (old ++ [r])
    = r :: Server.sqlite_order_by_timestamp_desc old.
Proof.
  intros old r H. unfold Server.sqlite_order_by_timestamp_desc.
  rewrite fold_right_app. cbn [fold_right Server.sorter_insert].
  induction H as [|x old Hx _ IH]; [reflexivity|].
  cbn [fold_right]. rewrite IH. cbn.
  destruct (Server.timestamp r <=? Server.timestamp x) eqn:E;
    [apply Z.leb_le in E; lia|reflexivity].
Qed.

(** C3, evaluated on the code.  Three bodies the server accepts, created
    within one second: the list shows C, B, A in front, as each entry is
    prepended; the table holds the three rows last, with one timestamp, and
    the query, which orders by timestamp alone, lists them next to one
    another oldest first.  So [list()] does not return C, B, A, and the list
    no longer mirrors the store. *)
Theorem same_second_creations_listed_oldest_first :
  forall eA eB eC eL A B C w st,
    history_reachable eA = true ->
    history_reachable eB = true ->
    history_reachable eC = true ->
    history_reachable eL = true ->
    accepted A = true -> Server.within_limit A = true ->
    accepted B = true -> Server.within_limit B = true ->
    accepted C = true -> Server.within_limit C = true ->
    rowids_within_counter (db w) ->
    Server.faulty (db w) = false ->
    Server.seq (db w) + 3 <= 9007199254740992 ->
    CURRENT_TIMESTAMP eB = CURRENT_TIMESTAMP eA ->
    CURRENT_TIMESTAMP eC = CURRENT_TIMESTAMP eA ->
    let n := Server.seq (db w) in
    let s3 := create eC C (create eB B (create eA A (w, st))) in
    let shown :=
      [saved_as (n + 3) C; saved_as (n + 2) B; saved_as (n + 1) A] in
    let listed :=
      [saved_as (n + 1) A; saved_as (n + 2) B; saved_as (n + 3) C] in
    results (snd s3) = shown ++ results st
    /\ (exists newer older,
          list_history Server.sqlite_order_by_timestamp_desc eL s3
          = newer ++ listed ++ older)
    /\ (Server.history (db w) = [] ->
        list_history Server.sqlite_order_by_timestamp_desc eL s3 = listed)
    /\ (forall rest,
          list_history Server.sqlite_order_by_timestamp_desc eL s3
          <> shown ++ rest)
    /\ ~ mirrors Server.sqlite_order_by_timestamp_desc s3.
Proof.
  intros eA eB eC eL A B C w st HA HB HC HL aA lA aB lB aC lC Hok Hf Hn tB tC
    n s3 shown listed.
  destruct Hok as (Hseq & Hrows).
  assert (Hmax : 9007199254740992 < Server.max_rowid) by reflexivity.
  assert (H1 : Server.seq (db w) < Server.max_rowid) by lia.
  assert (H2 : Server.seq (db w) + 1 < Server.max_rowid) by lia.
  assert (H3 : Server.seq (db w) + 1 + 1 < Server.max_rowid) by lia.
  assert (Hs3 : s3 = create eC C (create eB B (create eA A (w, st))))
    by reflexivity.
  do 3 (rewrite create_accepted in Hs3
          by first [assumption | reflexivity | cbn [db Server.seq]; lia]).
  cbn [db Server.history Server.seq results setResults setPrompt
       setRecordedAudio] in Hs3.
  rewrite !as_double_exact in Hs3 by lia.
  rewrite tB, tC in Hs3.
  replace (Server.seq (db w) + 1 + 1 + 1) with (n + 3) in Hs3 by (subst n; lia).
  replace (Server.seq (db w) + 1 + 1) with (n + 2) in Hs3 by (subst n; lia).
  fold n in Hs3.
  rewrite <- !app_assoc in Hs3. cbn [app] in Hs3.
  set (t := CURRENT_TIMESTAMP eA) in *.
  set (old := Server.history (db w)) in *.
  assert (Hlist :
    list_history Server.sqlite_order_by_timestamp_desc eL s3
    = map of_row
        (Server.sqlite_order_by_timestamp_desc
           (old ++ [row_of (n + 1) t A; row_of (n + 2) t B;
                    row_of (n + 3) t C]))).
  { unfold list_history. rewrite Hs3. cbn [fst snd].
    rewrite fetchHistory_answered by (assumption || reflexivity).
    reflexivity. }
  assert (Hblock : Forall (fun y => Server.timestamp y = t)
                     [row_of (n + 1) t A; row_of (n + 2) t B;
                      row_of (n + 3) t C])
    by (repeat constructor).
  assert (Hrow : forall k b, Z.abs (n + k) <= 9007199254740992 ->
                             of_row (row_of (n + k) t b) = saved_as (n + k) b).
  { intros k b Hk. now rewrite of_row_saved, as_double_exact. }
  assert (Himg : map of_row [row_of (n + 1) t A; row_of (n + 2) t B;
                             row_of (n + 3) t C] = listed).
  { cbn [map]. rewrite !Hrow by (subst n; lia). reflexivity. }
  destruct (sqlite_keeps_block old t _ _ Hblock)
    as (newer & older & Heq & Hin).
  assert (Hhead : forall rest,
             list_history Server.sqlite_order_by_timestamp_desc eL s3
             <> shown ++ rest).
  { intros rest Habs. rewrite Hlist, Heq, !map_app, Himg in Habs.
    destruct newer as [|y newer].
    - cbn in Habs. injection Habs as Hid _. lia.
    - cbn in Habs. injection Habs as Hid _.
      assert (Hy : In y old) by (apply Hin; now left).
      rewrite Forall_forall in Hrows. pose proof (Hrows y Hy) as Hrange.
      rewrite as_double_exact in Hid by (subst n; lia).
      subst n. lia. }
  split; [rewrite Hs3; reflexivity|].
  split; [exists (map of_row newer), (map of_row older);
          now rewrite Hlist, Heq, !map_app, Himg|].
  split; [|split; [exact Hhead|]].
  - intros Hempty. rewrite Hlist, Hempty. cbn [app].
    now rewrite (sqlite_same_second t _ Hblock).
  - intros Hm. apply (Hhead (results st)). rewrite Hlist.
    unfold mirrors in Hm. rewrite Hs3 in Hm. cbn [fst snd db Server.history
      results setResults setPrompt setRecordedAudio] in Hm.
    now rewrite <- Hm.
Qed.

Lemma same_second_creations_listed_oldest_first_witness :
  let s3 := create (Stub.at_second 100) (Stub.image_body "C")
              (create (Stub.at_second 100) (Stub.image_body "B")
                 (create (Stub.at_second 100) (Stub.image_body "A")
                    (Stub.world, Stub.showing []))) in
  rowids_within_counter (db Stub.world)
  /\ results (snd s3)
     = [saved_as 3 (Stub.image_body "C"); saved_as 2 (Stub.image_body "B");
        saved_as 1 (Stub.image_body "A")]
  /\ list_history Server.sqlite_order_by_timestamp_desc Stub.env s3
     = [saved_as 1 (Stub.image_body "A"); saved_as 2 (Stub.image_body "B");
        saved_as 3 (Stub.image_body "C")]
  /\ ~ mirrors Server.sqlite_order_by_timestamp_desc s3.
Proof.
  cbv zeta.
  assert (Hok : rowids_within_counter (db Stub.world)).
  { unfold rowids_within_counter, Stub.world.
    cbn [db Server.history Server.seq]. split; [lia|constructor]. }
  split; [exact Hok|].
  destruct (same_second_creations_listed_oldest_first
              (Stub.at_second 100) (Stub.at_second 100) (Stub.at_second 100)
              Stub.env (Stub.image_body "A") (Stub.image_body "B")
              (Stub.image_body "C") Stub.world (Stub.showing [])
              eq_refl eq_refl eq_refl eq_refl
              eq_refl eq_refl eq_refl eq_refl eq_refl eq_refl
              Hok eq_refl ltac:(cbn; lia) eq_refl eq_refl)
    as (Hshown & _ & Hlisted & _ & Hmirror).
  split; [exact Hshown|]. split; [exact (Hlisted eq_refl) | exact Hmirror].
Defined.

(** ** Text-only results and the store's check of the body *)

Lemma post_history_empty_data :
  forall now d b,
    Body.data b = "" -> Server.post_history now d b = (d, Server.Status400).
Proof.
  intros now d b H. unfold Server.post_history. rewrite H. cbn.
  now rewrite orb_true_r.
Qed.

Lemma create_empty_data :
  forall e b ws,
    Body.data b = "" ->
    db (fst (create e b ws)) = db (fst ws)
    /\ snd (create e b ws) = snd ws.
Proof.
  intros e b [w st] H. unfold create, saveResult, fetch_history, bind, call.
  cbn [fst snd]. destruct (history_reachable e); [|now split].
  unfold Server.post. destruct (Server.within_limit b); [|now split].
  rewrite (post_history_empty_data _ _ _ H). now split.
Qed.

Lemma settle_text_only :
  forall e st w,
    mode st = research \/ mode st = summarize ->
    db (fst (generate_and_settle e st w)) = db w
    /\ results (snd (generate_and_settle e st w)) = results st.
Proof.
  intros e st w Hm.
  unfold generate_and_settle, generation, dispatch.
  cbn [mode prompt setError setIsGenerating].
  unfold Gemini.researchWithSearch, Gemini.summarizeUrl,
    Gemini.log_and_rethrow, Gemini.ai_generateContent, materialize,
    saveResult, fetch_history, try_catch, bind, call, await, console_error,
    ret, throw.
  destruct Hm as [Hm|Hm]; rewrite Hm;
    destruct (truthy_opt (GEMINI_API_KEY e)),
      (generateContent_reply e) as [response|m|],
      (history_reachable e); unfold Server.post; cbn;
    try match goal with
        | |- context [Server.within_limit ?b] =>
            destruct (Server.within_limit b)
        end;
    cbn; split; try reflexivity;
    destruct (m =? "API_KEY_EXPIRED")%string; reflexivity.
Qed.

(** C4, evaluated on the code.  In research and summarize mode a run of
    [handleGenerate] never adds a row to the table nor an entry to the list,
    whatever the provider answers: the body it posts carries the empty string
    as [data], and the route answers 400 to every such body. *)
Theorem text_only_result_never_saved :
  forall e st w,
    mode st = research \/ mode st = summarize ->
    let run := handleGenerate e st w in
    db (fst run) = db w
    /\ results (snd run) = results st
    /\ forall now d b,
         Body.data b = "" ->
         Server.post_history now d b = (d, Server.Status400).
Proof.
  intros e st w Hm run. subst run.
  assert (H : db (fst (handleGenerate e st w)) = db w
              /\ results (snd (handleGenerate e st w)) = results st).
  { destruct (reaches_generation e st) eqn:Hr.
    - rewrite (handleGenerate_reaches e st w Hr).
      destruct (entering_try_frame e st w) as (Hdb & _ & Hres & Hmode & _).
      destruct (settle_text_only e (snd (entering_try e st w))
                  (fst (entering_try e st w))) as [H1 H2].
      + now rewrite Hmode.
      + split; congruence.
    - destruct (handleGenerate_stops e st w Hr) as (Hdb & _ & Hres).
      now split. }
  destruct H as [H1 H2].
  split; [exact H1|]. split; [exact H2|]. apply post_history_empty_data.
Qed.

Lemma text_only_result_never_saved_witness :
  let e := Stub.with_reply (Resolved Stub.research_response) in
  let st := Stub.state summarize "https://example.org/post" in
  let run := handleGenerate e st Stub.world in
  (mode st = research \/ mode st = summarize)
  /\ db (fst run) = db Stub.world
  /\ results (snd run) = []
  /\ error (snd run) = None
  /\ filter store_call (calls (fst run))
     = [HistoryPost
          {| Body.type := "summary";
             Body.data := "";
             Body.prompt := "https://example.org/post";
             Body.text := Some "Agents and small models lead this year.";
             Body.sources := None |}].
Proof.
  cbv zeta.
  destruct (text_only_result_never_saved
              (Stub.with_reply (Resolved Stub.research_response))
              (Stub.state summarize "https://example.org/post") Stub.world
              (or_intror eq_refl)) as (Hdb & Hres & _).
  split; [now right|]. split; [exact Hdb|]. split; [exact Hres|].
  split; reflexivity.
Defined.

(** ** Research citations *)

(** Every citation [researchWithSearch] returns has a URI. *)
Lemma grounding_sources_have_uri :
  forall response,
    Forall (fun s => exists u, uri s = Some u /\ u <> "")
      (Gemini.grounding_sources response).
Proof.
  intros response. unfold Gemini.grounding_sources.
  destruct (groundingChunks response) as [chunks|]; [|constructor].
  apply Forall_forall. intros s Hs. apply filter_In in Hs as [_ Hu].
  destruct (uri s) as [u|]; [|discriminate]. exists u. split; [reflexivity|].
  intros ->. discriminate.
Qed.

(** The citations come in the provider's order: their URIs are the URIs of
    the grounding chunks, those that are missing or empty left out. *)
Lemma grounding_sources_in_order :
  forall response chunks,
    groundingChunks response = Some chunks ->
    map uri (Gemini.grounding_sources response)
    = filter truthy_opt
        (map (fun c => match web c with
                       | Some w => webUri w
                       | None => None
                       end) chunks).
Proof.
  intros response chunks H. unfold Gemini.grounding_sources. rewrite H.
  clear H. induction chunks as [|c chunks IH]; [reflexivity|].
  cbn. destruct (web c) as [[t [u|]]|] eqn:Hw; cbn; try apply IH.
  destruct (truthy u); cbn; [|apply IH].
  rewrite IH. unfold Gemini.chunk_source. now rewrite Hw.
Qed.

(** C6, evaluated on the code.  Research on "AI trends" against a provider
    that answers a text and two citations, one without a URI:
    [researchWithSearch] returns the one citation that has a URI and the
    body posted carries exactly that one; the server answers 400 because
    [data] is the empty string, so no row is written and the list stays
    empty. *)
Theorem research_sources_not_persisted :
  let e := Stub.with_reply (Resolved Stub.research_response) in
  let run := handleGenerate e (Stub.state research "AI trends") Stub.world in
  let cited := [{| title := "Agents in 2026";
                   uri := Some "https://example.org/agents" |}] in
  snd (Gemini.researchWithSearch e "AI trends" Stub.world)
  = Resolved ("Agents and small models lead this year.", cited)
  /\ filter store_call (calls (fst run))
     = [HistoryPost
          {| Body.type := "research";
             Body.data := "";
             Body.prompt := "AI trends";
             Body.text := Some "Agents and small models lead this year.";
             Body.sources := Some cited |}]
  /\ Server.history (db (fst run)) = []
  /\ results (snd run) = []
  /\ error (snd run) = None.
Proof.
  cbv zeta. repeat split.
Qed.

(** ** Result materializer *)

Lemma durable_not_transient :
  forall u, durable u = true -> transient u = false.
Proof.
  unfold durable, transient, startsWith. intros u H.
  destruct (String.prefix "blob:" u) eqn:T; [|reflexivity].
  apply prefix_correct in H. apply prefix_correct in T.
  change (String.length "blob:") with (String.length "data:") in T.
  rewrite H in T. discriminate T.
Qed.

Lemma dataUrl_not_transient :
  forall mime payload, transient (Gemini.dataUrl mime payload) = false.
Proof. reflexivity. Qed.

Lemma readAsDataURL_not_transient :
  forall b, transient (readAsDataURL b) = false.
Proof. reflexivity. Qed.

Lemma first_inline_data_not_transient :
  forall ps, transient (opt_or_else (Gemini.first_inline_data ps) "") = false.
Proof.
  induction ps as [|p ps IH]; cbn; [reflexivity|].
  destruct (inlineData p); [reflexivity|exact IH].
Qed.

Lemma materialize_durable :
  forall m u w,
    durable u = true -> materialize m (Some u) w = (w, Resolved u).
Proof.
  intros m u w H. unfold materialize. cbn [opt_or_else].
  rewrite or_else_empty.
  fold (transient u). rewrite (durable_not_transient u H).
  rewrite andb_false_r. destruct m; reflexivity.
Qed.

(** What [materialize] hands to the store is never an object URL in video
    mode. *)
Lemma materialize_video_not_transient :
  forall u w w' d,
    materialize video_gen u w = (w', Resolved d) -> transient d = false.
Proof.
  intros u w w' d H. unfold materialize in H.
  destruct (truthy_opt u && startsWith (opt_or_else u "") "blob:") eqn:Hc.
  - unfold fetch_blob, bind, call, ret in H.
    destruct (lookup_blob _ _) in H; inversion H; subst.
    apply readAsDataURL_not_transient.
  - inversion H; subst. apply andb_false_iff in Hc as [Hc|Hc].
    + destruct u as [[|c u]|]; try discriminate Hc; reflexivity.
    + exact Hc.
Qed.

(** Outside video mode the gateway only hands out data URLs, the empty
    string or nothing. *)
Lemma dispatch_not_transient :
  forall e st w w' g,
    mode st <> video_gen ->
    dispatch e st w = (w', Resolved g) ->
    transient (opt_or_else (resultUrl g) "") = false.
Proof.
  intros e st w w' g Hm H.
  unfold dispatch, Gemini.editImage, Gemini.analyzeImage,
    Gemini.generateSpeech, Gemini.transcribeAudio, Gemini.generateImage,
    Gemini.researchWithSearch, Gemini.summarizeUrl, Gemini.log_and_rethrow,
    Gemini.ai_generateContent, try_catch, bind, call, await, console_error,
    ret, throw in H.
  destruct (mode st); try congruence;
    destruct (uploadedImage st), (recordedAudio st),
      (generateContent_reply e) as [response|message|];
    cbn in H; inversion H; subst; cbn;
    try reflexivity;
    try apply first_inline_data_not_transient.
  all: match goal with
       | H : context [if ?c then _ else _] |- _ =>
           destruct c; inversion H; subst; reflexivity
       end.
Qed.

Lemma same_store_posts :
  forall w w' b,
    same_store w w' ->
    In (HistoryPost b) (calls w') -> In (HistoryPost b) (calls w).
Proof.
  intros w w' b [_ H] Hin.
  assert (Hf : In (HistoryPost b) (filter store_call (calls w')))
    by (apply filter_In; now split).
  rewrite H in Hf. now apply filter_In in Hf.
Qed.

Lemma saveResult_calls :
  forall e body st w w' r,
    saveResult e body st w = (w', r) ->
    calls w' = calls w ++ [HistoryPost body].
Proof.
  intros e body st w w' r H.
  unfold saveResult, fetch_history, bind, call in H. cbn in H.
  destruct (history_reachable e).
  - destruct (Server.post _ _ _) as [d' [saved| | |]];
      inversion H; reflexivity.
  - inversion H; reflexivity.
Qed.

(** Every body the [try] block posts carries data that is no object URL. *)
Lemma generation_posts :
  forall e st w w' r b,
    generation e st w = (w', r) ->
    In (HistoryPost b) (calls w') ->
    In (HistoryPost b) (calls w) \/ transient (Body.data b) = false.
Proof.
  intros e st w w' r b H Hin. unfold generation in H.
  destruct (negb (truthy_opt (GEMINI_API_KEY e)));
    [inversion H; subst; now left|].
  unfold bind in H.
  destruct (dispatch e st w) as [w1 [g|m|]] eqn:Hd;
    pose proof (quiet_dispatch e st w w1 _ Hd) as Q1;
    try (inversion H; subst; left; eapply same_store_posts; eassumption).
  destruct (negb (present (resultUrl g)) && negb (truthy_opt (resultText g)));
    [inversion H; subst; left; eapply same_store_posts; eassumption|].
  destruct (present (resultUrl g) || truthy_opt (resultText g));
    [|inversion H; subst; left; eapply same_store_posts; eassumption].
  destruct (materialize (mode st) (resultUrl g) w1) as [w2 [d|m|]] eqn:Hmat;
    pose proof (quiet_materialize _ _ w1 w2 _ Hmat) as Q2;
    try (inversion H; subst; left; eapply same_store_posts;
         [eapply same_store_trans|]; eassumption).
  apply saveResult_calls in H. rewrite H in Hin.
  apply in_app_or in Hin as [Hin|[Hin|[]]].
  - left. eapply same_store_posts;
      [eapply same_store_trans|]; eassumption.
  - right. inversion Hin; subst. cbn.
    destruct (mode st) eqn:Hm;
      try (unfold materialize in Hmat; inversion Hmat; subst;
           eapply dispatch_not_transient; [|exact Hd]; congruence).
    eapply materialize_video_not_transient; exact Hmat.
Qed.

Lemma handleGenerate_posts :
  forall e st w b,
    In (HistoryPost b) (calls (fst (handleGenerate e st w))) ->
    In (HistoryPost b) (calls w) \/ transient (Body.data b) = false.
Proof.
  intros e st w b Hin.
  assert (Hnet : forall l, In (HistoryPost b) (filter network_call l)
                           <-> In (HistoryPost b) l).
  { intros l. rewrite filter_In. tauto. }
  destruct (reaches_generation e st) eqn:Hr.
  - rewrite (handleGenerate_reaches e st w Hr) in Hin.
    destruct (entering_try_frame e st w) as (_ & Hcalls & _).
    unfold generate_and_settle in Hin.
    destruct (generation e _ (fst (entering_try e st w))) as [w' r] eqn:Hg.
    assert (Hin' : In (HistoryPost b) (calls w'))
      by (destruct r; exact Hin).
    destruct (generation_posts _ _ _ _ _ b Hg Hin') as [H|H];
      [left|now right].
    apply Hnet. rewrite <- Hcalls. now apply Hnet.
  - destruct (handleGenerate_stops e st w Hr) as (_ & Hcalls & _).
    left. apply Hnet. rewrite <- Hcalls. now apply Hnet.
Qed.

Lemma transient_truthy : forall u, transient u = true -> truthy u = true.
Proof. intros [|c u] H; [discriminate H|reflexivity]. Qed.

(** A transient reference of video mode is read back once and encoded. *)
Lemma materialize_transient :
  forall u w,
    transient u = true ->
    materialize video_gen (Some u) w
    = match lookup_blob u (blobs w) with
      | Some blob => (logged [FetchBlob u] w, Resolved (readAsDataURL blob))
      | None => (logged [FetchBlob u] w, Rejected "Failed to fetch")
      end.
Proof.
  intros u w H. unfold materialize. cbn [opt_or_else truthy_opt].
  rewrite or_else_empty. fold (transient u).
  rewrite H, (transient_truthy u H). cbn [andb].
  unfold fetch_blob, bind, call, logged. cbn [blobs].
  destruct (lookup_blob u (blobs w)); reflexivity.
Qed.

(** What [generateVideo] hands out is an object URL under which the bytes
    downloaded are registered. *)
Lemma generateVideo_registers :
  forall e prompt ratio seed w w' u,
    Gemini.generateVideo e prompt ratio seed w = (w', Resolved (Some u)) ->
    transient u = true
    /\ exists blob,
         download_reply e = Resolved (true, blob)
         /\ lookup_blob u (blobs w') = Some blob.
Proof.
  intros e prompt ratio seed w w' u H.
  unfold Gemini.generateVideo, try_catch in H.
  destruct (Gemini.generateVideo_try e (Gemini.getApiKey e) prompt ratio seed w)
    as [w1 [res|m|]] eqn:Htry.
  - inversion H; subst. clear H.
    unfold Gemini.generateVideo_try, bind, call, await in Htry.
    destruct (generateVideos_reply e) as [issued|m|]; try discriminate Htry.
    destruct (Gemini.poll _ _ _ _) as [w2 [op|m|]]; try discriminate Htry.
    destruct (negb (truthy_opt (videoUri op))); [discriminate Htry|].
    destruct (download_reply e) as [[okay blob]|m|]; try discriminate Htry.
    destruct okay; cbn in Htry; [|discriminate Htry].
    inversion Htry; subst.
    split; [unfold transient, startsWith; cbn;
            destruct (objectURL_id e); reflexivity|].
    exists blob. split; [reflexivity|]. cbn. now rewrite String.eqb_refl.
  - unfold bind, console_error in H.
    destruct (includes m "Requested entity was not found"); discriminate H.
  - discriminate H.
Qed.

(** C7.  Materializing a reference that is already a data URL returns it
    unchanged and leaves the world untouched, so nothing is fetched, and
    doing it again gives the same string.  The world changes only for an
    object URL in video mode: such a reference is fetched, once, and what
    comes back is the data URL of the bytes registered under it, a
    reference in durable form (when nothing is registered under it the
    fetch fails and nothing comes back).  What [generateVideo] returns is
    such an object URL, with the bytes downloaded registered under it.  No
    body that [handleGenerate] posts to the store carries an object URL as
    its data. *)
Theorem materialize_idempotent :
  (forall m u w,
      durable u = true ->
      materialize m (Some u) w = (w, Resolved u)
      /\ (d <- materialize m (Some u) ;; materialize m (Some d)) w
         = (w, Resolved u))
  /\ (forall m u w,
        fst (materialize m u w) <> w ->
        m = video_gen /\ exists s, u = Some s /\ transient s = true)
  /\ (forall u w,
        transient u = true ->
        (forall blob,
            lookup_blob u (blobs w) = Some blob ->
            materialize video_gen (Some u) w
            = (logged [FetchBlob u] w, Resolved (readAsDataURL blob))
            /\ durable (readAsDataURL blob) = true
            /\ transient (readAsDataURL blob) = false)
        /\ (lookup_blob u (blobs w) = None ->
            materialize video_gen (Some u) w
            = (logged [FetchBlob u] w, Rejected "Failed to fetch")))
  /\ (forall e prompt ratio seed w w' u,
        Gemini.generateVideo e prompt ratio seed w = (w', Resolved (Some u)) ->
        transient u = true
        /\ exists blob,
             download_reply e = Resolved (true, blob)
             /\ lookup_blob u (blobs w') = Some blob)
  /\ (forall e st w b,
        In (HistoryPost b) (calls (fst (handleGenerate e st w))) ->
        In (HistoryPost b) (calls w) \/ transient (Body.data b) = false).
Proof.
  split; [|split; [|split; [|split]]].
  - intros m u w H. split; [now apply materialize_durable|].
    unfold bind. rewrite (materialize_durable m u w H).
    now apply materialize_durable.
  - intros m u w H. unfold materialize in H.
    destruct m; try (exfalso; apply H; reflexivity).
    split; [reflexivity|].
    destruct u as [s|]; [|exfalso; apply H; reflexivity].
    exists s. split; [reflexivity|].
    cbn [opt_or_else truthy_opt] in H. unfold or_else in H.
    destruct (truthy s); cbn in H; [|exfalso; apply H; reflexivity].
    destruct (startsWith s "blob:") eqn:Hs; [exact Hs|].
    exfalso; apply H; reflexivity.
  - intros u w H. rewrite (materialize_transient u w H). split.
    + intros blob ->. split; [reflexivity|]. split; [|reflexivity].
      unfold durable, startsWith, readAsDataURL. cbn.
      destruct (contentType blob); reflexivity.
    + intros ->. reflexivity.
  - apply generateVideo_registers.
  - apply handleGenerate_posts.
Qed.

Lemma materialize_idempotent_witness :
  let registered :=
    {| db := db Stub.world;
       blobs := [("blob:http://localhost:3000/0001", Stub.video_blob)];
       console := []; calls := [] |} in
  durable "data:video/mp4;base64,AAAAIGZ0eXBpc29t" = true
  /\ (d <- materialize video_gen (Some "data:video/mp4;base64,AAAAIGZ0eXBpc29t") ;;
      materialize video_gen (Some d)) Stub.world
     = (Stub.world, Resolved "data:video/mp4;base64,AAAAIGZ0eXBpc29t")
  /\ transient "blob:http://localhost:3000/0001" = true
  /\ materialize video_gen (Some "blob:http://localhost:3000/0001") registered
     = (logged [FetchBlob "blob:http://localhost:3000/0001"] registered,
        Resolved "data:video/mp4;base64,AAAAIGZ0eXBpc29t").
Proof.
  cbv zeta.
  destruct materialize_idempotent as (Hdurable & _ & Htransient & _).
  split; [reflexivity|]. split.
  - apply (Hdurable video_gen "data:video/mp4;base64,AAAAIGZ0eXBpc29t"
             Stub.world).
    reflexivity.
  - split; [reflexivity|].
    destruct (Htransient "blob:http://localhost:3000/0001"
                {| db := db Stub.world;
                   blobs := [("blob:http://localhost:3000/0001",
                              Stub.video_blob)];
                   console := []; calls := [] |} eq_refl) as [Hfetch _].
    exact (proj1 (Hfetch Stub.video_blob eq_refl)).
Defined.

(** ** Two runs from end to end *)

(** Image edit of an upload with the prompt "add sepia tone", the provider
    answering an inline image: the entry is saved as an image under the
    prompt and heads the list. *)
Example image_edit_end_to_end :
  let upload := {| data := "iVBORw0KGgo="; mimeType := "image/png" |} in
  let answer :=
    {| parts := [{| inlineData :=
                      Some {| data := "c2VwaWE="; mimeType := "image/png" |} |}];
       responseText := None; groundingChunks := None |} in
  let st :=
    {| mode := image_edit; prompt := "add sepia tone";
       uploadedImage := Some upload; isGenerating := false; results := [];
       error := None; hasKey := false; aspectRatio := Ratio_16_9;
       recordedAudio := None |} in
  let run := handleGenerate (Stub.with_reply (Resolved answer)) st
               Stub.world in
  results (snd run)
  = [{| Result.id := Some 1; Result.type := "image";
        Result.url := "data:image/png;base64,c2VwaWE=";
        Result.prompt := "add sepia tone"; Result.text := None;
        Result.sources := None |}]
  /\ list_history Server.sqlite_order_by_timestamp_desc Stub.env run
     = results (snd run)
  /\ error (snd run) = None.
Proof. cbv zeta. repeat split. Qed.

(** Video generation that is done after one status query: the object URL
    is read back and what the store keeps is the data URL. *)
Example video_end_to_end :
  let e := Stub.with_video (Resolved Stub.waiting_operation)
             [Resolved (Stub.finished_operation (Some "https://veo/v1.mp4"))]
             (Resolved (true, Stub.video_blob)) in
  let run := handleGenerate e (Stub.state video_gen "a kite over dunes")
               Stub.world in
  snd (Gemini.generateVideo e "a kite over dunes" Ratio_16_9 None Stub.world)
  = Resolved (Some "blob:http://localhost:3000/0001")
  /\ map Result.url (results (snd run))
     = ["data:video/mp4;base64,AAAAIGZ0eXBpc29t"]
  /\ map Server.data (Server.history (db (fst run)))
     = ["data:video/mp4;base64,AAAAIGZ0eXBpc29t"]
  /\ filter network_call (calls (fst run))
     = [GenerateVideos "env-key"
          {| videoModel := "veo-3.1-fast-generate-preview";
             videoPrompt := "a kite over dunes"; numberOfVideos := 1;
             resolution := "720p"; videoAspectRatio := Ratio_16_9;
             image := None |};
        GetVideosOperation "env-key" Stub.waiting_operation;
        Download "https://veo/v1.mp4" [("x-goog-api-key", "env-key")];
        HistoryPost
          {| Body.type := "video";
             Body.data := "data:video/mp4;base64,AAAAIGZ0eXBpc29t";
             Body.prompt := "a kite over dunes"; Body.text := None;
             Body.sources := None |}].
Proof. cbv zeta. repeat split. Qed.

(** * More properties *)

(** ** Data URLs cut apart again *)

Lemma split_nonempty : forall sep s, split sep s <> [].
Proof.
  intros sep s. destruct s as [|c rest]; cbn; [discriminate|].
  destruct (Ascii.eqb c sep); [discriminate|].
  destruct (split sep rest); discriminate.
Qed.

Lemma split_free_app :
  forall sep a b,
    free_of sep a = true ->
    split sep (a ++ b)
    = (a ++ hd EmptyString (split sep b))%string :: tl (split sep b).
Proof.
  intros sep a b. induction a as [|c a IH]; intros H; cbn in *.
  - pose proof (split_nonempty sep b) as Hn.
    destruct (split sep b) as [|piece pieces]; [now elim Hn|reflexivity].
  - apply andb_true_iff in H as [Hc Ha]. apply negb_true_iff in Hc.
    rewrite Hc, (IH Ha). reflexivity.
Qed.

Lemma split_free :
  forall sep a, free_of sep a = true -> split sep a = [a].
Proof.
  intros sep a. induction a as [|c a IH]; intros H; cbn in *; [reflexivity|].
  apply andb_true_iff in H as [Hc Ha]. apply negb_true_iff in Hc.
  now rewrite Hc, (IH Ha).
Qed.

Lemma append_empty : forall s : string, (s ++ "")%string = s.
Proof. induction s as [|c s IH]; cbn; [reflexivity|now rewrite IH]. Qed.

(** X1.  Cutting a data URL at the comma gives back the payload it was
    built from, and cutting it at the semicolon and then at the colon gives
    back the MIME type, when these contain none of the separators; a string
    without a comma has no payload. *)
Theorem data_url_round_trip :
  forall mime payload,
    free_of "," mime = true ->
    free_of "," payload = true ->
    payload_of (Gemini.dataUrl mime payload) = Some payload
    /\ payload_of (readAsDataURL {| contentType := mime; base64 := payload |})
       = Some payload
    /\ (free_of ";" mime = true -> free_of ":" mime = true ->
        mime_of (Gemini.dataUrl mime payload) = Some mime)
    /\ (forall url, free_of "," url = true -> payload_of url = None).
Proof.
  intros mime payload Hm Hp.
  assert (Hpay : payload_of (Gemini.dataUrl mime payload) = Some payload).
  { unfold payload_of, Gemini.dataUrl. cbn.
    rewrite (split_free_app "," mime _ Hm). cbn.
    rewrite (split_free "," payload Hp). reflexivity. }
  split; [exact Hpay|]. split; [exact Hpay|]. split.
  - intros Hs Hc. unfold mime_of, Gemini.dataUrl. cbn.
    rewrite (split_free_app ";" mime _ Hs). cbn.
    rewrite append_empty, (split_free ":" mime Hc). reflexivity.
  - intros url Hu. unfold payload_of. now rewrite (split_free "," url Hu).
Qed.

Lemma data_url_round_trip_witness :
  payload_of "data:image/png;base64,iVBORw0KGgo=" = Some "iVBORw0KGgo="
  /\ mime_of "data:image/png;base64,iVBORw0KGgo=" = Some "image/png".
Proof.
  destruct (data_url_round_trip "image/png" "iVBORw0KGgo=" eq_refl eq_refl)
    as (Hp & _ & Hm & _).
  split; [exact Hp | exact (Hm eq_refl eq_refl)].
Defined.

(** ** The history server *)

Lemma sorted_snoc :
  forall (R : Server.Row -> Server.Row -> Prop) l a,
    StronglySorted R l -> Forall (fun x => R x a) l ->
    StronglySorted R (l ++ [a]).
Proof.
  induction l as [|x l IH]; intros a Hs Hf; cbn.
  - repeat constructor.
  - inversion Hs; subst. inversion Hf; subst.
    constructor; [now apply IH|].
    apply Forall_app. split; [assumption|now constructor].
Qed.

Lemma sorted_filter :
  forall (R : Server.Row -> Server.Row -> Prop) f l,
    StronglySorted R l -> StronglySorted R (filter f l).
Proof.
  induction l as [|x l IH]; intros H; cbn; [constructor|].
  inversion H as [|? ? Hl Hx]; subst.
  destruct (f x); [|now apply IH].
  constructor; [now apply IH|].
  apply Forall_forall. intros y Hy. apply filter_In in Hy as [Hy _].
  rewrite Forall_forall in Hx. now apply Hx.
Qed.

Lemma forall_filter :
  forall (P : Server.Row -> Prop) f l, Forall P l -> Forall P (filter f l).
Proof.
  intros P f l H. apply Forall_forall. intros y Hy.
  apply filter_In in Hy as [Hy _]. rewrite Forall_forall in H. now apply H.
Qed.

(** X2.  The empty table is well formed, and the writing routes keep a
    table well formed for every body whose fields are strings, as the
    bodies of the component are, whether the body gets past [express.json]
    and the check of the route or not: identifiers stay positive, strictly
    increasing along the table and within the counter, the counter never
    passes the largest rowid, and no row ever has an empty [type], [data] or
    [prompt]. *)
Theorem routes_keep_table_ok :
  table_ok {| Server.history := []; Server.seq := 0; Server.faulty := false |}
  /\ forall now d b i,
       table_ok d ->
       table_ok (fst (Server.post_history now d b))
       /\ table_ok (fst (Server.post now d b))
       /\ table_ok (fst (Server.delete_history d i)).
Proof.
  split.
  { unfold table_ok, Server.max_rowid. cbn [Server.history Server.seq].
    split; [constructor|]. split; [constructor|lia]. }
  intros now d b i (Hs & Hf & Hc).
  assert (Hpost : table_ok (fst (Server.post_history now d b))).
  { unfold Server.post_history.
    destruct (truthy (Body.type b)) eqn:Ht; cbn [negb orb fst];
      [|now repeat split].
    destruct (truthy (Body.data b)) eqn:Hd; cbn [negb orb fst];
      [|now repeat split].
    destruct (truthy (Body.prompt b)) eqn:Hp; cbn [negb orb fst];
      [|now repeat split].
    destruct (Server.faulty d); cbn [orb fst]; [now repeat split|].
    destruct (Server.max_rowid <=? Server.seq d) eqn:Hmax; cbn [fst];
      [now repeat split|].
    apply Z.leb_gt in Hmax.
    unfold table_ok. cbn [Server.history Server.seq].
    split; [|split; [|lia]].
    - apply sorted_snoc; [exact Hs|].
      eapply Forall_impl; [|exact Hf]. cbn. intros r (Hr & _). lia.
    - apply Forall_app. split.
      + eapply Forall_impl; [|exact Hf]. cbn.
        intros r (Hr & H1 & H2 & H3). repeat split; try assumption; lia.
      + repeat constructor; cbn; try assumption; lia. }
  split; [exact Hpost|]. split.
  - unfold Server.post. destruct (Server.within_limit b);
      [exact Hpost|now repeat split].
  - unfold Server.delete_history. destruct (Server.faulty d); cbn;
      [now repeat split|].
    split; [now apply sorted_filter|]. split; [now apply forall_filter|].
    exact Hc.
Qed.

Lemma routes_keep_table_ok_witness :
  table_ok (fst (Server.post 100
                   {| Server.history := []; Server.seq := 0;
                      Server.faulty := false |} (Stub.image_body "A"))).
Proof.
  destruct routes_keep_table_ok as [H0 H].
  exact (proj1 (proj2 (H 100 _ (Stub.image_body "A") 0 H0))).
Defined.

(** X3.  AUTOINCREMENT never hands out a rowid again: on a working
    database, after any deletion, the next insertion the route accepts
    stores the counter plus one, which is above the identifier of every row
    the table held before.  The identifier answered to the client is that
    rowid as a JavaScript number: the rowid itself while the counter is
    below 2^53, and 2^53 once more for the rowid after it.  With the counter
    at the largest rowid the insertion is answered 500 and the table stays
    as it is. *)
Theorem autoincrement_never_reuses :
  forall now d b i,
    rowids_within_counter d ->
    Server.faulty d = false ->
    accepted b = true ->
    let d1 := fst (Server.delete_history d i) in
    (Server.seq d < Server.max_rowid ->
     exists d' savedItem,
       Server.post_history now d1 b = (d', Server.Status200 savedItem)
       /\ Server.ids d' = Server.ids d1 ++ [Server.seq d + 1]
       /\ Forall (fun r => Server.id r < Server.seq d + 1) (Server.history d)
       /\ Saved.id savedItem = as_double (Server.seq d + 1)
       /\ (Server.seq d < 9007199254740992 ->
           Saved.id savedItem = Server.seq d + 1)
       /\ (Server.seq d = 9007199254740992 ->
           Saved.id savedItem = Server.seq d))
    /\ (Server.seq d = Server.max_rowid ->
        Server.post_history now d1 b = (d1, Server.Status500)).
Proof.
  intros now d b i (Hc & Hf) Hfaulty Ha d1.
  assert (Hd : Server.faulty d1 = false /\ Server.seq d1 = Server.seq d).
  { subst d1. unfold Server.delete_history. rewrite Hfaulty. now split. }
  destruct Hd as [Hd1 Hd2]. split.
  - intros Hroom.
    rewrite (post_history_accepted now d1 b Ha Hd1) by (rewrite Hd2; exact Hroom).
    rewrite Hd2. eexists. eexists. split; [reflexivity|].
    cbn [Saved.id]. split; [|split; [|split; [reflexivity|split]]].
    + unfold Server.ids. cbn [Server.history]. now rewrite map_app.
    + eapply Forall_impl; [|exact Hf]. cbn. intros r Hr. lia.
    + intros Hsmall. apply as_double_exact. lia.
    + intros ->. reflexivity.
  - intros Hfull. unfold accepted in Ha.
    apply andb_true_iff in Ha as [Ha Hp].
    apply andb_true_iff in Ha as [Ht Hdata].
    unfold Server.post_history. rewrite Ht, Hdata, Hp, Hd1, Hd2, Hfull.
    reflexivity.
Qed.

Lemma autoincrement_never_reuses_witness :
  let d := fst (Server.post_history 100
                  {| Server.history := []; Server.seq := 0;
                     Server.faulty := false |} (Stub.image_body "A")) in
  Server.ids d = [1]
  /\ exists d' savedItem,
       Server.post_history 101 (fst (Server.delete_history d 1))
         (Stub.image_body "B")
       = (d', Server.Status200 savedItem)
       /\ Saved.id savedItem = 2
       /\ Server.ids d' = [2].
Proof.
  cbv zeta. split; [reflexivity|].
  assert (Hok : rowids_within_counter
                  (fst (Server.post_history 100
                          {| Server.history := []; Server.seq := 0;
                             Server.faulty := false |}
                          (Stub.image_body "A")))).
  { split; [discriminate|]. repeat constructor; discriminate. }
  destruct (autoincrement_never_reuses 101
              (fst (Server.post_history 100
                      {| Server.history := []; Server.seq := 0;
                         Server.faulty := false |} (Stub.image_body "A")))
              (Stub.image_body "B") 1 Hok eq_refl eq_refl) as [Hroom _].
  destruct (Hroom eq_refl)
    as (d' & savedItem & Hpost & Hids & _ & _ & Hid & _).
  exists d', savedItem. split; [exact Hpost|].
  split; [apply Hid; reflexivity | exact Hids].
Defined.

(** X4.  [DELETE /api/history/:id] on a working database answers success
    whether or not a row was there; afterwards no row carries the identifier,
    every other row is still there, and deleting again changes nothing. *)
Theorem delete_history_removes_once :
  forall d i,
    Server.faulty d = false ->
    let d' := fst (Server.delete_history d i) in
    snd (Server.delete_history d i) = Server.Status200 true
    /\ ~ In i (Server.ids d')
    /\ (forall r, In r (Server.history d) -> Server.id r <> i ->
                  In r (Server.history d'))
    /\ Server.delete_history d' i = (d', Server.Status200 true).
Proof.
  intros d i Hf d'. subst d'. unfold Server.delete_history. rewrite Hf. cbn.
  split; [reflexivity|]. split; [|split].
  - unfold Server.ids. cbn. intros Hin. apply in_map_iff in Hin as (r & Hr & Hin).
    apply filter_In in Hin as [_ Hn]. apply negb_true_iff, Z.eqb_neq in Hn.
    contradiction.
  - intros r Hr Hn. apply filter_In. split; [exact Hr|].
    now apply negb_true_iff, Z.eqb_neq.
  - f_equal. f_equal. apply filter_all.
    intros r Hr. now apply filter_In in Hr as [_ Hr].
Qed.

Lemma delete_history_removes_once_witness :
  let d := {| Server.history := []; Server.seq := 4; Server.faulty := false |} in
  snd (Server.delete_history d 3) = Server.Status200 true
  /\ Server.delete_history (fst (Server.delete_history d 3)) 3
     = (fst (Server.delete_history d 3), Server.Status200 true).
Proof.
  cbv zeta.
  destruct (delete_history_removes_once
              {| Server.history := []; Server.seq := 4;
                 Server.faulty := false |} 3 eq_refl)
    as (H1 & _ & _ & H4).
  split; [exact H1 | exact H4].
Defined.

(** ** Create, then reload *)

(** X5.  For any engine whose listing returns the rows of the table, a
    body the server accepts (within the limit of [express.json], its
    required fields not empty, the counter below the largest rowid) is
    prepended to the list under the identifier the server answered, and a
    reload shows that same entry, citations included, among as many entries
    as the table has rows. *)
Theorem created_entry_on_reload :
  forall order e eL b ws,
    (forall rows, Permutation (order rows) rows) ->
    history_reachable e = true ->
    history_reachable eL = true ->
    Server.faulty (db (fst ws)) = false ->
    Server.seq (db (fst ws)) < Server.max_rowid ->
    accepted b = true ->
    Server.within_limit b = true ->
    let entry := saved_as (as_double (Server.seq (db (fst ws)) + 1)) b in
    let ws' := create e b ws in
    results (snd ws') = entry :: results (snd ws)
    /\ In entry (list_history order eL ws')
    /\ length (list_history order eL ws')
       = S (length (Server.history (db (fst ws)))).
Proof.
  intros order e eL b [w st] Hperm He HL Hf Hs Ha Hl entry ws'.
  subst entry ws'. cbn [fst snd] in *.
  rewrite (create_accepted e b w st He Hf Hs Ha Hl).
  split; [reflexivity|].
  unfold list_history. cbn [fst snd].
  rewrite fetchHistory_answered by (assumption || reflexivity).
  cbn [snd results setResults db fst Server.history].
  split.
  - rewrite <- (of_row_saved (CURRENT_TIMESTAMP e)).
    apply in_map. eapply Permutation_in;
      [apply Permutation_sym, Hperm|].
    apply in_or_app. right. now left.
  - rewrite length_map, (Permutation_length (Hperm _)), length_app. cbn. lia.
Qed.

Lemma created_entry_on_reload_witness :
  let ws' := create Stub.env (Stub.image_body "A")
               (Stub.world, Stub.showing []) in
  In (saved_as 1 (Stub.image_body "A"))
    (list_history Server.sqlite_order_by_timestamp_desc Stub.env ws')
  /\ length (list_history Server.sqlite_order_by_timestamp_desc Stub.env ws')
     = 1%nat.
Proof.
  cbv zeta.
  destruct (created_entry_on_reload Server.sqlite_order_by_timestamp_desc
              Stub.env Stub.env (Stub.image_body "A")
              (Stub.world, Stub.showing [])
              (fun rows => proj1 (sqlite_orders_by_timestamp_desc rows))
              eq_refl eq_refl eq_refl eq_refl eq_refl eq_refl)
    as (_ & Hin & Hlen).
  split; [exact Hin | exact Hlen].
Defined.

(** One creation in a second later than every row keeps list and store in
    step. *)
Lemma create_keeps_mirror :
  forall e b w st,
    history_reachable e = true ->
    Server.faulty (db w) = false ->
    Server.seq (db w) < Server.max_rowid ->
    accepted b = true ->
    Server.within_limit b = true ->
    Forall (fun r => Server.timestamp r < CURRENT_TIMESTAMP e)
      (Server.history (db w)) ->
    mirrors Server.sqlite_order_by_timestamp_desc (w, st) ->
    mirrors Server.sqlite_order_by_timestamp_desc (create e b (w, st)).
Proof.
  intros e b w st He Hf Hs Ha Hl Hold Hm.
  rewrite (create_accepted e b w st He Hf Hs Ha Hl).
  unfold mirrors in *. cbn [fst snd db Server.history results setResults
    setPrompt setRecordedAudio] in *.
  rewrite sqlite_newest_first by exact Hold.
  cbn [map]. now rewrite of_row_saved, Hm.
Qed.

(** X28.  With the listing as SQLite's sorter gives it, starting from a
    list that shows what the store would list: creating A, then B, then C,
    each accepted by the server and each in a later second than every row
    before it, keeps the list equal to what the store would list after each
    creation, and a reload after the three returns C, B, A followed by the
    earlier entries. *)
Theorem later_seconds_newest_first :
  forall eA eB eC eL A B C w st,
    history_reachable eA = true ->
    history_reachable eB = true ->
    history_reachable eC = true ->
    history_reachable eL = true ->
    accepted A = true -> Server.within_limit A = true ->
    accepted B = true -> Server.within_limit B = true ->
    accepted C = true -> Server.within_limit C = true ->
    Server.faulty (db w) = false ->
    Server.seq (db w) + 3 <= Server.max_rowid ->
    Forall (fun r => Server.timestamp r < CURRENT_TIMESTAMP eA)
      (Server.history (db w)) ->
    CURRENT_TIMESTAMP eA < CURRENT_TIMESTAMP eB ->
    CURRENT_TIMESTAMP eB < CURRENT_TIMESTAMP eC ->
    mirrors Server.sqlite_order_by_timestamp_desc (w, st) ->
    let n := Server.seq (db w) in
    let s1 := create eA A (w, st) in
    let s2 := create eB B s1 in
    let s3 := create eC C s2 in
    list_history Server.sqlite_order_by_timestamp_desc eL s3
    = saved_as (as_double (n + 3)) C :: saved_as (as_double (n + 2)) B
        :: saved_as (as_double (n + 1)) A :: results st
    /\ mirrors Server.sqlite_order_by_timestamp_desc s1
    /\ mirrors Server.sqlite_order_by_timestamp_desc s2
    /\ mirrors Server.sqlite_order_by_timestamp_desc s3.
Proof.
  intros eA eB eC eL A B C w st HA HB HC HL aA lA aB lB aC lC Hf Hn Hold
    tAB tBC Hm n s1 s2 s3.
  assert (H1 : Server.seq (db w) < Server.max_rowid) by lia.
  assert (H2 : Server.seq (db w) + 1 < Server.max_rowid) by lia.
  assert (H3 : Server.seq (db w) + 1 + 1 < Server.max_rowid) by lia.
  pose proof (create_keeps_mirror eA A w st HA Hf H1 aA lA Hold Hm) as M1.
  fold s1 in M1.
  assert (E1 : s1 = create eA A (w, st)) by reflexivity.
  rewrite (create_accepted eA A w st HA Hf H1 aA lA) in E1.
  assert (M2 : mirrors Server.sqlite_order_by_timestamp_desc s2).
  { subst s2. rewrite E1 in M1 |- *.
    apply create_keeps_mirror; try assumption; try reflexivity.
    cbn [db Server.history]. apply Forall_app. split.
    - eapply Forall_impl; [|exact Hold]. cbn. intros; lia.
    - repeat constructor. cbn. lia. }
  assert (E2 : s2 = create eB B s1) by reflexivity.
  rewrite E1 in E2.
  rewrite create_accepted in E2 by (assumption || reflexivity).
  cbn [db Server.history Server.seq results setResults setPrompt
       setRecordedAudio] in E2.
  assert (M3 : mirrors Server.sqlite_order_by_timestamp_desc s3).
  { subst s3. rewrite E2 in M2 |- *.
    apply create_keeps_mirror; try assumption; try reflexivity.
    cbn [db Server.history]. rewrite <- app_assoc. apply Forall_app. split.
    - eapply Forall_impl; [|exact Hold]. cbn. intros; lia.
    - repeat constructor; cbn; lia. }
  assert (E3 : s3 = create eC C s2) by reflexivity.
  rewrite E2 in E3.
  rewrite create_accepted in E3 by (assumption || reflexivity).
  cbn [db Server.history Server.seq results setResults setPrompt
       setRecordedAudio] in E3.
  split; [|split; [exact M1|split; [exact M2|exact M3]]].
  unfold list_history.
  rewrite fetchHistory_answered
    by (assumption || (rewrite E3; reflexivity)).
  cbn [snd results setResults]. unfold mirrors in M3. rewrite <- M3.
  rewrite E3. cbn [snd results setResults setPrompt setRecordedAudio].
  subst n.
  replace (Server.seq (db w) + 1 + 1 + 1)
    with (Server.seq (db w) + 3) by lia.
  replace (Server.seq (db w) + 1 + 1)
    with (Server.seq (db w) + 2) by lia.
  reflexivity.
Qed.

Lemma later_seconds_newest_first_witness :
  let s3 := create (Stub.at_second 103) (Stub.image_body "C")
              (create (Stub.at_second 102) (Stub.image_body "B")
                 (create (Stub.at_second 101) (Stub.image_body "A")
                    (Stub.world, Stub.showing []))) in
  list_history Server.sqlite_order_by_timestamp_desc Stub.env s3
  = [saved_as 3 (Stub.image_body "C"); saved_as 2 (Stub.image_body "B");
     saved_as 1 (Stub.image_body "A")]
  /\ mirrors Server.sqlite_order_by_timestamp_desc s3.
Proof.
  cbv zeta.
  destruct (later_seconds_newest_first
              (Stub.at_second 101) (Stub.at_second 102) (Stub.at_second 103)
              Stub.env (Stub.image_body "A") (Stub.image_body "B")
              (Stub.image_body "C") Stub.world (Stub.showing [])
              eq_refl eq_refl eq_refl eq_refl
              eq_refl eq_refl eq_refl eq_refl eq_refl eq_refl
              eq_refl ltac:(discriminate) (Forall_nil _)
              eq_refl eq_refl eq_refl) as (Hl & _ & _ & Hm).
  split; [exact Hl | exact Hm].
Defined.

(** ** The gateway operations built on [generateContent] *)

(** X6.  Each of the eight operations built on [generateContent] makes
    exactly one provider call, whatever the provider answers: one request
    for the model of the operation, sent with the key [getApiKey] resolves,
    and no second attempt after a failure.  Table and blob registry are left
    alone. *)
Theorem content_operation_calls_once :
  forall e op w,
    exists request,
      calls (fst (run_operation e op w))
      = calls w ++ [GenerateContent (Gemini.getApiKey e) request]
      /\ model request = operation_model op
      /\ db (fst (run_operation e op w)) = db w
      /\ blobs (fst (run_operation e op w)) = blobs w.
Proof.
  intros e op w.
  destruct op; cbn;
    unfold Gemini.generateImage, Gemini.researchWithSearch,
      Gemini.summarizeUrl, Gemini.analyzeImage, Gemini.generateSpeech,
      Gemini.transcribeAudio, Gemini.editImage, upscaleImage,
      Gemini.log_and_rethrow, Gemini.ai_generateContent, try_catch, bind,
      call, await, console_error, ret, throw;
    eexists; (destruct (generateContent_reply e) as [response|m|]; cbn;
              [|repeat split; reflexivity|repeat split; reflexivity]);
    try (repeat split; reflexivity).
  destruct (truthy_opt _); repeat split; reflexivity.
Qed.

(** X7.  When the provider rejects the call, each of the eight operations
    fails with the provider's own message, unchanged, and writes exactly its
    one line to the console; none of them turns a message into
    [API_KEY_EXPIRED]. *)
Theorem content_operation_rethrows :
  forall e op w m,
    generateContent_reply e = Rejected m ->
    snd (run_operation e op w) = Rejected m
    /\ console (fst (run_operation e op w))
       = console w ++ [operation_label op].
Proof.
  intros e op w m H.
  destruct op; cbn;
    unfold Gemini.generateImage, Gemini.researchWithSearch,
      Gemini.summarizeUrl, Gemini.analyzeImage, Gemini.generateSpeech,
      Gemini.transcribeAudio, Gemini.editImage, upscaleImage,
      Gemini.log_and_rethrow, Gemini.ai_generateContent, try_catch, bind,
      call, await, console_error, ret, throw;
    rewrite H; split; reflexivity.
Qed.

Lemma content_operation_rethrows_witness :
  let e := Stub.with_reply (Rejected "404 Requested entity was not found.") in
  snd (run_operation e (call_editImage "iVBORw0KGgo=" "image/png" "sepia")
         Stub.world)
  = Rejected "404 Requested entity was not found."
  /\ console (fst (run_operation e
                     (call_editImage "iVBORw0KGgo=" "image/png" "sepia")
                     Stub.world))
     = ["Error editing image:"].
Proof.
  cbv zeta.
  apply (content_operation_rethrows
           (Stub.with_reply (Rejected "404 Requested entity was not found."))
           (call_editImage "iVBORw0KGgo=" "image/png" "sepia") Stub.world).
  reflexivity.
Defined.

Lemma opt_or_else_truthy :
  forall o d, truthy d = true -> truthy (opt_or_else o d) = true.
Proof.
  intros [s|] d H; cbn; [|exact H]. unfold or_else.
  destruct (truthy s) eqn:Hs; assumption.
Qed.

(** X8.  The four operations that answer with text never answer with an
    empty one: when the provider sends no text, [analyzeImage],
    [transcribeAudio], [summarizeUrl] and [researchWithSearch] put their
    default sentence in its place. *)
Theorem text_operations_never_empty :
  forall e w,
    (forall b m p t, snd (Gemini.analyzeImage e b m p w) = Resolved t ->
                     truthy_opt t = true)
    /\ (forall b m t, snd (Gemini.transcribeAudio e b m w) = Resolved t ->
                      truthy_opt t = true)
    /\ (forall u p t, snd (Gemini.summarizeUrl e u p w) = Resolved t ->
                      truthy_opt t = true)
    /\ (forall p t cited,
          snd (Gemini.researchWithSearch e p w) = Resolved (t, cited) ->
          truthy t = true).
Proof.
  intros e w.
  repeat split; intros;
    match goal with
    | H : snd _ = Resolved _ |- _ =>
        unfold Gemini.analyzeImage, Gemini.transcribeAudio,
          Gemini.summarizeUrl, Gemini.researchWithSearch,
          Gemini.log_and_rethrow, Gemini.ai_generateContent, try_catch, bind,
          call, await, console_error, ret, throw in H;
        destruct (generateContent_reply e) as [response|msg|]; cbn in H;
        try discriminate H; inversion H; subst; cbn
    end;
    now apply opt_or_else_truthy.
Qed.

Lemma text_operations_never_empty_witness :
  snd (Gemini.transcribeAudio Stub.env "GkXfo59ChoEB" "audio/webm" Stub.world)
  = Resolved (Some "No transcription generated.")
  /\ truthy_opt (Some "No transcription generated.") = true.
Proof.
  split; [reflexivity|].
  destruct (text_operations_never_empty Stub.env Stub.world)
    as (_ & H & _).
  apply (H "GkXfo59ChoEB" "audio/webm"). reflexivity.
Defined.

Lemma first_inline_data_none :
  forall ps,
    Gemini.first_inline_data ps = None
    <-> Forall (fun p => inlineData p = None) ps.
Proof.
  induction ps as [|p ps IH]; cbn.
  - split; [constructor|reflexivity].
  - destruct (inlineData p) eqn:Hp.
    + split; [discriminate|]. intros H. inversion H; congruence.
    + rewrite IH. split; intros H; [now constructor|now inversion H].
Qed.

Lemma first_inline_data_first :
  forall before m after,
    Forall (fun p => inlineData p = None) before ->
    Gemini.first_inline_data (before ++ {| inlineData := Some m |} :: after)
    = Some (Gemini.dataUrl (mimeType m) (data m)).
Proof.
  induction before as [|p before IH]; intros m after H; cbn; [reflexivity|].
  inversion H as [|? ? Hp Hb]; subst. rewrite Hp. now apply IH.
Qed.

(** X9.  On an answer of the provider, [generateImage], [editImage] and
    [upscaleImage] return the data URL of the first part that carries inline
    data, whatever parts come before it, built from that part's own MIME
    type and data; they return [null] exactly when no part carries any. *)
Theorem image_operations_take_first_inline_part :
  forall e response w,
    generateContent_reply e = Resolved response ->
    (forall before m after,
        parts response = before ++ {| inlineData := Some m |} :: after ->
        Forall (fun p => inlineData p = None) before ->
        let url := Resolved (Some (Gemini.dataUrl (mimeType m) (data m))) in
        (forall p, snd (Gemini.generateImage e p w) = url)
        /\ (forall b t p, snd (Gemini.editImage e b t p w) = url)
        /\ (forall b t, snd (upscaleImage e b t w) = url))
    /\ ((forall p, snd (Gemini.generateImage e p w) = Resolved None)
        <-> Forall (fun p => inlineData p = None) (parts response)).
Proof.
  intros e response w H.
  assert (Hrun :
    (forall p, snd (Gemini.generateImage e p w)
               = Resolved (Gemini.first_inline_data (parts response)))
    /\ (forall b t p, snd (Gemini.editImage e b t p w)
                      = Resolved (Gemini.first_inline_data (parts response)))
    /\ (forall b t, snd (upscaleImage e b t w)
                    = Resolved (Gemini.first_inline_data (parts response)))).
  { repeat split; intros;
      unfold Gemini.generateImage, Gemini.editImage, upscaleImage,
        Gemini.log_and_rethrow, Gemini.ai_generateContent, try_catch, bind,
        call, await, console_error, ret, throw;
      rewrite H; reflexivity. }
  destruct Hrun as (Hg & He & Hu). split.
  - intros before m after Hparts Hbefore url. subst url.
    pose proof (first_inline_data_first before m after Hbefore) as Hf.
    rewrite <- Hparts in Hf.
    repeat split; intros; rewrite ?Hg, ?He, ?Hu, Hf; reflexivity.
  - rewrite <- first_inline_data_none. split.
    + intros Hn. specialize (Hn ""). rewrite Hg in Hn. now inversion Hn.
    + intros Hn p. now rewrite Hg, Hn.
Qed.

Lemma image_operations_take_first_inline_part_witness :
  let answer :=
    {| parts := [{| inlineData := None |};
                 {| inlineData :=
                      Some {| data := "c2VwaWE="; mimeType := "image/webp" |} |}];
       responseText := Some "Here is your image."; groundingChunks := None |} in
  snd (Gemini.generateImage (Stub.with_reply (Resolved answer)) "a red kite"
         Stub.world)
  = Resolved (Some "data:image/webp;base64,c2VwaWE=").
Proof.
  cbv zeta.
  destruct (image_operations_take_first_inline_part
              (Stub.with_reply
                 (Resolved
                    {| parts := [{| inlineData := None |};
                                 {| inlineData :=
                                      Some {| data := "c2VwaWE=";
                                              mimeType := "image/webp" |} |}];
                       responseText := Some "Here is your image.";
                       groundingChunks := None |}))
              _ Stub.world eq_refl) as [H _].
  destruct (H [{| inlineData := None |}]
              {| data := "c2VwaWE="; mimeType := "image/webp" |} []
              eq_refl ltac:(repeat constructor)) as (Hg & _).
  apply Hg.
Defined.

(** X10.  [generateSpeech] looks at the first part only and labels what
    it finds as WAV: audio in the first part comes back as
    [data:audio/wav;base64,...] whatever MIME type the part declares, and a
    first part without inline data gives [null] even when a later part
    carries audio. *)
Theorem generateSpeech_first_part_as_wav :
  forall e response w text,
    generateContent_reply e = Resolved response ->
    (forall m rest,
        parts response = {| inlineData := Some m |} :: rest ->
        truthy (data m) = true ->
        snd (Gemini.generateSpeech e text w)
        = Resolved (Some ("data:audio/wav;base64," ++ data m)%string))
    /\ (forall rest,
          parts response = {| inlineData := None |} :: rest ->
          snd (Gemini.generateSpeech e text w) = Resolved None).
Proof.
  intros e response w text H.
  split; intros;
    unfold Gemini.generateSpeech, Gemini.log_and_rethrow,
      Gemini.ai_generateContent, try_catch, bind, call, await,
      console_error, ret, throw;
    rewrite H; cbn;
    match goal with Hp : parts response = _ |- _ => rewrite Hp end; cbn.
  - match goal with Ht : truthy _ = true |- _ => rewrite Ht end. cbn.
    unfold or_else.
    match goal with Ht : truthy _ = true |- _ => rewrite Ht end.
    reflexivity.
  - reflexivity.
Qed.

Lemma generateSpeech_first_part_as_wav_witness :
  let answer :=
    {| parts := [{| inlineData :=
                      Some {| data := "UklGRg=="; mimeType := "audio/L16" |} |}];
       responseText := None; groundingChunks := None |} in
  snd (Gemini.generateSpeech (Stub.with_reply (Resolved answer)) "hello"
         Stub.world)
  = Resolved (Some "data:audio/wav;base64,UklGRg==").
Proof.
  cbv zeta.
  destruct (generateSpeech_first_part_as_wav
              (Stub.with_reply
                 (Resolved
                    {| parts := [{| inlineData :=
                                      Some {| data := "UklGRg==";
                                              mimeType := "audio/L16" |} |}];
                       responseText := None; groundingChunks := None |}))
              _ Stub.world "hello" eq_refl) as [H _].
  apply (H {| data := "UklGRg=="; mimeType := "audio/L16" |} []);
    reflexivity.
Defined.

(** ** The polling loop when the provider fails or keeps silent *)

(** While every handle is not done, the loop asks once per handle; it ends
    with the first answer that is no handle, and never when the answers run
    out. *)
Lemma poll_not_done :
  forall apiKey hs h0 tail w,
    Forall (fun h => done h = false) (h0 :: hs) ->
    (forall op rest, tail <> Resolved op :: rest) ->
    Gemini.poll apiKey h0 (map Resolved hs ++ tail) w
    = (logged (poll_rounds apiKey (h0 :: hs)) w,
       match tail with
       | Rejected m :: _ => Rejected m
       | _ => Pending
       end).
Proof.
  induction hs as [|h hs IH]; intros h0 tail w Hn Ht;
    inversion Hn as [|? ? H0 Hrest]; subst.
  - cbn [map app]. destruct tail as [|[op|m|] rest];
      cbn [Gemini.poll]; rewrite H0;
      try (exfalso; now apply (Ht op rest));
      unfold bind, call, await, logged; cbn;
      rewrite <- ?app_assoc; reflexivity.
  - cbn [map app Gemini.poll]. rewrite H0.
    unfold bind at 1. cbn [call]. unfold bind at 1. cbn [call].
    unfold bind at 1, await at 1.
    fold (logged [SetTimeout 10000] w).
    fold (logged [GetVideosOperation apiKey h0] (logged [SetTimeout 10000] w)).
    rewrite (IH h tail _ Hrest Ht). now rewrite !logged_app.
Qed.

(** X11.  A provider error during polling ends the loop at once: after
    the handles answered so far, none of them done, the query that is
    rejected is the last one made, nothing is downloaded, and
    [generateVideo] fails with the provider's message (with
    [API_KEY_EXPIRED] when the message contains "Requested entity was not
    found") after one line on the console. *)
Theorem polling_stops_at_rejection :
  forall e prompt ratio seed w h0 hs m later,
    Forall (fun h => done h = false) (h0 :: hs) ->
    generateVideos_reply e = Resolved h0 ->
    getVideosOperation_replies e = map Resolved hs ++ Rejected m :: later ->
    let run := Gemini.generateVideo e prompt ratio seed w in
    status_queries (calls (fst run)) = status_queries (calls w) ++ h0 :: hs
    /\ downloads (calls (fst run)) = downloads (calls w)
    /\ snd run
       = Rejected (if includes m "Requested entity was not found"
                   then "API_KEY_EXPIRED" else m)
    /\ console (fst run) = console w ++ ["Error generating video:"].
Proof.
  intros e prompt ratio seed w h0 hs m later Hn Hi Hr run. subst run.
  unfold Gemini.generateVideo, Gemini.generateVideo_try, try_catch, bind,
    call, await.
  rewrite Hi, Hr.
  rewrite (poll_not_done (Gemini.getApiKey e) hs h0 (Rejected m :: later) _ Hn)
    by discriminate.
  unfold console_error.
  destruct (includes m "Requested entity was not found");
    cbn [fst snd throw]; unfold logged; cbn [calls console];
    rewrite !status_queries_app, !downloads_app,
      status_queries_poll_rounds, downloads_poll_rounds; cbn;
    rewrite ?app_nil_r; repeat split; reflexivity.
Qed.

Lemma polling_stops_at_rejection_witness :
  let e := Stub.with_video (Resolved Stub.waiting_operation)
             [Resolved Stub.waiting_operation; Rejected "503 overloaded";
              Resolved (Stub.finished_operation (Some "https://veo/v1.mp4"))]
             (Resolved (true, Stub.video_blob)) in
  let run := Gemini.generateVideo e "a kite over dunes" Ratio_16_9 None
               Stub.world in
  status_queries (calls (fst run))
  = [Stub.waiting_operation; Stub.waiting_operation]
  /\ downloads (calls (fst run)) = []
  /\ snd run = Rejected "503 overloaded".
Proof.
  cbv zeta.
  destruct (polling_stops_at_rejection
              (Stub.with_video (Resolved Stub.waiting_operation)
                 [Resolved Stub.waiting_operation; Rejected "503 overloaded";
                  Resolved (Stub.finished_operation
                              (Some "https://veo/v1.mp4"))]
                 (Resolved (true, Stub.video_blob)))
              "a kite over dunes" Ratio_16_9 None Stub.world
              Stub.waiting_operation [Stub.waiting_operation]
              "503 overloaded"
              [Resolved (Stub.finished_operation (Some "https://veo/v1.mp4"))]
              ltac:(repeat constructor) eq_refl eq_refl)
    as (Hq & Hd & Hres & _).
  split; [exact Hq|]. split; [exact Hd | exact Hres].
Defined.

(** X12.  The loop has no bound of its own: however many handles the
    provider answers, as long as none of them is done the loop has asked once
    per handle, is still waiting, has downloaded nothing and has not logged a
    failure. *)
Theorem polling_has_no_bound :
  forall e prompt ratio seed w h0 hs,
    Forall (fun h => done h = false) (h0 :: hs) ->
    generateVideos_reply e = Resolved h0 ->
    getVideosOperation_replies e = map Resolved hs ->
    let run := Gemini.generateVideo e prompt ratio seed w in
    snd run = Pending
    /\ status_queries (calls (fst run)) = status_queries (calls w) ++ h0 :: hs
    /\ length (status_queries (calls (fst run)))
       = (length (status_queries (calls w)) + S (length hs))%nat
    /\ downloads (calls (fst run)) = downloads (calls w)
    /\ console (fst run) = console w.
Proof.
  intros e prompt ratio seed w h0 hs Hn Hi Hr run. subst run.
  unfold Gemini.generateVideo, Gemini.generateVideo_try, try_catch, bind,
    call, await.
  rewrite Hi, Hr.
  rewrite <- (app_nil_r (map Resolved hs)).
  rewrite (poll_not_done (Gemini.getApiKey e) hs h0 [] _ Hn)
    by discriminate.
  cbn [fst snd]. unfold logged. cbn [calls console].
  rewrite !status_queries_app, !downloads_app,
    status_queries_poll_rounds, downloads_poll_rounds. cbn.
  rewrite ?app_nil_r, length_app. cbn. repeat split; reflexivity.
Qed.

Lemma polling_has_no_bound_witness :
  let e := Stub.with_video (Resolved Stub.waiting_operation)
             (map Resolved (repeat Stub.waiting_operation 50)) Pending in
  let run := Gemini.generateVideo e "a kite over dunes" Ratio_16_9 None
               Stub.world in
  snd run = Pending
  /\ length (status_queries (calls (fst run))) = 51%nat.
Proof.
  cbv zeta.
  destruct (polling_has_no_bound
              (Stub.with_video (Resolved Stub.waiting_operation)
                 (map Resolved (repeat Stub.waiting_operation 50)) Pending)
              "a kite over dunes" Ratio_16_9 None Stub.world
              Stub.waiting_operation (repeat Stub.waiting_operation 50))
    as (Hres & _ & Hlen & _).
  - apply Forall_forall. intros h [<-|Hh]; [reflexivity|].
    now apply repeat_spec in Hh as ->.
  - reflexivity.
  - reflexivity.
  - split; [exact Hres|]. rewrite Hlen, repeat_length. reflexivity.
Defined.

(** ** The download that ends video generation *)

Lemma generateVideo_after_download :
  forall e prompt ratio seed w waiting finished link,
    reports_done_after e waiting finished ->
    videoUri finished = Some link ->
    truthy link = true ->
    let key := Gemini.getApiKey e in
    let request :=
      {| videoModel := "veo-3.1-fast-generate-preview";
         videoPrompt := prompt; numberOfVideos := 1;
         resolution := "720p"; videoAspectRatio := ratio;
         image := seed |} in
    let w1 := logged (GenerateVideos key request :: poll_rounds key waiting
                      ++ [Download link [("x-goog-api-key", key)]]) w in
    Gemini.generateVideo e prompt ratio seed w
    = match download_reply e with
      | Resolved (true, blob) =>
          ({| db := db w1; blobs := (("blob:" ++ objectURL_id e)%string, blob)
                                    :: blobs w1;
              console := console w1; calls := calls w1 |},
           Resolved (Some ("blob:" ++ objectURL_id e)%string))
      | Resolved (false, _) =>
          ({| db := db w1; blobs := blobs w1;
              console := console w1 ++ ["Error generating video:"];
              calls := calls w1 |},
           Rejected "Failed to download video")
      | Rejected m =>
          ({| db := db w1; blobs := blobs w1;
              console := console w1 ++ ["Error generating video:"];
              calls := calls w1 |},
           Rejected (if includes m "Requested entity was not found"
                     then "API_KEY_EXPIRED" else m))
      | Pending => (w1, Pending)
      end.
Proof.
  intros e prompt ratio seed w waiting finished link Hp Hlink Ht key request
    w1.
  unfold Gemini.generateVideo, Gemini.generateVideo_try, try_catch.
  fold key. fold request.
  rewrite (generateVideo_polled _ e key request waiting finished _ w Hp).
  rewrite Hlink. cbn [truthy_opt opt_or_else]. rewrite Ht. cbn [negb].
  unfold or_else at 1. rewrite Ht. rewrite or_else_empty.
  unfold bind at 1. cbn [call]. unfold bind at 1, await at 1.
  subst w1.
  destruct (download_reply e) as [[[|] blob]|m|];
    try destruct (includes m "Requested entity was not found");
    cbn; unfold logged; cbn; rewrite <- ?app_assoc; cbn; reflexivity.
Qed.

(** X13.  When polling has ended with a video URI and the download is
    answered with a status that is not ok, [generateVideo] fails with
    "Failed to download video": the one download was made, no object URL is
    created, and the failure is not taken for an expired key. *)
Theorem video_download_not_ok :
  forall e prompt ratio seed w waiting finished link blob,
    reports_done_after e waiting finished ->
    videoUri finished = Some link ->
    truthy link = true ->
    download_reply e = Resolved (false, blob) ->
    let run := Gemini.generateVideo e prompt ratio seed w in
    snd run = Rejected "Failed to download video"
    /\ downloads (calls (fst run))
       = downloads (calls w)
         ++ [(link, [("x-goog-api-key", Gemini.getApiKey e)])]
    /\ blobs (fst run) = blobs w
    /\ console (fst run) = console w ++ ["Error generating video:"].
Proof.
  intros e prompt ratio seed w waiting finished link blob Hp Hlink Ht Hd run.
  subst run.
  rewrite (generateVideo_after_download e prompt ratio seed w waiting finished
             link Hp Hlink Ht).
  rewrite Hd. cbn [fst snd]. unfold logged. cbn [calls blobs console].
  split; [reflexivity|]. split; [|split; reflexivity].
  rewrite downloads_app. f_equal.
  change (GenerateVideos ?k ?r :: ?l ++ ?d) with ([GenerateVideos k r] ++ l ++ d).
  rewrite !downloads_app, downloads_poll_rounds. reflexivity.
Qed.

Lemma video_download_not_ok_witness :
  let e := Stub.with_video (Resolved Stub.waiting_operation)
             [Resolved (Stub.finished_operation (Some "https://veo/v1.mp4"))]
             (Resolved (false, Stub.video_blob)) in
  let run := Gemini.generateVideo e "a kite over dunes" Ratio_16_9 None
               Stub.world in
  snd run = Rejected "Failed to download video"
  /\ blobs (fst run) = [].
Proof.
  cbv zeta.
  destruct (video_download_not_ok
              (Stub.with_video (Resolved Stub.waiting_operation)
                 [Resolved (Stub.finished_operation
                              (Some "https://veo/v1.mp4"))]
                 (Resolved (false, Stub.video_blob)))
              "a kite over dunes" Ratio_16_9 None Stub.world
              [Stub.waiting_operation]
              (Stub.finished_operation (Some "https://veo/v1.mp4"))
              "https://veo/v1.mp4" Stub.video_blob)
    as (Hres & _ & Hblobs & _); try reflexivity.
  - unfold reports_done_after. repeat split.
    + repeat constructor.
    + exists []. reflexivity.
  - split; [exact Hres | exact Hblobs].
Defined.

(** ** A video from the provider to the table *)

Lemma materialize_object_url :
  forall id blob w,
    materialize video_gen (Some ("blob:" ++ id)%string)
      {| db := db w; blobs := (("blob:" ++ id)%string, blob) :: blobs w;
         console := console w; calls := calls w |}
    = ({| db := db w; blobs := (("blob:" ++ id)%string, blob) :: blobs w;
          console := console w;
          calls := calls w ++ [FetchBlob ("blob:" ++ id)%string] |},
       Resolved (readAsDataURL blob)).
Proof.
  intros id blob w. unfold materialize, fetch_blob, bind, call. cbn.
  replace (prefix "" id) with true by (destruct id; reflexivity).
  cbn. rewrite String.eqb_refl. reflexivity.
Qed.

(** What an accepted POST leaves behind, and what one over the limit
    does. *)
Lemma saveResult_accepted :
  forall e body st w,
    history_reachable e = true ->
    Server.faulty (db w) = false ->
    Server.seq (db w) < Server.max_rowid ->
    accepted body = true ->
    Server.within_limit body = true ->
    saveResult e body st w
    = ({| db := {| Server.history :=
                     Server.history (db w)
                     ++ [row_of (Server.seq (db w) + 1) (CURRENT_TIMESTAMP e)
                           body];
                   Server.seq := Server.seq (db w) + 1;
                   Server.faulty := false |};
          blobs := blobs w; console := console w;
          calls := calls w ++ [HistoryPost body] |},
       Resolved
         (setRecordedAudio None
            (setPrompt ""
               (setResults
                  (saved_as (as_double (Server.seq (db w) + 1)) body
                   :: results st) st)))).
Proof.
  intros e body st w He Hf Hs Ha Hl.
  unfold saveResult, fetch_history, bind, call. rewrite He. cbv beta.
  cbn [db]. rewrite !(post_accepted _ _ _ Hl Ha Hf Hs). reflexivity.
Qed.

Lemma saveResult_over_limit :
  forall e body st w,
    history_reachable e = true ->
    Server.within_limit body = false ->
    saveResult e body st w = (logged [HistoryPost body] w, Resolved st).
Proof.
  intros e body st w He Hl.
  unfold saveResult, fetch_history, bind, call. rewrite He. cbv beta.
  cbn [db]. rewrite !(post_over_limit _ _ _ Hl). reflexivity.
Qed.

Lemma json_char_length_positive : forall c, 1 <= json_char_length c.
Proof.
  intros c. unfold json_char_length.
  repeat match goal with
         | |- context [if ?t then _ else _] => destruct t
         end; lia.
Qed.

Lemma json_chars_length_app :
  forall a b,
    json_chars_length (a ++ b) = json_chars_length a + json_chars_length b.
Proof.
  induction a as [|c a IH]; intros b; cbn [append json_chars_length];
    [reflexivity|].
  rewrite IH. lia.
Qed.

Lemma json_chars_length_ge :
  forall s, Z.of_nat (String.length s) <= json_chars_length s.
Proof.
  induction s as [|c s IH]; cbn [String.length json_chars_length]; [lia|].
  pose proof (json_char_length_positive c). lia.
Qed.

Lemma json_string_length_ge :
  forall s, Z.of_nat (String.length s) <= json_string_length s.
Proof.
  intros s. unfold json_string_length.
  pose proof (json_chars_length_ge s). lia.
Qed.

Lemma json_member_length_ge :
  forall key value, value <= json_member_length key value.
Proof.
  intros key value. unfold json_member_length.
  pose proof (json_string_length_ge key). lia.
Qed.

Lemma json_joined_length_ge :
  forall items, fold_right Z.add 0 items <= json_joined_length items.
Proof. intros items. unfold json_joined_length. lia. Qed.

Lemma json_items_nonnegative :
  forall items, Forall (fun x => 0 <= x) items -> 0 <= fold_right Z.add 0 items.
Proof.
  induction 1 as [|x items Hx _ IH]; cbn [fold_right]; lia.
Qed.

Lemma json_source_length_nonnegative :
  forall s, 0 <= json_source_length s.
Proof.
  intros s. unfold json_source_length.
  eapply Z.le_trans; [|apply json_joined_length_ge].
  apply json_items_nonnegative.
  assert (Hm : forall key t, 0 <= json_member_length key (json_string_length t)).
  { intros key t. pose proof (json_member_length_ge key (json_string_length t)).
    pose proof (json_string_length_ge t). lia. }
  destruct (uri s); repeat constructor; apply Hm.
Qed.

(** A body is longer than its [data]. *)
Lemma content_length_data :
  forall b, json_chars_length (Body.data b) <= content_length b.
Proof.
  intros b. unfold content_length.
  eapply Z.le_trans; [|apply json_joined_length_ge].
  assert (Hm : forall key t, 0 <= json_member_length key (json_string_length t)).
  { intros key t. pose proof (json_member_length_ge key (json_string_length t)).
    pose proof (json_string_length_ge t). lia. }
  assert (Hrest :
    0 <= fold_right Z.add 0
           (match Body.text b with
            | Some t => [json_member_length "text" (json_string_length t)]
            | None => []
            end
            ++ match Body.sources b with
               | Some cited =>
                   [json_member_length "sources"
                      (json_joined_length (map json_source_length cited))]
               | None => []
               end)).
  { apply json_items_nonnegative. apply Forall_app. split.
    - destruct (Body.text b); repeat constructor. apply Hm.
    - destruct (Body.sources b) as [cited|]; repeat constructor.
      eapply Z.le_trans; [|apply json_member_length_ge].
      eapply Z.le_trans; [|apply json_joined_length_ge].
      apply json_items_nonnegative. apply Forall_forall.
      intros x Hx. apply in_map_iff in Hx as (c & <- & _).
      apply json_source_length_nonnegative. }
  cbn [app fold_right].
  pose proof (Hm "type" (Body.type b)).
  pose proof (Hm "prompt" (Body.prompt b)).
  pose proof (json_member_length_ge "data" (json_string_length (Body.data b))).
  unfold json_string_length in *. lia.
Qed.

(** The body of a video is over the limit as soon as the encoded bytes
    alone are. *)
Lemma long_video_over_limit :
  forall blob kind p text cited,
    Server.json_limit < Z.of_nat (String.length (base64 blob)) ->
    Server.within_limit
      {| Body.type := kind; Body.data := readAsDataURL blob;
         Body.prompt := p; Body.text := text; Body.sources := cited |}
    = false.
Proof.
  intros blob kind p text cited H. unfold Server.within_limit.
  apply Z.leb_gt.
  eapply Z.lt_le_trans; [|apply content_length_data].
  cbn [Body.data]. unfold readAsDataURL.
  rewrite !json_chars_length_app.
  pose proof (json_chars_length_ge (base64 blob)).
  pose proof (json_chars_length_ge (contentType blob)).
  pose proof (json_chars_length_ge "data:").
  pose proof (json_chars_length_ge ";base64,").
  lia.
Qed.

Lemma generation_video_posts :
  forall e st w waiting finished link blob,
    mode st = video_gen ->
    truthy (prompt st) = true ->
    truthy_opt (GEMINI_API_KEY e) = true ->
    reports_done_after e waiting finished ->
    videoUri finished = Some link ->
    truthy link = true ->
    download_reply e = Resolved (true, blob) ->
    let body :=
      {| Body.type := "video"; Body.data := readAsDataURL blob;
         Body.prompt := prompt st; Body.text := None;
         Body.sources := None |} in
    exists w2,
      generation e st w = saveResult e body st w2
      /\ db w2 = db w
      /\ filter store_call (calls w2) = filter store_call (calls w).
Proof.
  intros e st w waiting finished link blob Hm Hp Hk Hr Hlink Ht Hd body.
  unfold generation. rewrite Hk. cbn [negb].
  rewrite (dispatch_video e st Hm).
  unfold bind.
  rewrite (generateVideo_after_download e _ _ _ w waiting finished link
             Hr Hlink Ht).
  rewrite Hd. unfold ret at 1. cbn [resultUrl resultText present
    truthy_opt negb andb orb]. rewrite Hm.
  rewrite (materialize_object_url (objectURL_id e) blob (logged _ w)).
  unfold prompt_label. unfold or_else. rewrite Hp.
  cbn [resultType resultText resultSources].
  fold body.
  eexists. split; [reflexivity|]. split; [reflexivity|].
  unfold logged. cbn [calls].
  change (GenerateVideos ?k ?r :: ?l) with ([GenerateVideos k r] ++ l).
  rewrite !filter_app. cbn [filter store_call app].
  assert (Hq : forall k l, filter store_call (poll_rounds k l) = []).
  { intros k l. induction l as [|h l IH]; [reflexivity|exact IH]. }
  rewrite Hq. cbn. now rewrite !app_nil_r.
Qed.

(** X14.  A video run from end to end: in video mode, with a key in the
    environment, a provider that reports [done] with a video URI, a download
    answered ok and a store that answers, [handleGenerate] posts one body of
    type "video" whose data is the data URL of the bytes downloaded, not the
    object URL, and shows no error.  When that body is within the limit of
    [express.json], one row with this data is added and the same entry goes
    in front of the list, the prompt cleared.  When it is over the limit, as
    it is whenever the encoded bytes alone are longer than the limit, the
    table, the list and the prompt stay as they were: the video is lost
    without a word. *)
Theorem video_is_stored_as_data_url :
  forall e st w waiting finished link blob,
    mode st = video_gen ->
    reaches_generation e st = true ->
    truthy_opt (GEMINI_API_KEY e) = true ->
    reports_done_after e waiting finished ->
    videoUri finished = Some link ->
    truthy link = true ->
    download_reply e = Resolved (true, blob) ->
    history_reachable e = true ->
    Server.faulty (db w) = false ->
    Server.seq (db w) < Server.max_rowid ->
    let body :=
      {| Body.type := "video"; Body.data := readAsDataURL blob;
         Body.prompt := prompt st; Body.text := None;
         Body.sources := None |} in
    let run := handleGenerate e st w in
    filter store_call (calls (fst run))
    = filter store_call (calls w) ++ [HistoryPost body]
    /\ error (snd run) = None
    /\ isGenerating (snd run) = false
    /\ (Server.within_limit body = true ->
        Server.history (db (fst run))
        = Server.history (db w)
          ++ [row_of (Server.seq (db w) + 1) (CURRENT_TIMESTAMP e) body]
        /\ results (snd run)
           = saved_as (as_double (Server.seq (db w) + 1)) body :: results st
        /\ prompt (snd run) = "")
    /\ (Server.within_limit body = false ->
        db (fst run) = db w
        /\ results (snd run) = results st
        /\ prompt (snd run) = prompt st)
    /\ (Server.json_limit < Z.of_nat (String.length (base64 blob)) ->
        Server.within_limit body = false).
Proof.
  intros e st w waiting finished link blob Hm Hreach Hk Hr Hlink Ht Hd He Hf
    Hs body run. subst run.
  rewrite (handleGenerate_reaches e st w Hreach).
  destruct (entering_try_frame e st w) as (Fdb & _ & Fres & Fmode & Fprompt).
  destruct (entering_try_inputs e st w) as (Fcalls & _ & _).
  set (w0 := fst (entering_try e st w)) in *.
  set (st1 := snd (entering_try e st w)) in *.
  assert (Hp : truthy (prompt st) = true).
  { unfold reaches_generation, missing_required_input in Hreach.
    rewrite Hm in Hreach. apply andb_true_iff in Hreach as [Hreach _].
    now apply negb_true_iff, negb_false_iff in Hreach. }
  assert (Ha : accepted body = true) by (unfold accepted; cbn; now rewrite Hp).
  unfold generate_and_settle.
  set (st0 := setError None (setIsGenerating true st1)).
  destruct (generation_video_posts e st0 w0 waiting finished link blob)
    as (w2 & Hgen & Hdb & Hcalls); try assumption;
    try (cbn; congruence).
  cbn [prompt st0 setError setIsGenerating] in Hgen.
  rewrite Fprompt in Hgen. fold body in Hgen. rewrite Hgen.
  assert (Hdb2 : db w2 = db w) by congruence.
  assert (Hcalls2 : filter store_call (calls w2) = filter store_call (calls w))
    by congruence.
  destruct (Server.within_limit body) eqn:Hl.
  - rewrite (saveResult_accepted e body st0 w2 He)
      by (rewrite ?Hdb2; assumption).
    cbn [fst snd db calls results prompt error isGenerating Server.history
         setIsGenerating setRecordedAudio setPrompt setResults setError st0].
    rewrite Hdb2, Fres, filter_app, Hcalls2. cbn [filter store_call].
    repeat split; try reflexivity; try discriminate.
    intros Hlong.
    pose proof (long_video_over_limit blob "video" (prompt st) None None
                  Hlong) as Hover.
    change (Server.within_limit body = false) in Hover. congruence.
  - rewrite (saveResult_over_limit e body st0 w2 He Hl).
    unfold logged.
    cbn [fst snd db calls results prompt error isGenerating
         setIsGenerating setError st0].
    rewrite Hdb2, Fres, Fprompt, filter_app, Hcalls2. cbn [filter store_call].
    repeat split; try reflexivity; discriminate.
Qed.

Lemma video_is_stored_as_data_url_witness :
  let e := Stub.with_video (Resolved Stub.waiting_operation)
             [Resolved (Stub.finished_operation (Some "https://veo/v1.mp4"))]
             (Resolved (true, Stub.video_blob)) in
  let run := handleGenerate e (Stub.state video_gen "a kite over dunes")
               Stub.world in
  map Server.data (Server.history (db (fst run)))
  = ["data:video/mp4;base64,AAAAIGZ0eXBpc29t"]
  /\ map Result.url (results (snd run))
     = ["data:video/mp4;base64,AAAAIGZ0eXBpc29t"]
  /\ prompt (snd run) = "".
Proof.
  cbv zeta.
  destruct (video_is_stored_as_data_url
              (Stub.with_video (Resolved Stub.waiting_operation)
                 [Resolved (Stub.finished_operation
                              (Some "https://veo/v1.mp4"))]
                 (Resolved (true, Stub.video_blob)))
              (Stub.state video_gen "a kite over dunes") Stub.world
              [Stub.waiting_operation]
              (Stub.finished_operation (Some "https://veo/v1.mp4"))
              "https://veo/v1.mp4" Stub.video_blob)
    as (_ & _ & _ & Hstored & _); try reflexivity.
  - unfold reports_done_after. repeat split.
    + repeat constructor.
    + exists []. reflexivity.
  - destruct (Hstored eq_refl) as (Hdb & Hres & Hprompt).
    rewrite Hdb, Hres. split; [reflexivity|]. split; [reflexivity|].
    exact Hprompt.
Defined.

(** ** What a run of [handleGenerate] sends to the store *)

Lemma generateVideo_object_url :
  forall e prompt ratio seed w w' u,
    Gemini.generateVideo e prompt ratio seed w = (w', Resolved (Some u)) ->
    u = ("blob:" ++ objectURL_id e)%string.
Proof.
  intros e prompt ratio seed w w' u H.
  unfold Gemini.generateVideo, try_catch in H.
  destruct (Gemini.generateVideo_try e (Gemini.getApiKey e) prompt ratio seed w)
    as [w1 [res|m|]] eqn:Htry.
  - inversion H; subst. clear H.
    unfold Gemini.generateVideo_try, bind, call, await in Htry.
    destruct (generateVideos_reply e) as [issued|m|]; try discriminate Htry.
    destruct (Gemini.poll _ _ _ _) as [w2 [op|m|]]; try discriminate Htry.
    destruct (negb (truthy_opt (videoUri op))); [discriminate Htry|].
    destruct (download_reply e) as [[okay blob]|m|]; try discriminate Htry.
    destruct okay; cbn in Htry; [|discriminate Htry].
    now inversion Htry.
  - unfold bind, console_error in H.
    destruct (includes m "Requested entity was not found"); discriminate H.
  - discriminate H.
Qed.

Lemma first_inline_data_truthy :
  forall ps u, Gemini.first_inline_data ps = Some u -> truthy u = true.
Proof.
  induction ps as [|p ps IH]; intros u H; cbn in H; [discriminate|].
  destruct (inlineData p); [|now apply IH].
  inversion H. reflexivity.
Qed.

(** What the chain of [handleGenerate] leaves behind, outside research and
    summarize: a non-empty type, and an asset that is not the empty
    string whenever there is an asset or a text at all. *)
Lemma dispatch_asset :
  forall e st w w' g,
    dispatch e st w = (w', Resolved g) ->
    truthy (resultType g) = true
    /\ (mode st <> research -> mode st <> summarize ->
        present (resultUrl g) || truthy_opt (resultText g) = true ->
        exists u, resultUrl g = Some u /\ truthy u = true).
Proof.
  intros e st w w' g H.
  destruct (mode st) eqn:Hm.
  2:{ rewrite (dispatch_video e st Hm) in H. unfold bind in H.
      destruct (Gemini.generateVideo _ _ _ _ _) as [w1 [[u|]|m|]] eqn:Hv;
        inversion H; subst; cbn; (split; [reflexivity|]); intros _ _ Hp;
        [|discriminate Hp].
      exists u. split; [reflexivity|].
      now rewrite (generateVideo_object_url _ _ _ _ _ _ _ Hv). }
  all: unfold dispatch, Gemini.editImage, Gemini.analyzeImage,
      Gemini.generateSpeech, Gemini.transcribeAudio, Gemini.generateImage,
      Gemini.researchWithSearch, Gemini.summarizeUrl, Gemini.log_and_rethrow,
      Gemini.ai_generateContent, try_catch, bind, call, await, console_error,
      ret, throw in H; rewrite Hm in H;
    destruct (uploadedImage st), (recordedAudio st),
      (generateContent_reply e) as [response|message|];
    cbn in H; try discriminate H.
  all: try (inversion H; subst; cbn; split; [reflexivity|];
            intros Hr Hs Hp;
            first
              [ congruence
              | discriminate Hp
              | eexists; split; reflexivity
              | destruct (Gemini.first_inline_data (parts response)) as [u|]
                  eqn:Hu; [|discriminate Hp];
                exists u; split; [reflexivity|];
                now apply (first_inline_data_truthy _ _ Hu) ]).
  all: match goal with
       | H : context [if ?c then _ else _] |- _ =>
           destruct c; inversion H; subst; cbn; (split; [reflexivity|]);
           intros _ _ Hp; first [discriminate Hp | eexists; split; reflexivity]
       end.
Qed.

Lemma materialize_truthy :
  forall m u w w' d,
    truthy u = true ->
    materialize m (Some u) w = (w', Resolved d) -> truthy d = true.
Proof.
  intros m u w w' d Hu H. unfold materialize in H.
  cbn [opt_or_else truthy_opt] in H. unfold or_else in H. rewrite Hu in H.
  destruct m; try (inversion H; subst; exact Hu).
  cbn [andb] in H. destruct (startsWith u "blob:").
  - unfold fetch_blob, bind, call, ret in H.
    destruct (lookup_blob _ _) in H; inversion H; subst. reflexivity.
  - inversion H; subst. exact Hu.
Qed.

Lemma prompt_label_truthy : forall st, truthy (prompt_label st) = true.
Proof.
  intros st. unfold prompt_label, or_else.
  destruct (truthy (prompt st)) eqn:Hp; [exact Hp|].
  destruct (mode st); reflexivity.
Qed.

(** The [try] block either ends before it reaches the store, or posts one
    body built as the source builds it. *)
Lemma generation_cases :
  forall e st w w' r,
    generation e st w = (w', r) ->
    (same_store w w' /\ forall st', r <> Resolved st')
    \/ exists w2 body,
         same_store w w2
         /\ saveResult e body st w2 = (w', r)
         /\ truthy (Body.type body) = true
         /\ truthy (Body.prompt body) = true
         /\ (mode st <> research -> mode st <> summarize ->
             truthy (Body.data body) = true).
Proof.
  intros e st w w' r H. unfold generation in H.
  destruct (negb (truthy_opt (GEMINI_API_KEY e)));
    [inversion H; subst; left; split;
     [apply same_store_refl|discriminate]|].
  unfold bind in H.
  destruct (dispatch e st w) as [w1 [g|m|]] eqn:Hd;
    pose proof (quiet_dispatch e st w w1 _ Hd) as Q1;
    try (inversion H; subst; left; split; [exact Q1|discriminate]).
  destruct (dispatch_asset e st w w1 g Hd) as [Htype Hasset].
  destruct (negb (present (resultUrl g)) && negb (truthy_opt (resultText g)))
    eqn:Hnone;
    [inversion H; subst; left; split; [exact Q1|discriminate]|].
  assert (Hsome : present (resultUrl g) || truthy_opt (resultText g) = true).
  { destruct (present (resultUrl g)), (truthy_opt (resultText g));
      try reflexivity; discriminate Hnone. }
  rewrite Hsome in H.
  destruct (materialize (mode st) (resultUrl g) w1) as [w2 [d|m|]] eqn:Hmat;
    pose proof (quiet_materialize _ _ w1 w2 _ Hmat) as Q2;
    try (inversion H; subst; left; split;
         [eapply same_store_trans; eassumption|discriminate]).
  right. exists w2. eexists. split; [eapply same_store_trans; eassumption|].
  split; [exact H|]. cbn. split; [exact Htype|].
  split; [apply prompt_label_truthy|].
  intros Hr Hs. destruct (Hasset Hr Hs Hsome) as (u & Hu & Htu).
  rewrite Hu in Hmat. eapply materialize_truthy; eassumption.
Qed.

Lemma saveResult_cases :
  forall e body st w w' r,
    saveResult e body st w = (w', r) ->
    calls w' = calls w ++ [HistoryPost body]
    /\ ((db w' = db w /\ forall st', r = Resolved st' -> st' = st)
        \/ (accepted body = true
            /\ Server.within_limit body = true
            /\ Server.history (db w')
               = Server.history (db w)
                 ++ [row_of (Server.seq (db w) + 1) (CURRENT_TIMESTAMP e) body]
            /\ r = Resolved
                     (setRecordedAudio None
                        (setPrompt ""
                           (setResults
                              (saved_as (as_double (Server.seq (db w) + 1))
                                 body :: results st) st))))).
Proof.
  intros e body st w w' r H.
  unfold saveResult, fetch_history, bind, call in H. cbn in H.
  destruct (history_reachable e).
  - unfold Server.post, Server.post_history, accepted in *.
    destruct (Server.within_limit body), (truthy (Body.type body)),
      (truthy (Body.data body)), (truthy (Body.prompt body)),
      (Server.faulty (db w)), (Server.max_rowid <=? Server.seq (db w));
      cbn in H; inversion H; subst; cbn; split; try reflexivity;
      try (left; split; [reflexivity|intros st' Hs; now inversion Hs]).
    right. repeat split.
  - inversion H; subst. split; [reflexivity|]. left.
    split; [reflexivity|discriminate].
Qed.

(** X15.  Outside research and summarize mode, every body
    [handleGenerate] posts passes the server's check of the required fields:
    its type, its data and its prompt are all non-empty. *)
Theorem media_bodies_pass_the_check :
  forall e st w b,
    mode st <> research ->
    mode st <> summarize ->
    In (HistoryPost b) (calls (fst (handleGenerate e st w))) ->
    In (HistoryPost b) (calls w) \/ accepted b = true.
Proof.
  intros e st w b Hr Hs Hin.
  assert (Hnet : forall l, In (HistoryPost b) (filter network_call l)
                           <-> In (HistoryPost b) l).
  { intros l. rewrite filter_In. tauto. }
  destruct (reaches_generation e st) eqn:Hreach.
  - rewrite (handleGenerate_reaches e st w Hreach) in Hin.
    destruct (entering_try_frame e st w) as (_ & Hcalls & _ & Hmode & _).
    unfold generate_and_settle in Hin.
    destruct (generation e _ (fst (entering_try e st w))) as [w' r] eqn:Hg.
    assert (Hin' : In (HistoryPost b) (calls w'))
      by (destruct r; exact Hin).
    destruct (generation_cases _ _ _ _ _ Hg)
      as [[Q _]|(w2 & body & Q & Hsave & Ht & Hp & Hd)].
    + left. apply Hnet. rewrite <- Hcalls. apply Hnet.
      eapply same_store_posts; eassumption.
    + apply saveResult_cases in Hsave as [Hc _]. rewrite Hc in Hin'.
      apply in_app_or in Hin' as [Hin'|[Hin'|[]]].
      * left. apply Hnet. rewrite <- Hcalls. apply Hnet.
        eapply same_store_posts; eassumption.
      * right. inversion Hin'; subst. unfold accepted.
        rewrite Ht, Hp, Hd; [reflexivity| |]; cbn; congruence.
  - destruct (handleGenerate_stops e st w Hreach) as (_ & Hcalls & _).
    left. apply Hnet. rewrite <- Hcalls. now apply Hnet.
Qed.

Lemma media_bodies_pass_the_check_witness :
  let e := Stub.with_video (Resolved Stub.waiting_operation)
             [Resolved (Stub.finished_operation (Some "https://veo/v1.mp4"))]
             (Resolved (true, Stub.video_blob)) in
  let b := {| Body.type := "video";
              Body.data := "data:video/mp4;base64,AAAAIGZ0eXBpc29t";
              Body.prompt := "a kite over dunes"; Body.text := None;
              Body.sources := None |} in
  In (HistoryPost b)
    (calls (fst (handleGenerate e (Stub.state video_gen "a kite over dunes")
                   Stub.world)))
  /\ accepted b = true.
Proof.
  cbv zeta.
  assert (Hin : In (HistoryPost
                      {| Body.type := "video";
                         Body.data := "data:video/mp4;base64,AAAAIGZ0eXBpc29t";
                         Body.prompt := "a kite over dunes";
                         Body.text := None; Body.sources := None |})
                  (calls (fst (handleGenerate
                                 (Stub.with_video
                                    (Resolved Stub.waiting_operation)
                                    [Resolved (Stub.finished_operation
                                                 (Some "https://veo/v1.mp4"))]
                                    (Resolved (true, Stub.video_blob)))
                                 (Stub.state video_gen "a kite over dunes")
                                 Stub.world)))).
  { cbn. repeat (first [left; reflexivity | right]). }
  split; [exact Hin|].
  assert (Hr : mode (Stub.state video_gen "a kite over dunes") <> research)
    by discriminate.
  assert (Hs : mode (Stub.state video_gen "a kite over dunes") <> summarize)
    by discriminate.
  destruct (media_bodies_pass_the_check _ _ _ _ Hr Hs Hin) as [[]|H].
  exact H.
Defined.

(** X16.  A run of [handleGenerate] makes at most one call to the store,
    a POST, and list and table move together: either the table and the list
    are both as before, or the server accepted the body, the table has
    exactly one more row, last, and the list has the matching entry in
    front, with the prompt and the recording cleared and no error shown.
    No run removes or rewrites a row. *)
Theorem stored_and_shown_together :
  forall e st w,
    let run := handleGenerate e st w in
    (filter store_call (calls (fst run)) = filter store_call (calls w)
     \/ exists b, filter store_call (calls (fst run))
                  = filter store_call (calls w) ++ [HistoryPost b])
    /\ ((db (fst run) = db w /\ results (snd run) = results st)
        \/ exists body,
             accepted body = true
             /\ Server.within_limit body = true
             /\ filter store_call (calls (fst run))
                = filter store_call (calls w) ++ [HistoryPost body]
             /\ Server.history (db (fst run))
                = Server.history (db w)
                  ++ [{| Server.id := Server.seq (db w) + 1;
                         Server.type := Body.type body;
                         Server.data := Body.data body;
                         Server.prompt := Body.prompt body;
                         Server.text := Body.text body;
                         Server.sources :=
                           option_map JSON_stringify (Body.sources body);
                         Server.timestamp := CURRENT_TIMESTAMP e |}]
             /\ results (snd run)
                = saved_as (as_double (Server.seq (db w) + 1)) body
                  :: results st
             /\ prompt (snd run) = ""
             /\ recordedAudio (snd run) = None
             /\ error (snd run) = None
             /\ isGenerating (snd run) = false).
Proof.
  intros e st w run. subst run.
  destruct (reaches_generation e st) eqn:Hreach.
  2:{ destruct (handleGenerate_stops e st w Hreach) as (Hdb & Hcalls & Hres).
      assert (Hs : filter store_call (calls (fst (handleGenerate e st w)))
                   = filter store_call (calls w)).
      { unfold reaches_generation, missing_required_input,
          credential_selected in Hreach.
        unfold handleGenerate, Gemini.openVeoKeyDialog, Gemini.checkVeoKey.
        case_inputs st e; cbn in Hreach; try discriminate Hreach; cbn;
          rewrite ?filter_app; cbn; rewrite ?app_nil_r; reflexivity. }
      split; [now left|]. left. now split. }
  rewrite (handleGenerate_reaches e st w Hreach).
  destruct (entering_try_frame e st w) as (Fdb & _ & Fres & _ & _).
  destruct (entering_try_inputs e st w) as (Fcalls & _ & _).
  set (w0 := fst (entering_try e st w)) in *.
  set (st1 := snd (entering_try e st w)) in *.
  unfold generate_and_settle.
  set (st0 := setError None (setIsGenerating true st1)).
  destruct (generation e st0 w0) as [w' r] eqn:Hg.
  destruct (generation_cases _ _ _ _ _ Hg)
    as [[[Qdb Qcalls] Hr]|(w2 & body & [Qdb Qcalls] & Hsave & _)].
  - assert (Hres : results (snd (match r with
                                  | Resolved st' => (w', setIsGenerating false st')
                                  | Rejected message =>
                                      (w', setIsGenerating false
                                             (if (message =? "API_KEY_EXPIRED")%string
                                              then setError (Some expired_message)
                                                     (setHasKey false st0)
                                              else setError (Some failed_message) st0))
                                  | Pending => (w', st0)
                                  end)) = results st).
    { destruct r as [st'|m|]; [now elim (Hr st')| |]; cbn; [|exact Fres].
      destruct (m =? "API_KEY_EXPIRED")%string; cbn; exact Fres. }
    assert (Hw : fst (match r with
                      | Resolved st' => (w', setIsGenerating false st')
                      | Rejected message =>
                          (w', setIsGenerating false
                                 (if (message =? "API_KEY_EXPIRED")%string
                                  then setError (Some expired_message)
                                         (setHasKey false st0)
                                  else setError (Some failed_message) st0))
                      | Pending => (w', st0)
                      end) = w') by (destruct r; reflexivity).
    rewrite Hw, Hres. split; [left; congruence|]. left. split; congruence.
  - destruct (saveResult_cases _ _ _ _ _ _ Hsave)
      as [Hc [[Hdb Hst]|(Ha & Hl & Hhist & Hr)]].
    + assert (Hcalls : filter store_call (calls w')
                       = filter store_call (calls w) ++ [HistoryPost body]).
      { rewrite Hc, filter_app. cbn. congruence. }
      assert (Hres : forall x,
                 x = match r with
                     | Resolved st' => (w', setIsGenerating false st')
                     | Rejected message =>
                         (w', setIsGenerating false
                                (if (message =? "API_KEY_EXPIRED")%string
                                 then setError (Some expired_message)
                                        (setHasKey false st0)
                                 else setError (Some failed_message) st0))
                     | Pending => (w', st0)
                     end ->
                 fst x = w' /\ results (snd x) = results st).
      { intros x ->. destruct r as [st'|m|]; cbn.
        - rewrite (Hst st' eq_refl). now split.
        - destruct (m =? "API_KEY_EXPIRED")%string; cbn; now split.
        - now split. }
      destruct (Hres _ eq_refl) as [Hw Hr]. rewrite Hw, Hr.
      split; [right; now exists body|]. left. split; congruence.
    + subst r. cbn [fst snd].
      assert (Hcalls : filter store_call (calls w')
                       = filter store_call (calls w) ++ [HistoryPost body]).
      { rewrite Hc, filter_app. cbn. congruence. }
      split; [right; now exists body|]. right. exists body.
      split; [exact Ha|]. split; [exact Hl|]. split; [exact Hcalls|].
      rewrite Qdb, Fdb in Hhist. split; [exact Hhist|].
      cbn. rewrite Qdb, Fdb, Fres. repeat split.
Qed.

Lemma stored_and_shown_together_witness :
  let upload := {| data := "iVBORw0KGgo="; mimeType := "image/png" |} in
  let st :=
    {| mode := analyze; prompt := ""; uploadedImage := Some upload;
       isGenerating := false; results := []; error := None; hasKey := false;
       aspectRatio := Ratio_16_9; recordedAudio := None |} in
  let run := handleGenerate Stub.env st Stub.world in
  exists body,
    accepted body = true
    /\ results (snd run) = [saved_as 1 body]
    /\ Body.prompt body = "Image Analysis"
    /\ Body.text body = Some "No analysis generated.".
Proof.
  cbv zeta.
  destruct (stored_and_shown_together Stub.env
              {| mode := analyze; prompt := "";
                 uploadedImage :=
                   Some {| data := "iVBORw0KGgo="; mimeType := "image/png" |};
                 isGenerating := false; results := []; error := None;
                 hasKey := false; aspectRatio := Ratio_16_9;
                 recordedAudio := None |} Stub.world)
    as [_ [[Hdb _]|(body & Ha & _ & Hcalls & _ & Hres & _)]].
  - discriminate Hdb.
  - exists body. split; [exact Ha|]. split; [exact Hres|].
    cbn in Hcalls. inversion Hcalls. split; reflexivity.
Defined.

(** X17.  When the provider answers but no part of the answer carries
    inline data, image generation, image editing and speech end with the
    generic failure message: nothing is posted, the table and the list are
    as before, and nothing is written to the console. *)
Theorem no_asset_is_generic_failure :
  forall e st w response,
    mode st = generate_image \/ mode st = image_edit \/ mode st = speech ->
    reaches_generation e st = true ->
    truthy_opt (GEMINI_API_KEY e) = true ->
    generateContent_reply e = Resolved response ->
    Forall (fun p => inlineData p = None) (parts response) ->
    let run := handleGenerate e st w in
    error (snd run) = Some failed_message
    /\ isGenerating (snd run) = false
    /\ results (snd run) = results st
    /\ db (fst run) = db w
    /\ filter store_call (calls (fst run)) = filter store_call (calls w)
    /\ console (fst run) = console w.
Proof.
  intros e st w response Hm Hreach Hk Hreply Hparts run. subst run.
  rewrite (handleGenerate_reaches e st w Hreach).
  pose proof (proj2 (first_inline_data_none (parts response)) Hparts) as Hnone.
  assert (Hspeech : match parts response with
                    | p :: _ => option_map data (inlineData p)
                    | [] => None
                    end = None).
  { destruct (parts response) as [|p ps]; [reflexivity|].
    inversion Hparts as [|? ? Hp _]; subst. now rewrite Hp. }
  unfold reaches_generation, missing_required_input in Hreach.
  unfold entering_try, generate_and_settle, generation, dispatch.
  cbn [mode prompt uploadedImage recordedAudio setError setIsGenerating].
  rewrite Hk. cbn [negb].
  unfold Gemini.generateImage, Gemini.editImage, Gemini.generateSpeech,
    Gemini.log_and_rethrow, Gemini.ai_generateContent, try_catch, bind, call,
    await, console_error, ret, throw.
  rewrite Hreply.
  destruct Hm as [Hm|[Hm|Hm]]; rewrite Hm in *; cbn [fst snd];
    cbn [mode prompt uploadedImage recordedAudio setError setIsGenerating];
    rewrite ?Hm.
  - rewrite Hnone. cbn. rewrite filter_app. cbn. rewrite app_nil_r.
    repeat split.
  - destruct (uploadedImage st) as [img|]; [|discriminate Hreach].
    rewrite Hnone. cbn. rewrite filter_app. cbn. rewrite app_nil_r.
    repeat split.
  - rewrite Hspeech. cbn. rewrite filter_app. cbn. rewrite app_nil_r.
    repeat split.
Qed.

Lemma no_asset_is_generic_failure_witness :
  let run := handleGenerate Stub.env (Stub.state generate_image "a red kite")
               Stub.world in
  error (snd run) = Some "Generation failed. Please try again."
  /\ results (snd run) = []
  /\ console (fst run) = [].
Proof.
  cbv zeta.
  destruct (no_asset_is_generic_failure Stub.env
              (Stub.state generate_image "a red kite") Stub.world
              Stub.response (or_introl eq_refl) eq_refl eq_refl eq_refl
              (Forall_nil _))
    as (Herr & _ & Hres & _ & _ & Hcon).
  split; [exact Herr|]. split; [exact Hres | exact Hcon].
Defined.

(** ** [clearHistory] *)

Lemma filter_filter :
  forall A (f g : A -> bool) l,
    filter f (filter g l) = filter (fun x => g x && f x) l.
Proof.
  induction l as [|x l IH]; cbn; [reflexivity|].
  destruct (g x); cbn; [|exact IH]. destruct (f x); now rewrite IH.
Qed.

Lemma clear_each_answered :
  forall e items w,
    history_reachable e = true ->
    Server.faulty (db w) = false ->
    clear_each e items w
    = ({| db := {| Server.history :=
                     filter (fun r => negb (among (requested items) r))
                       (Server.history (db w));
                   Server.seq := Server.seq (db w);
                   Server.faulty := false |};
          blobs := blobs w; console := console w;
          calls := calls w ++ map HistoryDelete (requested items) |},
       Resolved tt).
Proof.
  intros e items. induction items as [|item items IH]; intros w He Hf.
  - cbn. unfold ret. f_equal. destruct w as [[h s f] b c l]. cbn in *.
    subst f. rewrite app_nil_r. f_equal. f_equal.
    symmetry. apply filter_all. reflexivity.
  - cbn [clear_each requested flat_map].
    destruct (Result.id item) as [i|]; [|now apply IH].
    destruct (i =? 0); [now apply IH|].
    unfold fetch_history, call, bind. rewrite He. cbv beta.
    cbn [db blobs console calls]. unfold Server.delete_history. rewrite Hf.
    rewrite IH by (cbn; auto). cbn.
    rewrite filter_filter, <- app_assoc. cbn.
    f_equal. f_equal. f_equal. apply filter_ext. intros r.
    unfold among. cbn. now rewrite negb_orb.
Qed.

Lemma clear_each_refused :
  forall e items w,
    history_reachable e = true ->
    Server.faulty (db w) = true ->
    clear_each e items w
    = (logged (map HistoryDelete (requested items)) w, Resolved tt).
Proof.
  intros e items. induction items as [|item items IH]; intros w He Hf.
  - cbn. unfold ret. now rewrite logged_nil.
  - cbn [clear_each requested flat_map].
    destruct (Result.id item) as [i|]; [|now apply IH].
    destruct (i =? 0); [now apply IH|].
    unfold fetch_history, call, bind. rewrite He. cbv beta.
    cbn [db blobs console calls]. unfold Server.delete_history. rewrite Hf.
    rewrite IH by (cbn; auto). unfold logged. cbn.
    now rewrite <- app_assoc.
Qed.

Lemma clear_each_unreachable :
  forall e items w,
    history_reachable e = false ->
    clear_each e items w
    = match requested items with
      | [] => (w, Resolved tt)
      | i :: _ => (logged [HistoryDelete i] w, Rejected "Failed to fetch")
      end.
Proof.
  intros e items. induction items as [|item items IH]; intros w He.
  - reflexivity.
  - cbn [clear_each requested flat_map].
    destruct (Result.id item) as [i|]; [|now apply IH].
    destruct (i =? 0); [now apply IH|].
    unfold fetch_history, call, bind. rewrite He. reflexivity.
Qed.

(** X18.  Confirmed, with a store that answers: [clearHistory] asks for one
    deletion per entry that has a non-zero identifier, in the order of the
    list, and empties the list; afterwards the table holds exactly the rows
    whose identifier the list did not show. *)
Theorem clearHistory_clears_what_is_shown :
  forall e st w,
    history_reachable e = true ->
    Server.faulty (db w) = false ->
    let run := clearHistory true e st w in
    results (snd run) = []
    /\ calls (fst run) = calls w ++ map HistoryDelete (requested (results st))
    /\ (forall r, In r (Server.history (db (fst run)))
                  <-> In r (Server.history (db w))
                      /\ ~ In (Server.id r) (requested (results st)))
    /\ error (snd run) = error st.
Proof.
  intros e st w He Hf run. subst run.
  unfold clearHistory, try_catch, bind. cbn [negb].
  rewrite (clear_each_answered e (results st) w He Hf). cbn.
  split; [reflexivity|]. split; [reflexivity|]. split; [|reflexivity].
  intros r. rewrite filter_In.
  assert (Hx : among (requested (results st)) r = true
               <-> In (Server.id r) (requested (results st))).
  { unfold among. rewrite existsb_exists. split.
    - intros (i & Hi & Heq). apply Z.eqb_eq in Heq. now subst i.
    - intros Hin. exists (Server.id r). split; [exact Hin|apply Z.eqb_refl]. }
  rewrite negb_true_iff, <- Hx.
  destruct (among (requested (results st)) r); intuition congruence.
Qed.

Lemma clearHistory_clears_what_is_shown_witness :
  let st := Stub.showing [Stub.entry 1 "first"] in
  let w := fst (create Stub.env (Stub.image_body "second")
                  (create Stub.env (Stub.image_body "first")
                     (Stub.world, Stub.showing []))) in
  let run := clearHistory true Stub.env st w in
  Server.ids (db w) = [1; 2]
  /\ results (snd run) = []
  /\ Server.ids (db (fst run)) = [2].
Proof.
  cbv zeta. split; [reflexivity|].
  destruct (clearHistory_clears_what_is_shown Stub.env
              (Stub.showing [Stub.entry 1 "first"])
              (fst (create Stub.env (Stub.image_body "second")
                      (create Stub.env (Stub.image_body "first")
                         (Stub.world, Stub.showing []))))
              eq_refl eq_refl) as (Hres & _).
  split; [exact Hres | reflexivity].
Defined.

(** X19.  [clearHistory] does not look at what the store answers.  When
    every deletion is answered 500 the list is emptied all the same, while
    the table keeps all its rows.  When the store cannot be reached, the
    first deletion asked for is the only call made: the list, the table and
    the error field stay as they were and one line goes to the console.
    Declined at the prompt, nothing happens at all. *)
Theorem clearHistory_ignores_answers :
  forall e st w,
    (history_reachable e = true -> Server.faulty (db w) = true ->
     let run := clearHistory true e st w in
     results (snd run) = []
     /\ db (fst run) = db w
     /\ error (snd run) = error st
     /\ console (fst run) = console w)
    /\ (forall i rest,
          history_reachable e = false ->
          requested (results st) = i :: rest ->
          clearHistory true e st w
          = ({| db := db w; blobs := blobs w;
                console := console w ++ ["Failed to clear history:"];
                calls := calls w ++ [HistoryDelete i] |}, st))
    /\ clearHistory false e st w = (w, st).
Proof.
  intros e st w. split; [|split]; [| |reflexivity].
  - intros He Hf run. subst run.
    unfold clearHistory, try_catch, bind. cbn [negb].
    rewrite (clear_each_refused e (results st) w He Hf). cbn.
    repeat split.
  - intros i rest He Hreq.
    unfold clearHistory, try_catch, bind. cbn [negb].
    rewrite (clear_each_unreachable e (results st) w He), Hreq.
    reflexivity.
Qed.

Lemma clearHistory_ignores_answers_witness :
  let st := Stub.showing [Stub.entry 5 "kept in the table"] in
  let run := clearHistory true Stub.env st Stub.broken_world in
  results (snd run) = [] /\ db (fst run) = db Stub.broken_world.
Proof.
  cbv zeta.
  destruct (clearHistory_ignores_answers Stub.env
              (Stub.showing [Stub.entry 5 "kept in the table"])
              Stub.broken_world) as (H & _).
  destruct (H eq_refl eq_refl) as (Hres & Hdb & _).
  split; [exact Hres | exact Hdb].
Defined.

(** ** [handleUpscale] *)

Lemma upscaleImage_answered :
  forall e base64 mime w response,
    generateContent_reply e = Resolved response ->
    upscaleImage e base64 mime w
    = (logged [GenerateContent (Gemini.getApiKey e)
                 {| model := "gemini-2.5-flash-image";
                    contents :=
                      [InlineData {| data := base64; mimeType := mime |};
                       Text upscale_instruction];
                    tools := [];
                    imageAspectRatio := Some "1:1";
                    voiceName := None |}] w,
       Resolved (Gemini.first_inline_data (parts response))).
Proof.
  intros e base64 mime w response H.
  unfold upscaleImage, Gemini.log_and_rethrow, Gemini.ai_generateContent,
    try_catch, bind, call, await. rewrite H. reflexivity.
Qed.

(** X20.  [handleUpscale] does nothing at all for a result that is neither
    an image nor an analysis.  For one that is, when the provider's answer
    carries no inline data nothing is saved and, unlike in
    [handleGenerate], no error is shown either; when the provider rejects
    the call the error shown is "Upscaling failed. Please try again." and
    the console gets the line of the gateway and the line of the handler. *)
Theorem handleUpscale_without_result :
  forall e result st w,
    (upscalable result = false ->
     handleUpscale e result st w = Some (w, st))
    /\ (upscalable result = true ->
        forall base64 mime,
          payload_of (Result.url result) = Some base64 ->
          mime_of (Result.url result) = Some mime ->
          (forall response,
              generateContent_reply e = Resolved response ->
              Forall (fun p => inlineData p = None) (parts response) ->
              exists w',
                handleUpscale e result st w
                = Some (w', setIsGenerating false
                              (setError None (setIsGenerating true st)))
                /\ db w' = db w
                /\ filter store_call (calls w') = filter store_call (calls w))
          /\ (forall m,
                generateContent_reply e = Rejected m ->
                exists w',
                  handleUpscale e result st w
                  = Some (w', setIsGenerating false
                                (setError (Some upscale_failed_message)
                                   (setError None (setIsGenerating true st))))
                  /\ db w' = db w
                  /\ console w'
                     = console w
                       ++ ["Error upscaling image:"; "Upscale failed:"]
                  /\ filter store_call (calls w')
                     = filter store_call (calls w))).
Proof.
  intros e result st w.
  assert (Hguard : forall b,
            upscalable result = b ->
            negb (Result.type result =? "image")%string
            && negb (Result.type result =? "analysis")%string = negb b).
  { intros b <-. unfold upscalable. now rewrite negb_orb. }
  split.
  - intros Ht. unfold handleUpscale. now rewrite (Hguard _ Ht).
  - intros Ht base64 mime Hp Hm. split.
    + intros response Hr Hparts.
      apply first_inline_data_none in Hparts.
      unfold handleUpscale. rewrite (Hguard _ Ht), Hp, Hm. cbn [negb].
      unfold upscale, bind.
      rewrite (upscaleImage_answered e base64 mime w response Hr), Hparts.
      cbn. eexists. split; [reflexivity|]. cbn.
      split; [reflexivity|]. rewrite filter_app. cbn. apply app_nil_r.
    + intros m Hr.
      unfold handleUpscale. rewrite (Hguard _ Ht), Hp, Hm. cbn [negb].
      unfold upscale, upscaleImage, Gemini.log_and_rethrow,
        Gemini.ai_generateContent, try_catch, bind, call, await,
        console_error, throw. rewrite Hr. cbn.
      eexists. split; [reflexivity|]. cbn.
      split; [reflexivity|]. split; [now rewrite <- app_assoc|].
      rewrite filter_app. cbn. apply app_nil_r.
Qed.

Lemma handleUpscale_without_result_witness :
  let shown := Stub.entry 1 "a red kite" in
  exists w',
    handleUpscale Stub.env shown (Stub.showing [shown]) Stub.world
    = Some (w', Stub.showing [shown])
    /\ db w' = db Stub.world.
Proof.
  cbv zeta.
  destruct (handleUpscale_without_result Stub.env
              (Stub.entry 1 "a red kite")
              (Stub.showing [Stub.entry 1 "a red kite"]) Stub.world)
    as [_ H].
  destruct (H eq_refl "iVBORw0KGgo=" "image/png" eq_refl eq_refl)
    as [Hnone _].
  destruct (Hnone Stub.response eq_refl (Forall_nil _))
    as (w' & Hrun & Hdb & _).
  exists w'. split; [exact Hrun | exact Hdb].
Defined.

(** X21.  For an image or analysis result whose URL is a data URL,
    [handleUpscale] sends the payload and the MIME type cut out of the URL
    to the provider; when an image comes back it posts a body of type
    "image" with the new image as data, "Upscaled: " before the old prompt
    and the fixed text, a body that passes the check of the route.  With a
    store that answers, when the body is within the limit of [express.json]
    one row is added and the entry is put in front of the list; when it is
    over the limit nothing is added and nothing is shown, no error either.
    The prompt field is left alone, and the run does not depend on a key in
    the environment. *)
Theorem handleUpscale_saves_the_upscaled_image :
  forall e result st w base64 mime response upscaledUrl,
    upscalable result = true ->
    payload_of (Result.url result) = Some base64 ->
    mime_of (Result.url result) = Some mime ->
    generateContent_reply e = Resolved response ->
    Gemini.first_inline_data (parts response) = Some upscaledUrl ->
    history_reachable e = true ->
    Server.faulty (db w) = false ->
    Server.seq (db w) < Server.max_rowid ->
    let body := upscaled_body result upscaledUrl in
    let asked :=
      calls w
      ++ [GenerateContent (Gemini.getApiKey e)
            {| model := "gemini-2.5-flash-image";
               contents :=
                 [InlineData {| data := base64; mimeType := mime |};
                  Text upscale_instruction];
               tools := [];
               imageAspectRatio := Some "1:1";
               voiceName := None |};
          HistoryPost body] in
    accepted body = true
    /\ (Server.within_limit body = true ->
        exists w',
          handleUpscale e result st w
          = Some (w', setIsGenerating false
                        (setResults
                           ({| Result.id :=
                                 Some (as_double (Server.seq (db w) + 1));
                               Result.type := "image";
                               Result.url := upscaledUrl;
                               Result.prompt :=
                                 ("Upscaled: " ++ Result.prompt result)%string;
                               Result.text := Some upscaled_text;
                               Result.sources := None |} :: results st)
                           (setError None (setIsGenerating true st))))
          /\ Server.history (db w')
             = Server.history (db w)
               ++ [row_of (Server.seq (db w) + 1) (CURRENT_TIMESTAMP e) body]
          /\ calls w' = asked)
    /\ (Server.within_limit body = false ->
        exists w',
          handleUpscale e result st w
          = Some (w', setIsGenerating false
                        (setError None (setIsGenerating true st)))
          /\ db w' = db w
          /\ calls w' = asked).
Proof.
  intros e result st w base64 mime response upscaledUrl Ht Hp Hm Hr Hu He Hf
    Hs body asked.
  assert (Htruthy : truthy upscaledUrl = true)
    by (eapply first_inline_data_truthy; exact Hu).
  assert (Ha : accepted body = true).
  { unfold accepted, body, upscaled_body. cbn. now rewrite Htruthy. }
  split; [exact Ha|].
  assert (Hrun :
    handleUpscale e result st w
    = match
        (let '(db', response) :=
           Server.post (CURRENT_TIMESTAMP e) (db w) body in
         ({| db := db'; blobs := blobs w; console := console w;
             calls := asked |}, response))
      with
      | (w', Server.Status200 savedItem) =>
          Some (w', setIsGenerating false
                      (setResults
                         ({| Result.id := Some (Saved.id savedItem);
                             Result.type := Saved.type savedItem;
                             Result.url := Saved.data savedItem;
                             Result.prompt := Saved.prompt savedItem;
                             Result.text := Saved.text savedItem;
                             Result.sources := None |} :: results st)
                         (setError None (setIsGenerating true st))))
      | (w', _) =>
          Some (w', setIsGenerating false
                      (setError None (setIsGenerating true st)))
      end).
  { unfold handleUpscale. rewrite <- negb_orb. fold (upscalable result).
    rewrite Ht, Hp, Hm. cbn [negb].
    unfold upscale, bind.
    rewrite (upscaleImage_answered e base64 mime w response Hr), Hu.
    cbn [truthy_opt opt_or_else]. rewrite Htruthy. rewrite or_else_empty.
    fold body. unfold fetch_history, call, bind. rewrite He. cbv beta.
    unfold logged. cbn [db blobs console calls].
    subst asked. rewrite <- app_assoc. cbn [app].
    destruct (Server.post (CURRENT_TIMESTAMP e) (db w) body)
      as [d' [savedItem| | |]]; reflexivity. }
  split; intros Hl; rewrite Hrun.
  - rewrite (post_accepted _ _ _ Hl Ha Hf Hs).
    eexists. split; [reflexivity|]. split; reflexivity.
  - rewrite (post_over_limit _ _ _ Hl).
    eexists. split; [reflexivity|]. split; reflexivity.
Qed.

Lemma handleUpscale_saves_the_upscaled_image_witness :
  let answer :=
    {| parts := [{| inlineData :=
                      Some {| data := "c2hhcnA="; mimeType := "image/png" |} |}];
       responseText := None; groundingChunks := None |} in
  let e := Stub.without_env_key (Some "user-key") in
  let e' :=
    {| API_KEY := API_KEY e; GEMINI_API_KEY := GEMINI_API_KEY e;
       lumina_api_key := lumina_api_key e; aistudio := aistudio e;
       generateContent_reply := Resolved answer;
       generateVideos_reply := generateVideos_reply e;
       getVideosOperation_replies := getVideosOperation_replies e;
       download_reply := download_reply e; objectURL_id := objectURL_id e;
       history_reachable := true; CURRENT_TIMESTAMP := 100 |} in
  exists w' st',
    handleUpscale e' (Stub.entry 1 "a red kite")
      (Stub.showing [Stub.entry 1 "a red kite"]) Stub.world
    = Some (w', st')
    /\ map Result.prompt (results st') = ["Upscaled: a red kite"; "a red kite"]
    /\ map Server.data (Server.history (db w'))
       = ["data:image/png;base64,c2hhcnA="].
Proof.
  cbv zeta.
  edestruct (handleUpscale_saves_the_upscaled_image
               {| API_KEY := None; GEMINI_API_KEY := None;
                  lumina_api_key := Some "user-key"; aistudio := None;
                  generateContent_reply :=
                    Resolved
                      {| parts :=
                           [{| inlineData :=
                                 Some {| data := "c2hhcnA=";
                                         mimeType := "image/png" |} |}];
                         responseText := None; groundingChunks := None |};
                  generateVideos_reply := Pending;
                  getVideosOperation_replies := [];
                  download_reply := Pending;
                  objectURL_id := "http://localhost:3000/0001";
                  history_reachable := true; CURRENT_TIMESTAMP := 100 |}
               (Stub.entry 1 "a red kite")
               (Stub.showing [Stub.entry 1 "a red kite"]) Stub.world
               "iVBORw0KGgo=" "image/png")
    as (_ & Hsaved & _); try reflexivity.
  destruct (Hsaved eq_refl) as (w' & Hrun & Hdb & _).
  eexists. eexists. split; [exact Hrun|]. split; [reflexivity|].
  rewrite Hdb. reflexivity.
Defined.

(** ** The key saved in the settings dialog *)

(** X22.  A non-empty key saved in the settings dialog is the key
    [getApiKey] resolves from then on, whatever the environment holds, and
    the one the dialog shows after a reload.  Saving the empty string is
    the same as "Reset to Default": [getApiKey] falls back to [API_KEY],
    then to [GEMINI_API_KEY], then to the empty string. *)
Theorem saved_key_round_trip :
  forall key e,
    (truthy key = true ->
     Gemini.getApiKey (snd (saveApiKey key e)) = key)
    /\ initial_settings (snd (saveApiKey key e)) = fst (saveApiKey key e)
    /\ Gemini.getApiKey (snd (saveApiKey "" e))
       = Gemini.getApiKey (snd (resetApiKey e))
    /\ Gemini.getApiKey (snd (resetApiKey e))
       = opt_or_else (API_KEY e) (opt_or_else (GEMINI_API_KEY e) "")
    /\ initial_settings (snd (resetApiKey e)) = fst (resetApiKey e).
Proof.
  intros key e. repeat split.
  - intros H. unfold Gemini.getApiKey, saveApiKey. cbn. rewrite H.
    unfold or_else. now rewrite H.
  - unfold initial_settings, saveApiKey. cbn. now rewrite or_else_empty.
Qed.

Lemma saved_key_round_trip_witness :
  Gemini.getApiKey (snd (saveApiKey "user-key" Stub.env)) = "user-key".
Proof.
  destruct (saved_key_round_trip "user-key" Stub.env) as (H & _).
  apply H. reflexivity.
Defined.

(** X23.  With no key in the environment, saving a key in the settings
    dialog turns the sidebar from "Key Missing" to "API Ready", yet every
    run of [handleGenerate] that gets as far as generating still ends with
    the generic failure message, without a single call to the provider. *)
Theorem ready_badge_without_env_key :
  forall key e st w,
    truthy key = true ->
    truthy_opt (GEMINI_API_KEY e) = false ->
    reaches_generation e st = true ->
    let saved := saveApiKey key e in
    let run := handleGenerate (snd saved) st w in
    key_missing e (initial_settings (with_lumina_api_key None e)) = true
    /\ key_missing (snd saved) (fst saved) = false
    /\ error (snd run) = Some failed_message
    /\ filter provider_call (calls (fst run)) = filter provider_call (calls w).
Proof.
  intros key e st w Hkey Henv Hreach saved run. subst saved run.
  split; [unfold key_missing; cbn; now rewrite Henv|].
  split; [unfold key_missing; cbn; now rewrite Hkey, andb_false_r|].
  assert (Hreach' : reaches_generation (snd (saveApiKey key e)) st = true)
    by exact Hreach.
  rewrite (handleGenerate_reaches _ st w Hreach').
  rewrite (generate_without_env_key (snd (saveApiKey key e)) _ _ Henv).
  cbn [fst snd].
  split; [reflexivity|].
  unfold entering_try.
  destruct (mode st), (hasKey st), (aistudio (snd (saveApiKey key e)));
    cbn; rewrite ?filter_app; cbn; rewrite ?app_nil_r; reflexivity.
Qed.

Lemma ready_badge_without_env_key_witness :
  let e := Stub.without_env_key None in
  let saved := saveApiKey "user-key" e in
  key_missing (snd saved) (fst saved) = false
  /\ error (snd (handleGenerate (snd saved)
                   (Stub.state generate_image "a red kite") Stub.world))
     = Some "Generation failed. Please try again.".
Proof.
  cbv zeta.
  destruct (ready_badge_without_env_key "user-key"
              (Stub.without_env_key None)
              (Stub.state generate_image "a red kite") Stub.world
              eq_refl eq_refl eq_refl) as (_ & Hbadge & Herr & _).
  split; [exact Hbadge | exact Herr].
Defined.

(** ** The key dialog of video mode *)

(** X24.  Video mode with a prompt and the key flag not set: inside AI
    Studio [handleGenerate] opens the key dialog and asks whether a key is
    selected; when none is, the run ends there, with these two calls only,
    the flag still unset and no message shown; when one is, the flag is set
    and generation goes on.  Outside AI Studio no dialog call is made, the
    flag is set and generation goes on. *)
Theorem video_key_dialog :
  forall e st w,
    mode st = video_gen ->
    truthy (prompt st) = true ->
    hasKey st = false ->
    (aistudio e = Some false ->
     handleGenerate e st w
     = (logged [OpenSelectKey; HasSelectedApiKey] w, setHasKey false st))
    /\ (aistudio e = Some true ->
        handleGenerate e st w
        = generate_and_settle e (setHasKey true st)
            (logged [OpenSelectKey; HasSelectedApiKey] w))
    /\ (aistudio e = None ->
        handleGenerate e st w = generate_and_settle e (setHasKey true st) w).
Proof.
  intros e st w Hm Hp Hk.
  unfold handleGenerate, Gemini.openVeoKeyDialog, Gemini.checkVeoKey.
  rewrite Hm, Hp, Hk. cbn. rewrite !andb_false_r.
  repeat split; intros Ha; rewrite Ha; cbn; unfold logged; cbn;
    rewrite <- ?app_assoc; reflexivity.
Qed.

Lemma video_key_dialog_witness :
  let e :=
    {| API_KEY := None; GEMINI_API_KEY := Some "env-key";
       lumina_api_key := None; aistudio := Some false;
       generateContent_reply := Pending; generateVideos_reply := Pending;
       getVideosOperation_replies := []; download_reply := Pending;
       objectURL_id := "http://localhost:3000/0001";
       history_reachable := true; CURRENT_TIMESTAMP := 100 |} in
  let st :=
    {| mode := video_gen; prompt := "a kite over dunes";
       uploadedImage := None; isGenerating := false; results := [];
       error := None; hasKey := false; aspectRatio := Ratio_16_9;
       recordedAudio := None |} in
  calls (fst (handleGenerate e st Stub.world))
  = [OpenSelectKey; HasSelectedApiKey]
  /\ error (snd (handleGenerate e st Stub.world)) = None.
Proof.
  cbv zeta.
  destruct (video_key_dialog
              {| API_KEY := None; GEMINI_API_KEY := Some "env-key";
                 lumina_api_key := None; aistudio := Some false;
                 generateContent_reply := Pending;
                 generateVideos_reply := Pending;
                 getVideosOperation_replies := []; download_reply := Pending;
                 objectURL_id := "http://localhost:3000/0001";
                 history_reachable := true; CURRENT_TIMESTAMP := 100 |}
              {| mode := video_gen; prompt := "a kite over dunes";
                 uploadedImage := None; isGenerating := false; results := [];
                 error := None; hasKey := false; aspectRatio := Ratio_16_9;
                 recordedAudio := None |} Stub.world
              eq_refl eq_refl eq_refl) as (H & _).
  rewrite (H eq_refl). split; reflexivity.
Defined.

(** ** The effect run on mount *)

(** X25.  On mount, with a store that answers, the list becomes the rows
    the store lists, whatever it held, and the key flag becomes what AI
    Studio says about the selected key, or true outside AI Studio; the only
    call over the network is the one listing. *)
Theorem init_loads_history_and_key_flag :
  forall order e st w,
    history_reachable e = true ->
    Server.faulty (db w) = false ->
    let run := init order e st w in
    results (snd run) = map of_row (order (Server.history (db w)))
    /\ hasKey (snd run)
       = match aistudio e with Some selected => selected | None => true end
    /\ filter network_call (calls (fst run))
       = filter network_call (calls w) ++ [HistoryGet]
    /\ db (fst run) = db w.
Proof.
  intros order e st w He Hf run. subst run.
  unfold init, Gemini.checkVeoKey.
  destruct (aistudio e) as [selected|]; unfold bind, call, ret;
    rewrite fetchHistory_answered by assumption;
    cbn; rewrite !filter_app; cbn; rewrite ?app_nil_r; repeat split.
Qed.

Lemma init_loads_history_and_key_flag_witness :
  let run := init Server.sqlite_order_by_timestamp_desc Stub.env
               (Stub.showing [Stub.entry 5 "stale"]) Stub.world in
  results (snd run) = [] /\ hasKey (snd run) = true.
Proof.
  cbv zeta.
  destruct (init_loads_history_and_key_flag
              Server.sqlite_order_by_timestamp_desc Stub.env
              (Stub.showing [Stub.entry 5 "stale"]) Stub.world
              eq_refl eq_refl) as (Hres & Hkey & _).
  split; [exact Hres | exact Hkey].
Defined.

(** ** One key for every provider call *)

Lemma uses_key_nothing :
  forall A k (c : Async A),
    (forall w w' r, c w = (w', r) -> calls w' = calls w) -> uses_key k c.
Proof.
  intros A k c H w w' r Hc. exists []. rewrite app_nil_r.
  split; [eapply H; exact Hc|constructor].
Qed.

Lemma uses_key_ret : forall A k (a : A), uses_key k (ret a).
Proof. intros. apply uses_key_nothing. intros w w' r H. now inversion H. Qed.

Lemma uses_key_throw : forall A k m, uses_key k (@throw A m).
Proof. intros. apply uses_key_nothing. intros w w' r H. now inversion H. Qed.

Lemma uses_key_await : forall A k (p : Promise A), uses_key k (await p).
Proof. intros. apply uses_key_nothing. intros w w' r H. now inversion H. Qed.

Lemma uses_key_console_error : forall k label, uses_key k (console_error label).
Proof. intros. apply uses_key_nothing. intros w w' r H. now inversion H. Qed.

Lemma uses_key_createObjectURL :
  forall k e b, uses_key k (createObjectURL e b).
Proof. intros. apply uses_key_nothing. intros w w' r H. now inversion H. Qed.

Lemma uses_key_call :
  forall k ev,
    Forall (fun key => key = k) (provider_keys [ev]) -> uses_key k (call ev).
Proof.
  intros k ev H w w' r Hc. inversion Hc; subst. exists [ev]. now split.
Qed.

Lemma uses_key_bind :
  forall A B k (c : Async A) (f : A -> Async B),
    uses_key k c -> (forall a, uses_key k (f a)) -> uses_key k (bind c f).
Proof.
  intros A B k c f Hc Hf w w' r H. unfold bind in H.
  destruct (c w) as [w1 [a|m|]] eqn:E.
  - destruct (Hc _ _ _ E) as (l1 & H1 & K1).
    destruct (Hf a _ _ _ H) as (l2 & H2 & K2).
    exists (l1 ++ l2). split; [now rewrite H2, H1, app_assoc|].
    unfold provider_keys in *. rewrite flat_map_app.
    apply Forall_app. now split.
  - inversion H; subst. eapply Hc, E.
  - inversion H; subst. eapply Hc, E.
Qed.

Lemma uses_key_try_catch :
  forall A k (c : Async A) (h : string -> Async A),
    uses_key k c -> (forall m, uses_key k (h m)) ->
    uses_key k (try_catch c h).
Proof.
  intros A k c h Hc Hh w w' r H. unfold try_catch in H.
  destruct (c w) as [w1 [a|m|]] eqn:E.
  - inversion H; subst. eapply Hc, E.
  - destruct (Hc _ _ _ E) as (l1 & H1 & K1).
    destruct (Hh m _ _ _ H) as (l2 & H2 & K2).
    exists (l1 ++ l2). split; [now rewrite H2, H1, app_assoc|].
    unfold provider_keys in *. rewrite flat_map_app.
    apply Forall_app. now split.
  - inversion H; subst. eapply Hc, E.
Qed.

Lemma uses_key_fetch_blob : forall k u, uses_key k (fetch_blob u).
Proof.
  intros k u. unfold fetch_blob. apply uses_key_bind.
  - apply uses_key_call. constructor.
  - intros _. apply uses_key_nothing. intros w w' r H.
    destruct (lookup_blob u (blobs w)); now inversion H.
Qed.

Lemma uses_key_fetch_history :
  forall A k e ev (route : Server.Db -> Server.Db * Server.Response A),
    provider_keys [ev] = [] -> uses_key k (fetch_history e ev route).
Proof.
  intros A k e ev route Hev. unfold fetch_history. apply uses_key_bind.
  - apply uses_key_call. rewrite Hev. constructor.
  - intros _. apply uses_key_nothing. intros w w' r H.
    destruct (history_reachable e); [|now inversion H].
    destruct (route (db w)). now inversion H.
Qed.

Create HintDb uses_key.
#[local] Hint Resolve uses_key_ret uses_key_throw uses_key_await
  uses_key_console_error uses_key_createObjectURL uses_key_fetch_blob
  : uses_key.

Ltac uses_key_step :=
  first
    [ solve [auto with uses_key]
    | apply uses_key_fetch_history; reflexivity
    | apply uses_key_bind
    | apply uses_key_try_catch
    | apply uses_key_call; cbn; rewrite ?or_else_empty;
      repeat constructor
    | match goal with
      | |- forall _, _ => intro
      | |- uses_key _ (if ?b then _ else _) => destruct b
      | |- uses_key _ (match ?x with _ => _ end) => destruct x
      end ].

Ltac uses_key_auto := repeat uses_key_step.

Lemma uses_key_poll :
  forall e replies operation,
    uses_key (Gemini.getApiKey e)
      (Gemini.poll (Gemini.getApiKey e) operation replies).
Proof.
  induction replies as [|reply later IH]; intros operation; cbn;
    uses_key_auto.
Qed.

Lemma uses_key_dispatch :
  forall e st, uses_key (Gemini.getApiKey e) (dispatch e st).
Proof.
  intros e st. unfold dispatch.
  destruct (mode st), (uploadedImage st), (recordedAudio st);
    try apply uses_key_ret;
    (apply uses_key_bind; [|intro; apply uses_key_ret]);
    unfold Gemini.generateVideo, Gemini.generateVideo_try,
      Gemini.editImage, Gemini.analyzeImage, Gemini.generateSpeech,
      Gemini.transcribeAudio, Gemini.generateImage,
      Gemini.researchWithSearch, Gemini.summarizeUrl,
      Gemini.log_and_rethrow, Gemini.ai_generateContent;
    uses_key_auto; apply uses_key_poll.
Qed.

Lemma uses_key_generation :
  forall e st, uses_key (Gemini.getApiKey e) (generation e st).
Proof.
  intros e st. unfold generation.
  destruct (negb (truthy_opt (GEMINI_API_KEY e))); [apply uses_key_throw|].
  apply uses_key_bind; [apply uses_key_dispatch|]. intros g.
  destruct (negb (present (resultUrl g)) && negb (truthy_opt (resultText g)));
    [apply uses_key_throw|].
  destruct (present (resultUrl g) || truthy_opt (resultText g));
    [|apply uses_key_ret].
  apply uses_key_bind.
  - unfold materialize. cbv zeta. uses_key_auto.
  - intros d. unfold saveResult. uses_key_auto.
Qed.

(** X26.  A run of [handleGenerate] only ever adds to the log of calls,
    and every call it makes to the provider, the status queries of the
    polling loop and the header of the video download included, carries the
    one key [getApiKey] resolves: the key saved in the settings when there
    is one, else the one of the environment. *)
Theorem provider_calls_use_the_resolved_key :
  forall e st w,
    exists added,
      calls (fst (handleGenerate e st w)) = calls w ++ added
      /\ Forall (fun key => key = Gemini.getApiKey e) (provider_keys added).
Proof.
  intros e st w.
  assert (Hsettle : forall st0 w0,
             exists added,
               calls (fst (generate_and_settle e st0 w0)) = calls w0 ++ added
               /\ Forall (fun key => key = Gemini.getApiKey e)
                    (provider_keys added)).
  { intros st0 w0. unfold generate_and_settle.
    destruct (generation e _ w0) as [w' r] eqn:Hg.
    destruct (uses_key_generation e _ _ _ _ Hg) as (l & Hl & Hk).
    exists l. split; [|exact Hk]. destruct r; exact Hl. }
  destruct (reaches_generation e st) eqn:Hreach.
  - rewrite (handleGenerate_reaches e st w Hreach).
    destruct (Hsettle (snd (entering_try e st w)) (fst (entering_try e st w)))
      as (l & Hl & Hk).
    unfold entering_try in *.
    destruct (mode st), (hasKey st), (aistudio e); cbn [fst snd] in *;
      try (exists l; split; [exact Hl|exact Hk]);
      (exists ([OpenSelectKey; HasSelectedApiKey] ++ l);
       split; [rewrite Hl; unfold logged; cbn; now rewrite <- app_assoc
              |exact Hk]).
  - unfold reaches_generation, missing_required_input,
      credential_selected in Hreach.
    unfold handleGenerate, Gemini.openVeoKeyDialog, Gemini.checkVeoKey.
    case_inputs st e; cbn in Hreach; try discriminate Hreach; cbn;
      try (exists []; rewrite app_nil_r; split; [reflexivity|constructor]).
    all: exists [OpenSelectKey; HasSelectedApiKey];
      split; [now rewrite <- app_assoc|constructor].
Qed.

(** ** The earlier copy of the component *)

(** X27.  The earlier [handleGenerate] makes no check of the environment
    key and has no error for an empty answer.  Editing an image with the
    environment key absent calls the provider with the key [getApiKey]
    resolves; when the answer carries no inline data the run ends without
    posting anything and without showing any error; when it carries an
    image and the store accepts the body (it answers, the body is within
    the limit of [express.json], the counter is below the largest rowid),
    the image is saved and put in front of the list under the identifier
    the server answered. *)
Theorem legacy_image_edit :
  forall e st w img response,
    Legacy.mode st = Legacy.image_edit ->
    Legacy.uploadedImage st = Some img ->
    generateContent_reply e = Resolved response ->
    let run := Legacy.handleGenerate e st w in
    let request :=
      {| model := "gemini-2.5-flash-image";
         contents :=
           [InlineData {| data := data img; mimeType := mimeType img |};
            Text (or_else (Legacy.prompt st) "Enhance this image")];
         tools := []; imageAspectRatio := None; voiceName := None |} in
    (Forall (fun p => inlineData p = None) (parts response) ->
     calls (fst run)
     = calls w ++ [GenerateContent (Gemini.getApiKey e) request]
     /\ Legacy.error (snd run) = None
     /\ Legacy.results (snd run) = Legacy.results st
     /\ db (fst run) = db w)
    /\ (forall url,
          Gemini.first_inline_data (parts response) = Some url ->
          history_reachable e = true ->
          Server.faulty (db w) = false ->
          Server.seq (db w) < Server.max_rowid ->
          Server.within_limit
            {| Body.type := "image"; Body.data := url;
               Body.prompt := Legacy.prompt_label st;
               Body.text := None; Body.sources := None |} = true ->
          Legacy.results (snd run)
          = {| Result.id := Some (as_double (Server.seq (db w) + 1));
               Result.type := "image"; Result.url := url;
               Result.prompt := Legacy.prompt_label st;
               Result.text := None; Result.sources := None |}
            :: Legacy.results st
          /\ Legacy.prompt (snd run) = ""
          /\ Legacy.error (snd run) = None).
Proof.
  intros e st w img response Hm Hi Hr run request. subst run request.
  unfold Legacy.handleGenerate, Legacy.generate_and_settle,
    Legacy.generation, Legacy.dispatch.
  cbn [Legacy.mode Legacy.prompt Legacy.uploadedImage Legacy.recordedAudio
       Legacy.setError Legacy.setIsGenerating].
  rewrite Hm, Hi. cbn [present negb andb].
  rewrite !andb_false_r.
  unfold Gemini.editImage, Gemini.log_and_rethrow, Gemini.ai_generateContent,
    try_catch, bind, call, await, ret.
  rewrite Hr. cbn [resultUrl resultText truthy_opt].
  split.
  - intros Hparts. apply first_inline_data_none in Hparts.
    rewrite Hparts. cbn. repeat split.
  - intros url Hu He Hf Hs Hl. rewrite Hu.
    assert (Ht : truthy url = true)
      by (eapply first_inline_data_truthy; exact Hu).
    cbn [truthy_opt orb]. rewrite Ht. cbn [orb].
    unfold Legacy.materialize.
    cbn [Legacy.mode Legacy.setError Legacy.setIsGenerating]. rewrite ?Hm.
    unfold ret.
    cbn [opt_or_else resultType resultText]. rewrite or_else_empty.
    unfold fetch_history, call, bind. rewrite He. cbv beta.
    cbn [db blobs console calls].
    assert (Ha : accepted
                   {| Body.type := "image"; Body.data := url;
                      Body.prompt :=
                        Legacy.prompt_label
                          (Legacy.setError None
                             (Legacy.setIsGenerating true st));
                      Body.text := None; Body.sources := None |} = true).
    { unfold accepted. cbn. rewrite Ht. cbn.
      unfold Legacy.prompt_label, or_else. cbn.
      destruct (truthy (Legacy.prompt st)) eqn:Hp; [exact Hp|].
      rewrite Hm. reflexivity. }
    change (Legacy.prompt_label st)
      with (Legacy.prompt_label
              (Legacy.setError None (Legacy.setIsGenerating true st))) in Hl.
    rewrite !(post_accepted _ _ _ Hl Ha Hf Hs). cbn. repeat split.
Qed.

Lemma legacy_image_edit_witness :
  let upload := {| data := "iVBORw0KGgo="; mimeType := "image/png" |} in
  let st :=
    {| Legacy.mode := Legacy.image_edit; Legacy.prompt := "add sepia tone";
       Legacy.uploadedImage := Some upload; Legacy.isGenerating := false;
       Legacy.results := []; Legacy.error := None; Legacy.hasKey := false;
       Legacy.aspectRatio := Ratio_16_9; Legacy.recordedAudio := None |} in
  let answer :=
    {| parts := [{| inlineData :=
                      Some {| data := "c2VwaWE="; mimeType := "image/png" |} |}];
       responseText := None; groundingChunks := None |} in
  let answering :=
    {| API_KEY := None; GEMINI_API_KEY := None; lumina_api_key := None;
       aistudio := None; generateContent_reply := Resolved answer;
       generateVideos_reply := Pending; getVideosOperation_replies := [];
       download_reply := Pending;
       objectURL_id := "http://localhost:3000/0001";
       history_reachable := true; CURRENT_TIMESTAMP := 100 |} in
  let run := Legacy.handleGenerate (Stub.without_env_key None) st
               Stub.world in
  let saved := Legacy.handleGenerate answering st Stub.world in
  Legacy.error (snd run) = None
  /\ Legacy.results (snd run) = []
  /\ calls (fst run)
     = [GenerateContent ""
          {| model := "gemini-2.5-flash-image";
             contents := [InlineData upload; Text "add sepia tone"];
             tools := []; imageAspectRatio := None; voiceName := None |}]
  /\ Legacy.results (snd saved)
     = [{| Result.id := Some 1; Result.type := "image";
           Result.url := "data:image/png;base64,c2VwaWE=";
           Result.prompt := "add sepia tone"; Result.text := None;
           Result.sources := None |}].
Proof.
  cbv zeta.
  destruct (legacy_image_edit (Stub.without_env_key None)
              {| Legacy.mode := Legacy.image_edit;
                 Legacy.prompt := "add sepia tone";
                 Legacy.uploadedImage :=
                   Some {| data := "iVBORw0KGgo="; mimeType := "image/png" |};
                 Legacy.isGenerating := false; Legacy.results := [];
                 Legacy.error := None; Legacy.hasKey := false;
                 Legacy.aspectRatio := Ratio_16_9;
                 Legacy.recordedAudio := None |} Stub.world
              {| data := "iVBORw0KGgo="; mimeType := "image/png" |}
              Stub.response eq_refl eq_refl eq_refl) as [H _].
  destruct (H (Forall_nil _)) as (Hcalls & Herr & Hres & _).
  split; [exact Herr|]. split; [exact Hres|]. split; [exact Hcalls|].
  destruct (legacy_image_edit
              {| API_KEY := None; GEMINI_API_KEY := None;
                 lumina_api_key := None; aistudio := None;
                 generateContent_reply :=
                   Resolved
                     {| parts :=
                          [{| inlineData :=
                                Some {| data := "c2VwaWE=";
                                        mimeType := "image/png" |} |}];
                        responseText := None; groundingChunks := None |};
                 generateVideos_reply := Pending;
                 getVideosOperation_replies := [];
                 download_reply := Pending;
                 objectURL_id := "http://localhost:3000/0001";
                 history_reachable := true; CURRENT_TIMESTAMP := 100 |}
              {| Legacy.mode := Legacy.image_edit;
                 Legacy.prompt := "add sepia tone";
                 Legacy.uploadedImage :=
                   Some {| data := "iVBORw0KGgo="; mimeType := "image/png" |};
                 Legacy.isGenerating := false; Legacy.results := [];
                 Legacy.error := None; Legacy.hasKey := false;
                 Legacy.aspectRatio := Ratio_16_9;
                 Legacy.recordedAudio := None |} Stub.world
              {| data := "iVBORw0KGgo="; mimeType := "image/png" |}
              _ eq_refl eq_refl eq_refl) as [_ Hsave].
  destruct (Hsave "data:image/png;base64,c2VwaWE=" eq_refl eq_refl eq_refl
              eq_refl eq_refl) as (Hsaved & _).
  exact Hsaved.
Defined.
